(** * Cluster-membership core of the object store: keepalive, join,
      rebalance trigger, primary transition and notification listeners.

    A shallow embedding of the Go sources (package [ais]) together with the
    properties stated for them.  Machine integers are [Z] with the int64
    wrap-around written out; Go maps are [gmap]s keyed by node id. *)

From Stdlib Require Import ZArith Lia List Bool.
From stdpp Require Import base option gmap strings list fin_maps.

Local Open Scope Z_scope.

(** ** 64-bit signed integers (Go [int64], [time.Duration]) *)

Module I64.

Definition min_int : Z := - 2 ^ 63.
Definition max_int : Z := 2 ^ 63 - 1.

Definition in_range (z : Z) : Prop := min_int <= z <= max_int.

(** Two's complement wrap-around of an exact result. *)
Definition wrap (z : Z) : Z := (z + 2 ^ 63) mod 2 ^ 64 - 2 ^ 63.

Definition add (a b : Z) : Z := wrap (a + b).
Definition sub (a b : Z) : Z := wrap (a - b).
Definition mul (a b : Z) : Z := wrap (a * b).
Definition neg (a : Z) : Z := wrap (- a).

(** Go's [/] on integers truncates toward zero; [b] is non-zero at every
    use below (division by a constant, or guarded by the caller). *)
Definition quot (a b : Z) : Z := wrap (Z.quot a b).

End I64.

(** ** Helpers of package [cmn/cos] *)

Module cos.

(** Modelled from the spec: [cos.AbsI64] is declared in cmn/cos, which is
    not among the sources; the spec writes it [|srtt − δ|]. *)
Definition AbsI64 (a : Z) : Z := if a <? 0 then I64.neg a else a.

(** Modelled from the spec: [cos.DivRound] is declared in cmn/cos; the spec
    says "divide by 1000 with rounding": half of the divisor is added
    before the (truncating) integer division. *)
Definition DivRound (a b : Z) : Z := I64.quot (I64.add a (I64.quot b 2)) b.

(** Modelled from the spec: [cos.MinI64] and [cos.MaxI64] (the two halves
    of the spec's [clamp]). *)
Definition MinI64 (a b : Z) : Z := if a <? b then a else b.
Definition MaxI64 (a b : Z) : Z := if a >? b then a else b.

End cos.

(** ** Package [cluster]: node descriptors and the cluster map *)

Module cluster.

Definition Proxy : string := "proxy".
Definition Target : string := "target".

Record NetInfo := mkNetInfo {
  NodeHostname : string;
  DaemonPort : string;
  DirectURL : string
}.

(** Modelled from the spec: [cluster.Snode] is declared in cluster/map.go,
    which is not among the sources.  "Node descriptor. Attributes: id, role
    ∈ {Proxy, Target}, three network endpoints (public, intra-control,
    intra-data), flags bitset". *)
Record Snode := mkSnode {
  DaemonID : string;
  DaemonType : string;
  PublicNet : NetInfo;
  IntraControlNet : NetInfo;
  IntraDataNet : NetInfo;
  Flags : Z
}.

#[global] Instance NetInfo_eq_dec : EqDecision NetInfo.
Proof. solve_decision. Defined.
#[global] Instance Snode_eq_dec : EqDecision Snode.
Proof. solve_decision. Defined.

(** Modelled from the spec: the flag bits of a descriptor
    ("{NonElectable, Maintenance, Decommission, ...}"); the sources only
    name them ([cluster.SnodeNonElectable], [cluster.NodeFlagsMaintDecomm]). *)
Definition SnodeNonElectable : Z := 1.
Definition NodeFlagMaint : Z := 4.
Definition NodeFlagDecomm : Z := 8.
Definition NodeFlagsMaintDecomm : Z := Z.lor NodeFlagMaint NodeFlagDecomm.

(** Modelled from the spec: [cos.BitFlags] (package cmn/cos) with its [Set]
    and [IsAnySet]: set the flags of a mask, test whether any of them is set. *)
Definition BitFlags_Set (f flags : Z) : Z := Z.lor f flags.
Definition BitFlags_IsAnySet (f flags : Z) : bool := negb (Z.land f flags =? 0).

(** Modelled from the spec: the accessors of a descriptor, [ID], [IsProxy],
    [IsTarget] (its role is [cmn.Proxy] or [cmn.Target]) and [IsAnySet] on
    its flags. *)
Definition ID (d : Snode) : string := DaemonID d.
Definition IsProxy (d : Snode) : bool := String.eqb (DaemonType d) Proxy.
Definition IsTarget (d : Snode) : bool := String.eqb (DaemonType d) Target.
Definition IsAnySet (d : Snode) (flags : Z) : bool := BitFlags_IsAnySet (Flags d) flags.

(** Modelled from the spec: a node is "in maintenance" when it carries the
    Maintenance or the Decommission flag ("flag combinations marking a node
    as ineligible for data placement but possibly still present"). *)
Definition InMaintenance (d : Snode) : bool := IsAnySet d NodeFlagsMaintDecomm.

(** Modelled from the spec: [Snode.Equals] compares the identity fields of
    two descriptors (id, role and the three endpoints); flags are not part
    of the identity. *)
Definition Equals (d o : Snode) : bool :=
  String.eqb (ID d) (ID o) && String.eqb (DaemonType d) (DaemonType o)
  && bool_decide (PublicNet d = PublicNet o)
  && bool_decide (IntraControlNet d = IntraControlNet o)
  && bool_decide (IntraDataNet d = IntraDataNet o).

(** Modelled from the spec: "SMap. Attributes: version, uuid, mapping of
    proxy-id → descriptor, mapping of target-id → descriptor, primary". *)
Record Smap := mkSmap {
  Tmap : gmap string Snode;
  Pmap : gmap string Snode;
  Primary : option Snode;
  Version : Z;
  UUID : string
}.

(** Modelled from the spec: [GetTarget] and [GetProxy] look an id up in the
    respective map; [None] is Go's nil. *)
Definition GetTarget (m : Smap) (sid : string) : option Snode := Tmap m !! sid.
Definition GetProxy (m : Smap) (pid : string) : option Snode := Pmap m !! pid.

(** Modelled from the spec: look an id up among the targets, then among the
    proxies. *)
Definition GetNode (m : Smap) (id : string) : option Snode :=
  match GetTarget m id with
  | Some node => Some node
  | None => GetProxy m id
  end.

(** Modelled from the spec: the node with this id unless it is absent or in
    maintenance ("absent-or-maintenance"). *)
Definition GetNodeNotMaint (m : Smap) (sid : string) : option Snode :=
  match GetNode m sid with
  | Some si => if InMaintenance si then None else Some si
  | None => None
  end.

(** Modelled from the spec: the number of targets of the map that are
    active, i.e. not in maintenance. *)
Definition CountActiveTargets (m : Smap) : Z :=
  Z.of_nat (length (List.filter (fun t => negb (InMaintenance t))
                                (map snd (map_to_list (Tmap m))))).

End cluster.

(** ** Keepalive: per-peer adaptive timeouts *)

Module Keepalive.

Definition kaStopMsg : string := "stop".
Definition kaNumRetries : Z := 3.

(** [type timeoutStats struct] *)
Record timeoutStats := mkTimeoutStats {
  srtt : Z;     (* smoothed round-trip time in ns *)
  rttvar : Z;   (* round-trip time variation in ns *)
  timeout : Z   (* in ns *)
}.

(** The fields of [type keepalive struct] that the timeout computation
    reads and writes: the cached [maxKeepalive] and the [timeoutTracker]
    map (the mutex only serialises access and has no functional content). *)
Record keepalive := mkKeepalive {
  maxKeepalive : Z;
  tt : gmap string timeoutStats
}.

(** [newTargetKeepalive] / [newProxyKeepalive]: an empty tracker and the
    configured [Timeout.MaxKeepalive]. *)
Definition newKeepalive (configMaxKeepalive : Z) : keepalive :=
  {| maxKeepalive := configMaxKeepalive; tt := ∅ |}.

(** [func (k *keepalive) timeoutStatsForDaemon(sid string) *timeoutStats].
    The Go function returns a pointer into the map; here it returns the
    tracker (with the entry materialised when it was missing) and the
    entry the pointer designates. *)
Definition timeoutStatsForDaemon (k : keepalive) (sid : string)
  : keepalive * timeoutStats :=
  match tt k !! sid with
  | Some ts => (k, ts)
  | None =>
      let ts := {| srtt := maxKeepalive k;
                   rttvar := I64.quot (maxKeepalive k) 2;
                   timeout := maxKeepalive k |} in
      ({| maxKeepalive := maxKeepalive k; tt := <[sid := ts]> (tt k) |}, ts)
  end.

Definition alpha : Z := 125.
Definition beta : Z := 250.
Definition c : Z := 4.

(** The assignments of [updateTimeoutForDaemon] to the fields of [ts], in
    program order; every later line reads the fields written before it. *)
Definition updateStats (maxKA : Z) (ts : timeoutStats) (next : Z) : timeoutStats :=
  let rttvar1 := I64.add (I64.mul (1000 - beta) (rttvar ts))
                         (I64.mul beta (cos.AbsI64 (I64.sub (srtt ts) next))) in
  let rttvar2 := cos.DivRound rttvar1 1000 in
  let srtt1 := I64.add (I64.mul (1000 - alpha) (srtt ts)) (I64.mul alpha next) in
  let srtt2 := cos.DivRound srtt1 1000 in
  let timeout1 := cos.MinI64 maxKA (I64.add srtt2 (I64.mul c rttvar2)) in
  let timeout2 := cos.MaxI64 timeout1 (I64.quot maxKA 2) in
  {| srtt := srtt2; rttvar := rttvar2; timeout := timeout2 |}.

(** [func (k *keepalive) updateTimeoutForDaemon(sid string, d time.Duration) time.Duration].
    The writes through the pointer [ts] land in the map entry of [sid]. *)
Definition updateTimeoutForDaemon (k : keepalive) (sid : string) (d : Z)
  : keepalive * Z :=
  let next := d in
  let '(k1, ts) := timeoutStatsForDaemon k sid in
  let ts' := updateStats (maxKeepalive k1) ts next in
  ({| maxKeepalive := maxKeepalive k1; tt := <[sid := ts']> (tt k1) |},
   timeout ts').


(** *** The heartbeat side: [register] and [doKeepalive] *)

Section Register.

(** Go's [error] values, and the two classifiers of package cmn/cos that
    [register] applies to them.  The classifiers depend on the operating
    system's error codes; they are parameters of the model. *)
Variable error : Type.
Variable IsRetriableConnErr : option error -> bool.
Variable IsUnreachable : option error -> Z -> bool.

(** What one call [sendKeepalive(timeout)] produces: the returned
    [(status, err)] and the time [mono.Since(now)] measured around it. *)
Record sendResult := mkSendResult {
  status : Z;
  err : option error;
  elapsed : Z
}.

(** One outcome of the [select] of the retry loop: the ticker fired (and
    the primary answers the keepalive sent then as [send] says, while
    [daemon.stopping] holds [stopping]), or a message arrived on the
    control channel. *)
Inductive event :=
| Tick (send : Z -> sendResult) (stopping : bool)
| Control (msg : string).

(** The local variables of [register] that live across iterations. *)
Record loopState := mkLoopState {
  kl : keepalive;
  cur_timeout : Z;     (* timeout *)
  i : Z;               (* i *)
  cur_status : Z;      (* status *)
  cur_err : option error  (* err *)
}.

Inductive tickOutcome :=
| Return (stopped : bool)
| Continue.

(** The body of [case <-ticker.C:]. *)
Definition retryTick (primaryID : string) (st : loopState)
           (send : Z -> sendResult) (stopping : bool)
  : loopState * tickOutcome :=
  let i' := I64.add (i st) 1 in
  let r := send (cur_timeout st) in
  let delta := elapsed r in
  let delta := if IsRetriableConnErr (err r)
               then maxKeepalive (kl st) else delta in
  let '(k', timeout') := updateTimeoutForDaemon (kl st) primaryID delta in
  let st' := {| kl := k'; cur_timeout := timeout'; i := i';
                cur_status := status r; cur_err := err r |} in
  match err r with
  | None => (st', Return false)
  | Some _ =>
      if i' =? kaNumRetries then (st', Return true)
      else if IsUnreachable (err r) (status r) then (st', Continue)
      else if stopping then (st', Return true)
      else (st', Continue)
  end.

(** The [for { select { ... } }] loop, driven by the outcomes of its
    successive selects.  [None]: the loop is still blocked in [select]
    when the given outcomes are exhausted. *)
Fixpoint retryLoop (primaryID : string) (evs : list event) (st : loopState)
  : option (loopState * bool) :=
  match evs with
  | [] => None
  | Tick send stopping :: evs' =>
      match retryTick primaryID st send stopping with
      | (st', Return stopped) => Some (st', stopped)
      | (st', Continue) => retryLoop primaryID evs' st'
      end
  | Control msg :: evs' =>
      if String.eqb msg kaStopMsg then Some (st, true)
      else retryLoop primaryID evs' st
  end.

(** [func (k *keepalive) register(sendKeepalive, primaryID, hname) (stopped bool)].
    [send0] answers the first keepalive; the result carries the final
    values of the locals next to the returned [stopped].  (The latency that
    goes to the stats tracker and the log lines are not part of the model.) *)
Definition register (k : keepalive) (send0 : Z -> sendResult)
           (evs : list event) (primaryID : string)
  : option (loopState * bool) :=
  let '(k0, ts) := timeoutStatsForDaemon k primaryID in
  let timeout0 := timeout ts in
  let r := send0 timeout0 in
  let st0 := {| kl := k0; cur_timeout := timeout0; i := 0;
                cur_status := status r; cur_err := err r |} in
  match err r with
  | None => Some (st0, false)
  | Some _ => retryLoop primaryID evs st0
  end.

(** What a call of [doKeepalive] did. *)
Record kaResult := mkKaResult {
  ka_stopped : bool;          (* the returned [stopped] *)
  ka_primaryFail : nat;       (* number of calls of [onPrimaryFail] *)
  ka_state : keepalive;
  ka_attempts : Z;            (* final [i] of [register], 0 when not called *)
  ka_err : option error       (* final [err] of [register] *)
}.

(** [func (tkr *targetKeepalive) doKeepalive() (stopped bool)]:
    [smapPrimary] is [None] when the map is nil or does not validate,
    and the id of its primary otherwise. *)
Definition targetDoKeepalive (k : keepalive) (smapPrimary : option string)
           (send0 : Z -> sendResult) (evs : list event) : option kaResult :=
  match smapPrimary with
  | None => Some {| ka_stopped := false; ka_primaryFail := 0; ka_state := k;
                    ka_attempts := 0; ka_err := None |}
  | Some primaryID =>
      match register k send0 evs primaryID with
      | None => None
      | Some (st, stopped) =>
          Some {| ka_stopped := stopped;
                  ka_primaryFail := if stopped then 1%nat else 0%nat;
                  ka_state := kl st; ka_attempts := i st;
                  ka_err := cur_err st |}
      end
  end.

(** [func (pkr *proxyKeepalive) doKeepalive() (stopped bool)] on a proxy
    that is not the primary ([smap.isPrimary(pkr.p.si)] is false; the
    primary's sweep [updateSmap] is a different path). *)
Definition proxyDoKeepaliveNonPrimary (k : keepalive)
           (smapPrimary : option string) (isTimeToPing : bool)
           (send0 : Z -> sendResult) (evs : list event) : option kaResult :=
  match smapPrimary with
  | None => Some {| ka_stopped := false; ka_primaryFail := 0; ka_state := k;
                    ka_attempts := 0; ka_err := None |}
  | Some primaryID =>
      if negb isTimeToPing then
        Some {| ka_stopped := false; ka_primaryFail := 0; ka_state := k;
                ka_attempts := 0; ka_err := None |}
      else
        match register k send0 evs primaryID with
        | None => None
        | Some (st, stopped) =>
            Some {| ka_stopped := stopped;
                    ka_primaryFail := if stopped then 1%nat else 0%nat;
                    ka_state := kl st; ka_attempts := i st;
                    ka_err := cur_err st |}
        end
  end.

End Register.

Arguments status {error} _.
Arguments err {error} _.
Arguments elapsed {error} _.
Arguments mkSendResult {error} _ _ _.
Arguments Tick {error} _ _.
Arguments Control {error} _.
Arguments kl {error} _.
Arguments cur_timeout {error} _.
Arguments i {error} _.
Arguments cur_status {error} _.
Arguments cur_err {error} _.
Arguments mkLoopState {error} _ _ _ _ _.
Arguments ka_stopped {error} _.
Arguments ka_primaryFail {error} _.
Arguments ka_state {error} _.
Arguments ka_attempts {error} _.
Arguments ka_err {error} _.

(** *** [AvgTracker] *)

(** [time.Millisecond], in nanoseconds. *)
Definition Millisecond : Z := 1000000.

Record avgTrackerRec := mkAvgTrackerRec {
  count : Z;
  last : Z;
  totalMS : Z   (* in ms *)
}.

Record AvgTracker := mkAvgTracker {
  rec : gmap string avgTrackerRec;
  factor : Z   (* uint8 *)
}.

(** [func (rec *avgTrackerRec) avg() int64]; an integer division by zero
    panics in Go: [None]. *)
Definition avg (r : avgTrackerRec) : option Z :=
  if count r =? 0 then None else Some (I64.quot (totalMS r) (count r)).

Definition newAvgTracker (factor : Z) : AvgTracker :=
  {| rec := ∅; factor := factor |}.

(** [func (a *AvgTracker) HeardFrom(id string, reset bool)]; [now] is the
    reading of [mono.NanoTime()]. *)
Definition HeardFrom (now : Z) (a : AvgTracker) (id : string) (reset : bool)
  : AvgTracker :=
  match rec a !! id, reset with
  | Some r, false =>
      let t := now in
      let delta := I64.sub t (last r) in
      let r' := {| count := I64.add (count r) 1;
                   last := t;
                   totalMS := I64.add (totalMS r) (I64.quot delta Millisecond) |} in
      {| rec := <[id := r']> (rec a); factor := factor a |}
  | _, _ =>
      (* reset || !ok *)
      {| rec := <[id := {| count := 0; last := now; totalMS := 0 |}]> (rec a);
         factor := factor a |}
  end.

(** [func (a *AvgTracker) TimedOut(id string) bool]; [None] when the call
    panics. *)
Definition TimedOut (now : Z) (a : AvgTracker) (id : string) : option bool :=
  match rec a !! id with
  | None => Some true
  | Some r =>
      if count r =? 0 then Some false
      else
        match avg r with
        | None => None
        | Some av =>
            Some (I64.quot (I64.sub now (last r)) Millisecond
                  >? I64.mul (factor a) av)
        end
  end.

(** A call of [HeardFrom] as data, and a run of such calls. *)
Record heard := mkHeard { h_now : Z; h_id : string; h_reset : bool }.

Definition heardAll (a : AvgTracker) (hs : list heard) : AvgTracker :=
  fold_left (fun a h => HeardFrom (h_now h) a (h_id h) (h_reset h)) hs a.

(** *** Runs of the timeout tracker *)

(** The assignment [k.maxKeepalive = int64(maxKeepalive)] at the head of
    [func (k *keepalive) configUpdate], which [Run] calls after every
    [doKeepalive]: the cached value is replaced, the tracker of timeouts
    is kept as it is. *)
Definition setMaxKeepalive (k : keepalive) (maxKeepalive : Z) : keepalive :=
  {| maxKeepalive := maxKeepalive; tt := tt k |}.

(** What happens to the tracker, as data: the two operations on it, and
    the update of the cached [maxKeepalive] between them. *)
Inductive ttOp :=
| OpStats (sid : string)              (* timeoutStatsForDaemon(sid) *)
| OpUpdate (sid : string) (d : Z)     (* updateTimeoutForDaemon(sid, d) *)
| OpConfig (maxKeepalive : Z).        (* configUpdate(maxKeepalive, cfg) *)

(** The value an operation returns: a timeout for the two calls of the
    tracker (the stats are read for their [timeout] field), nothing for
    [configUpdate]. *)
Definition ttStep (k : keepalive) (op : ttOp) : keepalive * option Z :=
  match op with
  | OpStats sid =>
      let '(k', ts) := timeoutStatsForDaemon k sid in (k', Some (timeout ts))
  | OpUpdate sid d =>
      let '(k', r) := updateTimeoutForDaemon k sid d in (k', Some r)
  | OpConfig m => (setMaxKeepalive k m, None)
  end.

(** A run of operations: the final tracker and the timeouts returned, in
    order. *)
Fixpoint ttRun (k : keepalive) (ops : list ttOp) : keepalive * list Z :=
  match ops with
  | [] => (k, [])
  | op :: ops' =>
      let '(k1, r) := ttStep k op in
      let '(k2, rs) := ttRun k1 ops' in
      (k2, match r with Some r => r :: rs | None => rs end)
  end.

(** The values of [maxKeepalive] that a run configures, in order. *)
Fixpoint configured (ops : list ttOp) : list Z :=
  match ops with
  | [] => []
  | OpConfig m :: ops' => m :: configured ops'
  | _ :: ops' => configured ops'
  end.

(** *** The recursion as the specification words it *)

(** Division by a positive [d] rounded to the nearest integer (halves
    upward). *)
Definition round_div (n d : Z) : Z := (2 * n + d) / (2 * d).

Definition clamp (x lo hi : Z) : Z := Z.max lo (Z.min hi x).

(** "rttvar ← (1000−β)·rttvar + β·|srtt−δ| then divide by 1000 with
    rounding; srtt ← (1000−α)·srtt + α·δ then divide by 1000 with rounding;
    timeout ← clamp(srtt + K·rttvar, maxKeepalive/2, maxKeepalive)", over
    the integers. *)
Definition spec_update (maxKA : Z) (ts : timeoutStats) (delta : Z) : timeoutStats :=
  let rttvar' := round_div ((1000 - 250) * rttvar ts + 250 * Z.abs (srtt ts - delta)) 1000 in
  let srtt' := round_div ((1000 - 125) * srtt ts + 125 * delta) 1000 in
  {| srtt := srtt';
     rttvar := rttvar';
     timeout := clamp (srtt' + 4 * rttvar') (maxKA / 2) maxKA |}.

End Keepalive.

(** ** Package [ais]: the proxy's cluster handlers *)

Module ais.

Import cluster.

(** [ais.smapX] wraps [cluster.Smap]; the wrapper's extra fields only cache
    its serialisation. *)
Abbreviation smapX := Smap (only parsing).

(** Modelled from the spec: "RMD. Attributes: version (monotonic), optional
    list of target_ids added in this step". *)
Record rebMD := mkRebMD {
  rmd_Version : Z;
  TargetIDs : list string
}.

(** Modelled from the spec: [rebMD.inc()], "each increment denotes a logical
    rebalance epoch". *)
Definition rmd_inc (r : rebMD) : rebMD :=
  {| rmd_Version := I64.add (rmd_Version r) 1; TargetIDs := TargetIDs r |}.

(** The three operations of [POST /v1/cluster/...]: [cmn.AdminJoin],
    [cmn.SelfJoin], [cmn.Keepalive]. *)
Definition AdminJoin : string := "admin-join".
Definition SelfJoin : string := "self-join".
Definition Keepalive : string := "keepalive".

(** [type cluMeta struct]: the body of a join or keepalive request, with the
    fields the handler reads ([SI], [Smap], [BMD], [RebInterrupted]). *)
Record cluMeta := mkCluMeta {
  SI : Snode;
  reg_Smap : option smapX;
  reg_BMD : string;
  RebInterrupted : bool
}.

(** The revisions a metasync batch may carry. *)
Inductive revs :=
| RevConfig
| RevSmap (s : smapX)
| RevBMD
| RevEtlMD
| RevRMD (r : rebMD)
| RevTokens.

(** Messages written to the log, by the statement that writes them. *)
Inductive logmsg :=
| WarnSelfJoinDuplicateID (id : string)     (* "self-joining %s with duplicate node ID %q" *)
| WarnAddingBack (id : string)              (* "register/keepalive %s: adding back to the cluster map" *)
| ErrFailedDaemonInfo (id : string)         (* "failed to obtain daemon info" *)
| ErrKeepaliveDuplicateID (id : string)     (* "is trying to register/keepalive with duplicate ID" *)
| WarnRenewingInfoChanged (id : string)     (* "renewing registration %s (info changed!)" *)
| InfoAlreadyRegistered (id : string)       (* "%s is already registered" *)
| WarnRenewing (id : string)                (* "renewing %s registration %+v => %+v" *)
| ErrRebInterrupted (id : string)           (* "target %s reports interrupted rebalance" *)
| ErrNonElectableParse
| InfoJoin (op id : string)                 (* "%s: %s(%q) %s (%s)..." *)
| ErrFatal
| ErrRmdModify
| ErrConfig
| WarnSetPrimarySelf (id : string)          (* "Request to set primary to %s(self) - nothing to do" *)
| ErrCommitFailure (id : string).           (* "Commit phase failure: %s returned err ..." *)

(** Everything a handler does to the world outside of the proxy's own
    fields, in program order. *)
Inductive effect :=
| Log (m : logmsg)
| HeardFrom (sid : string) (reset : bool)          (* p.keepalive.heardFrom *)
| MetasyncNotify (clone : smapX)                   (* p.metasyncer.notify *)
| MetasyncSync (pairs : list revs)                 (* p.metasyncer.sync *)
| NotifsAdd (rebID : Z)                            (* p.notifs.add(nl) *)
| SyncNewICOwners
| Bcast (prepare : bool) (proxyid : string)        (* p.bcastGroup, set-primary *)
| StoreInPrimaryTransition (b : bool)              (* p.inPrimaryTransition.Store *)
| BecomeNonPrimary                                 (* p.metasyncer.becomeNonPrimary *)
| Exit (proxyid : string).                         (* cos.ExitLogf *)

(** Errors written to the HTTP response. *)
Inductive herr :=
| EBadURL
| EBadJSON
| ENodeInfo                 (* "failed to obtain node info" *)
| EInvalidNode              (* nsi.Validate *)
| EBmdUUID                  (* bmd.validateUUID *)
| EHostname                 (* validateHostname *)
| EHandshake                (* adminJoinHandshake *)
| EDuplicateNodeID (id : string)   (* "duplicate node ID %q (%s, %s)" *)
| ENotPrimary
| ECie                      (* smap.validateUUID: cluster integrity *)
| EDuplicateNet             (* smap.IsDuplicate *)
| ECluMeta
| EProxyNotPresent (id : string)
| EUnderMaintenance (id : string)
| EPrimaryNotReady
| EPrepare (node proxyid : string).  (* "node %s failed to set primary %s in the prepare phase" *)

(** What the handler wrote to the [http.ResponseWriter]. *)
Inductive response :=
| RespOK                                  (* nothing written: 200, empty body *)
| RespErr (e : herr)
| RespForwarded                           (* forwardCP passed the request on *)
| RespJoinResult (daemonID : string) (rebID : option Z)
| RespCluMeta                             (* cluster-meta that does not include Smap *)
| RespExited.                             (* cos.ExitLogf: the process is gone, no answer *)

(** The fields of [proxyrunner] that the cluster handlers read and write. *)
Record proxyrunner := mkProxy {
  si : Snode;
  smap : smapX;                    (* p.owner.smap.get() *)
  rmd : rebMD;                     (* p.owner.rmd.get() *)
  rmd_startup : bool;              (* p.owner.rmd.startup *)
  rmd_rebalance : bool;            (* p.owner.rmd.rebalance *)
  inPrimaryTransition : bool;
  clusterStarted : bool;           (* p.ClusterStarted() *)
  nodeStarted : bool;              (* p.NodeStarted() *)
  reg_pool : list cluMeta;
  rebalanceEnabled : bool;         (* cmn.GCO.Get().Rebalance.Enabled *)
  trace : list effect
}.

Definition emit (p : proxyrunner) (e : effect) : proxyrunner :=
  mkProxy (si p) (smap p) (rmd p) (rmd_startup p) (rmd_rebalance p)
          (inPrimaryTransition p) (clusterStarted p) (nodeStarted p)
          (reg_pool p) (rebalanceEnabled p) (trace p ++ [e]).

Definition put_smap (p : proxyrunner) (s : smapX) : proxyrunner :=
  mkProxy (si p) s (rmd p) (rmd_startup p) (rmd_rebalance p)
          (inPrimaryTransition p) (clusterStarted p) (nodeStarted p)
          (reg_pool p) (rebalanceEnabled p) (trace p).

Definition put_rmd (p : proxyrunner) (r : rebMD) : proxyrunner :=
  mkProxy (si p) (smap p) r (rmd_startup p) (rmd_rebalance p)
          (inPrimaryTransition p) (clusterStarted p) (nodeStarted p)
          (reg_pool p) (rebalanceEnabled p) (trace p).

Definition set_rmd_rebalance (p : proxyrunner) (b : bool) : proxyrunner :=
  mkProxy (si p) (smap p) (rmd p) (rmd_startup p) b
          (inPrimaryTransition p) (clusterStarted p) (nodeStarted p)
          (reg_pool p) (rebalanceEnabled p) (trace p).

Definition set_inPrimaryTransition (p : proxyrunner) (b : bool) : proxyrunner :=
  mkProxy (si p) (smap p) (rmd p) (rmd_startup p) (rmd_rebalance p)
          b (clusterStarted p) (nodeStarted p)
          (reg_pool p) (rebalanceEnabled p) (trace p).

Definition set_reg_pool (p : proxyrunner) (l : list cluMeta) : proxyrunner :=
  mkProxy (si p) (smap p) (rmd p) (rmd_startup p) (rmd_rebalance p)
          (inPrimaryTransition p) (clusterStarted p) (nodeStarted p)
          l (rebalanceEnabled p) (trace p).

(** [type smapModifier struct]: the context of one Smap modification. *)
Record smapModifier := mkSmapModifier {
  ctx_smap : smapX;            (* smap: the map before the modification *)
  ctx_rmd : option rebMD;      (* rmd *)
  ctx_nsi : option Snode;      (* nsi *)
  ctx_flags : Z;               (* flags *)
  ctx_exists : bool;           (* exists *)
  _mustReb : bool
}.

Definition set_mustReb (ctx : smapModifier) (b : bool) : smapModifier :=
  mkSmapModifier (ctx_smap ctx) (ctx_rmd ctx) (ctx_nsi ctx) (ctx_flags ctx)
                 (ctx_exists ctx) b.
Definition set_ctx_rmd (ctx : smapModifier) (r : option rebMD) : smapModifier :=
  mkSmapModifier (ctx_smap ctx) r (ctx_nsi ctx) (ctx_flags ctx)
                 (ctx_exists ctx) (_mustReb ctx).
Definition set_ctx_exists (ctx : smapModifier) (b : bool) : smapModifier :=
  mkSmapModifier (ctx_smap ctx) (ctx_rmd ctx) (ctx_nsi ctx) (ctx_flags ctx)
                 b (_mustReb ctx).
(** The nodes a [for _, si := range m.Tmap] visits. *)
Definition rangeTmap (m : smapX) : list Snode := map snd (map_to_list (Tmap m)).

(** [func mustRunRebalance(ctx *smapModifier, cur *smapX) bool];
    [rebEnabled] is [cmn.GCO.Get().Rebalance.Enabled].  The two loops leave
    through [goto ret] at the first node found, so each is an existence
    test over the nodes of the map. *)
Definition mustRunRebalance (rebEnabled : bool) (ctx : smapModifier) (cur : smapX)
  : smapModifier * bool :=
  let prev := ctx_smap ctx in
  if _mustReb ctx then (ctx, true)
  else if negb rebEnabled then (ctx, false)
  else
    let added :=
      existsb (fun si =>
                 if IsProxy si || IsAnySet si NodeFlagsMaintDecomm then false
                 else bool_decide (GetNodeNotMaint prev (ID si) = None))
              (rangeTmap cur) in
    let removed :=
      existsb (fun si =>
                 if IsProxy si || IsAnySet si NodeFlagsMaintDecomm then false
                 else bool_decide (GetNodeNotMaint cur (ID si) = None))
              (rangeTmap prev) in
    let mustReb1 := if added then true else removed in
    let mustReb2 :=
      if mustReb1
      then negb (CountActiveTargets prev =? 0) && negb (CountActiveTargets cur =? 0)
      else mustReb1 in
    (set_mustReb ctx mustReb2, mustReb2).

(** *** The predicate as the specification words it *)

(** "An active target (flags ∩ {Maintenance, Decommission} = ∅)". *)
Definition active_target_in (m : smapX) (t : Snode) : Prop :=
  (exists key, Tmap m !! key = Some t) /\ IsProxy t = false
  /\ IsAnySet t NodeFlagsMaintDecomm = false.

(** "absent-or-maintenance": no node of that id in the map, or the node of
    that id is in maintenance. *)
Definition absent_or_maintenance (m : smapX) (id : string) : Prop :=
  GetNode m id = None \/ exists n, GetNode m id = Some n /\ InMaintenance n = true.

Definition has_active_target (m : smapX) : Prop :=
  exists id t, Tmap m !! id = Some t /\ InMaintenance t = false.

(** "rebalance is required iff (added/activated) or (removed/deactivated),
    and both prev and cur have ≥ 1 active targets". *)
Definition spec_mustRunRebalance (prev cur : smapX) : Prop :=
  ((exists t, active_target_in cur t /\ absent_or_maintenance prev (ID t))
   \/ (exists t, active_target_in prev t /\ absent_or_maintenance cur (ID t)))
  /\ has_active_target prev /\ has_active_target cur.


(** *** Joins and keepalives: [POST /v1/cluster] *)

(** Modelled from the spec: [smapX.isPrimary] ("primary-id ... must
    reference an entry in the proxy map"): the map names a primary and it
    is this node. *)
Definition isPrimary (m : smapX) (self : Snode) : bool :=
  match Primary m with
  | Some pr => String.eqb (ID pr) (ID self)
  | None => false
  end.

(** Modelled from the spec: [smapX.putNode(desc, flags)] on the clone
    replaces the descriptor registered under the node's id by [desc]
    carrying [flags], and reports whether the id existed; every removal
    and every addition is one version step. *)
Definition putNode (m : smapX) (nsi : Snode) (flags : Z) : smapX * bool :=
  let id := ID nsi in
  let nsi' := mkSnode (DaemonID nsi) (DaemonType nsi) (PublicNet nsi)
                      (IntraControlNet nsi) (IntraDataNet nsi) flags in
  if IsProxy nsi then
    match GetProxy m id with
    | Some _ =>
        (mkSmap (Tmap m) (<[id := nsi']> (delete id (Pmap m))) (Primary m)
                (I64.add (I64.add (Version m) 1) 1) (UUID m), true)
    | None =>
        (mkSmap (Tmap m) (<[id := nsi']> (Pmap m)) (Primary m)
                (I64.add (Version m) 1) (UUID m), false)
    end
  else
    match GetTarget m id with
    | Some _ =>
        (mkSmap (<[id := nsi']> (delete id (Tmap m))) (Pmap m) (Primary m)
                (I64.add (I64.add (Version m) 1) 1) (UUID m), true)
    | None =>
        (mkSmap (<[id := nsi']> (Tmap m)) (Pmap m) (Primary m)
                (I64.add (Version m) 1) (UUID m), false)
    end.

(** Modelled from the spec: [Smap.PresentInMaint]: the node is in the map
    and in maintenance. *)
Definition PresentInMaint (m : smapX) (si : Snode) : bool :=
  match GetNode m (ID si) with
  | Some node => InMaintenance node
  | None => false
  end.

(** A request to [POST /v1/cluster/<op>]: the items of its path after
    [/v1/cluster] and its body as read by [cmn.ReadJSON] ([None]: the body
    does not unmarshal). *)
Record joinRequest := mkJoinRequest {
  apiItems : list string;
  body : option cluMeta
}.

(** The answers of the proxy's collaborators while it serves one request:
    calls to other nodes and validations that live outside of the handler. *)
Record joinEnv := mkJoinEnv {
  env_forwardCP : bool;             (* p.forwardCP(...) *)
  env_daemonInfo : option string;   (* p.getDaemonInfo(nsi): its DaemonID, or an error *)
  env_nodeValid : bool;             (* nsi.Validate() == nil *)
  env_bmdUUID : bool;               (* bmd.validateUUID(...) == nil *)
  env_nonElectable : option bool;   (* cos.ParseBool(query[NonElectable]), None: error *)
  env_hostname : bool;              (* validateHostname(...) == nil *)
  env_handshake : bool;             (* adminJoinHandshake(...) err == nil *)
  env_duplicate : option bool;      (* p.detectDaemonDuplicate(osi, nsi), None: error *)
  env_cie : bool;                   (* smap.validateUUID(...) == nil *)
  env_netDuplicate : bool;          (* smap.IsDuplicate(nsi) err != nil *)
  env_cluMeta : bool;               (* p.cluMeta(...) err == nil *)
  env_smapValid : bool;             (* smap.validate() == nil *)
  env_rmdModify : bool;             (* p.owner.rmd.modify err == nil *)
  env_config : option bool;         (* p.owner.config.get(): None: err, Some b: config != nil *)
  env_etl : bool;                   (* etlMD != nil && etlMD.version() > 0 *)
  env_tokens : bool                 (* len(tokens.Tokens) > 0 *)
}.

Section Handlers.

(** [smapX.staffIC] re-selects the members of the information council
    among the proxies of the clone; a parameter of the model. *)
Variable staffIC : smapX -> smapX.

(** [func (p *proxyrunner) addOrUpdateNode(nsi, osi *cluster.Snode, keepalive bool) bool] *)
Definition addOrUpdateNode (p : proxyrunner) (env : joinEnv)
           (nsi : Snode) (osi : option Snode) (keepalive : bool)
  : proxyrunner * bool :=
  if keepalive then
    match osi with
    | None => (emit p (Log (WarnAddingBack (ID nsi))), true)
    | Some o =>
        if negb (Equals o nsi) then
          match env_duplicate env with
          | None => (emit p (Log (ErrFailedDaemonInfo (ID nsi))), false)
          | Some true => (emit p (Log (ErrKeepaliveDuplicateID (ID nsi))), false)
          | Some false => (emit p (Log (WarnRenewingInfoChanged (ID nsi))), true)
          end
        else (emit p (HeardFrom (ID nsi) false), false)
    end
  else
    match osi with
    | Some o =>
        if negb (nodeStarted p) then (p, true)
        else if Equals o nsi
             then (emit p (Log (InfoAlreadyRegistered (ID nsi))), false)
             else (emit p (Log (WarnRenewing (ID nsi))), true)
    | None => (p, true)
    end.

(** [func (p *proxyrunner) handleJoinKalive(nsi, regSmap, apiOp, flags) (upd bool, err error)] *)
Definition handleJoinKalive (p : proxyrunner) (env : joinEnv)
           (nsi : Snode) (apiOp : string) (flags : Z)
  : proxyrunner * bool * option herr :=
  let smap0 := smap p in
  let keepalive := String.eqb apiOp Keepalive in
  if negb (isPrimary smap0 (si p)) then (p, false, Some ENotPrimary)
  else
    let '(p1, go) :=
      if IsProxy nsi then
        let osi := GetProxy smap0 (ID nsi) in
        addOrUpdateNode p env nsi osi keepalive
      else
        let osi := GetTarget smap0 (ID nsi) in
        if keepalive then addOrUpdateNode p env nsi osi keepalive
        else (p, true) in
    if negb go then (p1, false, None)
    else if negb (env_cie env) then (p1, false, Some ECie)
    else if negb (clusterStarted p1) then
      let '(clone, _) := putNode smap0 nsi flags in
      (put_smap p1 clone, false, None)
    else if env_netDuplicate env then (p1, false, Some EDuplicateNet)
    else (p1, true, None).

(** [func (p *proxyrunner) canRunRebalance() (err error)]; [true]: no error. *)
Definition canRunRebalance (p : proxyrunner) (env : joinEnv) : bool :=
  if negb (env_smapValid env) then false
  else if negb (isPrimary (smap p) (si p)) then false
  else if negb (clusterStarted p) || rmd_startup p then false
  else rebalanceEnabled p.

(** [func (p *proxyrunner) _updPre(ctx *smapModifier, clone *smapX) error] *)
Definition _updPre (p : proxyrunner) (nsi : Snode)
           (ctx : smapModifier) (clone : smapX)
  : proxyrunner * smapModifier * smapX * option herr :=
  if negb (isPrimary clone (si p)) then (p, ctx, clone, Some ENotPrimary)
  else
    let '(clone1, exists_) := putNode clone nsi (ctx_flags ctx) in
    let ctx1 := set_ctx_exists ctx exists_ in
    let p1 := if IsTarget nsi then emit p (MetasyncNotify clone1) else p in
    (p1, ctx1, staffIC clone1, None).

(** [func (p *proxyrunner) _updPost(ctx *smapModifier, clone *smapX)] *)
Definition _updPost (p : proxyrunner) (env : joinEnv) (nsi : Snode)
           (ctx : smapModifier) (clone : smapX)
  : proxyrunner * smapModifier :=
  if negb (IsTarget nsi) then (p, set_ctx_rmd ctx (Some (rmd p)))
  else if negb (canRunRebalance p env) then (p, ctx)
  else
    let '(ctx1, must) :=
      if ctx_exists ctx then (ctx, true)
      else mustRunRebalance (rebalanceEnabled p) ctx clone in
    if must then
      if env_rmdModify env then
        let rmdClone := rmd_inc (mkRebMD (rmd_Version (rmd p)) [ID nsi]) in
        (put_rmd p rmdClone, set_ctx_rmd ctx1 (Some rmdClone))
      else (emit p (Log ErrRmdModify), ctx1)
    else (p, ctx1).

(** [func (p *proxyrunner) _updFinal(ctx *smapModifier, clone *smapX)] *)
Definition _updFinal (p : proxyrunner) (env : joinEnv) (nsi : Snode)
           (ctx : smapModifier) (clone : smapX)
  : proxyrunner * smapModifier :=
  let '(p1, pairs1) :=
    match env_config env with
    | None => (emit p (Log ErrConfig), [])
    | Some true => (p, [RevConfig])
    | Some false => (p, [])
    end in
  let pairs2 := pairs1 ++ [RevSmap clone; RevBMD] in
  let pairs3 := if env_etl env then pairs2 ++ [RevEtlMD] else pairs2 in
  let '(p2, ctx2, pairs4) :=
    match ctx_rmd ctx with
    | Some r =>
        if IsTarget nsi then
          let '(ctx', must) := mustRunRebalance (rebalanceEnabled p1) ctx clone in
          if must then
            (emit p1 (NotifsAdd (rmd_Version r)), ctx', pairs3 ++ [RevRMD r])
          else if IsProxy nsi then (p1, ctx', pairs3 ++ [RevRMD r])
          else (p1, ctx', pairs3)
        else if IsProxy nsi then (p1, ctx, pairs3 ++ [RevRMD r])
        else (p1, ctx, pairs3)
    | None => (p1, ctx, pairs3)
    end in
  let pairs5 := if env_tokens env then pairs4 ++ [RevTokens] else pairs4 in
  (emit (emit p2 (MetasyncSync pairs5)) SyncNewICOwners, ctx2).

(** Modelled from the spec: [smapOwner.modify(ctx)] with the hooks of
    [updateAndDistribute]: "pre(ctx, clone) — validate & mutate the
    clone; may return an error, in which case modification aborts and the
    current snapshot is unchanged; post — runs after pre succeeded; final
    — runs after the clone has been published".

    [func (p *proxyrunner) updateAndDistribute(nsi, msg, flags) (xactID string, err error)];
    the rebalance id is kept as the RMD version it prints. *)
Definition updateAndDistribute (p : proxyrunner) (env : joinEnv)
           (nsi : Snode) (flags : Z)
  : proxyrunner * option Z * option herr :=
  let ctx0 := mkSmapModifier (smap p) None (Some nsi) flags false false in
  let clone0 := smap p in
  match _updPre p nsi ctx0 clone0 with
  | (p1, ctx1, _, Some e) => (emit p1 (Log ErrFatal), None, Some e)
  | (p1, ctx1, clone1, None) =>
      let '(p2, ctx2) := _updPost p1 env nsi ctx1 clone1 in
      let p3 := put_smap p2 clone1 in
      let '(p4, ctx3) := _updFinal p3 env nsi ctx2 clone1 in
      (p4, option_map rmd_Version (ctx_rmd ctx3), None)
  end.

(** [httpclupost], "unmarshal and validate": the [switch apiOp] that
    reads the body of the request. *)
Definition unmarshalJoin (p : proxyrunner) (env : joinEnv) (r : joinRequest)
           (apiOp : string)
  : proxyrunner * (response + (Snode * cluMeta)) :=
  if String.eqb apiOp AdminJoin then
    match body r with
    | None => (p, inl (RespErr EBadJSON))
    | Some regReq =>
        match env_daemonInfo env with
        | None => (p, inl (RespErr ENodeInfo))
        | Some did =>
            let nsi := SI regReq in
            (* only regReq.SI is read from the body *)
            (p, inr (mkSnode did (DaemonType nsi) (PublicNet nsi)
                             (IntraControlNet nsi) (IntraDataNet nsi)
                             (Flags nsi),
                     mkCluMeta nsi None "" false))
        end
    end
  else if String.eqb apiOp SelfJoin then
    match body r with
    | None => (p, inl (RespErr EBadJSON))
    | Some regReq =>
        let p' := if negb (clusterStarted p)
                  then set_reg_pool p (reg_pool p ++ [regReq]) else p in
        (p', inr (SI regReq, regReq))
    end
  else if String.eqb apiOp Keepalive then
    match body r with
    | None => (p, inl (RespErr EBadJSON))
    | Some regReq => (p, inr (SI regReq, regReq))
    end
  else (p, inl (RespErr EBadURL)).

(** [httpclupost], the parsing of the non-electable query parameter of a
    joining proxy. *)
Definition parseNonElectable (p : proxyrunner) (env : joinEnv) (nsi : Snode)
  : proxyrunner * bool :=
  if IsProxy nsi then
    match env_nonElectable env with
    | Some b => (p, b)
    | None => (emit p (Log ErrNonElectableParse), false)
    end
  else (p, false).

(** [httpclupost], "set node flags": the joining node inherits the flags
    of the node registered under its id. *)
Definition setNodeFlags (smap0 : smapX) (nsi : Snode) (nonElectable : bool)
  : Snode :=
  let flags1 := match GetNode smap0 (ID nsi) with
                | Some osi => Flags osi
                | None => Flags nsi
                end in
  let flags2 := if nonElectable
                then BitFlags_Set flags1 SnodeNonElectable else flags1 in
  mkSnode (DaemonID nsi) (DaemonType nsi) (PublicNet nsi)
          (IntraControlNet nsi) (IntraDataNet nsi) flags2.

(** [httpclupost], the handshake of an administrative join and the
    "check for dup node ID" of a self-join; [Some resp]: the handler
    wrote [resp] and returned. *)
Definition checkJoin (p : proxyrunner) (env : joinEnv) (smap0 : smapX)
           (apiOp : string) (nsi : Snode)
  : proxyrunner * option response :=
  if String.eqb apiOp AdminJoin then
    if negb (env_handshake env) then (p, Some (RespErr EHandshake))
    else (p, None)
  else if String.eqb apiOp SelfJoin then
    match GetNode smap0 (ID nsi) with
    | Some osi =>
        if negb (Equals osi nsi) then
          match env_duplicate env with
          | None => (p, Some (RespErr ENodeInfo))
          | Some true => (p, Some (RespErr (EDuplicateNodeID (ID nsi))))
          | Some false =>
              (emit p (Log (WarnSelfJoinDuplicateID (ID nsi))), None)
          end
        else (p, None)
    | None => (p, None)
    end
  else (p, None).

(** [httpclupost] from [p.owner.smap.Lock()] to its end.  The goroutine
    started by the last statement is run to completion before the
    handler's result is observed. *)
Definition joinLocked (p : proxyrunner) (env : joinEnv) (apiOp : string)
           (nsi : Snode) (regReq : cluMeta)
  : proxyrunner * response :=
  let '(p3, update, err) := handleJoinKalive p env nsi apiOp (Flags nsi) in
  let p4 :=
    if negb (IsProxy nsi) && nodeStarted p3 then
      (* rebalance.CAS(false, regReq.RebInterrupted) && regReq.RebInterrupted *)
      if negb (rmd_rebalance p3) then
        let p' := set_rmd_rebalance p3 (RebInterrupted regReq) in
        if RebInterrupted regReq
        then emit p' (Log (ErrRebInterrupted (ID nsi))) else p'
      else p3
    else p3 in
  match err with
  | Some e => (p4, RespErr e)
  | None =>
      if negb update then (p4, RespOK)
      else
        let p5 := emit p4 (Log (InfoJoin apiOp (ID nsi))) in
        if String.eqb apiOp AdminJoin then
          match updateAndDistribute p5 env nsi (Flags nsi) with
          | (p6, _, Some e) => (p6, RespErr e)
          | (p6, rebID, None) => (p6, RespJoinResult (ID nsi) rebID)
          end
        else if String.eqb apiOp SelfJoin then
          if negb (env_cluMeta env) then (p5, RespErr ECluMeta)
          else
            let '(p6, _, _) := updateAndDistribute p5 env nsi (Flags nsi) in
            (p6, RespCluMeta)
        else
          let '(p6, _, _) := updateAndDistribute p5 env nsi (Flags nsi) in
          (p6, RespOK)
  end.

(** [func (p *proxyrunner) httpclupost(w http.ResponseWriter, r *http.Request)] *)
Definition httpclupost (p : proxyrunner) (env : joinEnv) (r : joinRequest)
  : proxyrunner * response :=
  match apiItems r with
  | [] => (p, RespErr EBadURL)                 (* checkRESTItems *)
  | apiOp :: _ =>
    (* Ignore keepalive beat if the primary is in transition. *)
    if inPrimaryTransition p && String.eqb apiOp Keepalive then (p, RespOK)
    else if env_forwardCP env then (p, RespForwarded)
    else
      match unmarshalJoin p env r apiOp with
      | (p0, inl resp) => (p0, resp)
      | (p0, inr (nsi0, regReq)) =>
        if negb (env_nodeValid env) then (p0, RespErr EInvalidNode)
        else if nodeStarted p0 && negb (env_bmdUUID env) then (p0, RespErr EBmdUUID)
        else
          let '(p1, nonElectable) := parseNonElectable p0 env nsi0 in
          if negb (env_hostname env) then (p1, RespErr EHostname)
          else
            let smap0 := smap p1 in
            let nsi := setNodeFlags smap0 nsi0 nonElectable in
            match checkJoin p1 env smap0 apiOp nsi with
            | (p2, Some resp) => (p2, resp)
            | (p2, None) => joinLocked p2 env apiOp nsi regReq
            end
      end
  end.

End Handlers.


(** *** Administrative change of the primary: [PUT /v1/cluster/proxy/<id>] *)

(** One entry of the [sliceResults] of a broadcast: the node called and
    whether its [res.err] is non-nil. *)
Record callResult := mkCallResult {
  res_si : Snode;
  res_failed : bool
}.

Record setPrimaryEnv := mkSetPrimaryEnv {
  sp_forwardCP : bool;                 (* p.forwardCP(...) *)
  sp_cluMeta : bool;                   (* p.cluMeta(...) err == nil *)
  sp_prepare : list callResult;        (* results of the prepare broadcast *)
  sp_commit : list callResult          (* results of the commit broadcast *)
}.

(** The loop over the results of the prepare phase: the first failed
    result, if any. *)
Definition firstFailed (results : list callResult) : option callResult :=
  List.find res_failed results.

(** The loop over the results of the commit phase; [true]: the process
    exited. *)
Fixpoint commitLoop (p : proxyrunner) (proxyid : string)
         (results : list callResult) : proxyrunner * bool :=
  match results with
  | [] => (p, false)
  | res :: rest =>
      if negb (res_failed res) then commitLoop p proxyid rest
      else if String.eqb (ID (res_si res)) proxyid
           then (emit p (Exit proxyid), true)
           else commitLoop (emit p (Log (ErrCommitFailure (ID (res_si res)))))
                           proxyid rest
  end.

(** [func (p *proxyrunner) cluSetPrimary(w http.ResponseWriter, r *http.Request)].
    The Smap modification has a [pre] hook only, which cannot fail. *)
Definition cluSetPrimary (p : proxyrunner) (env : setPrimaryEnv)
           (items : list string) : proxyrunner * response :=
  match items with
  | [] => (p, RespErr EBadURL)                   (* checkRESTItems *)
  | proxyid :: _ =>
    if sp_forwardCP env then (p, RespForwarded)
    else
      let smap0 := smap p in
      match GetProxy smap0 proxyid with
      | None => (p, RespErr (EProxyNotPresent proxyid))
      | Some psi =>
        if String.eqb proxyid (ID (si p)) then
          (emit p (Log (WarnSetPrimarySelf proxyid)), RespOK)
        else if PresentInMaint smap0 psi then
          (p, RespErr (EUnderMaintenance proxyid))
        else if negb (clusterStarted p) || rmd_startup p then
          (p, RespErr EPrimaryNotReady)
        else
          (* (I.1) Prepare phase - inform other nodes. *)
          if negb (sp_cluMeta env) then (p, RespErr ECluMeta)
          else
            let p1 := emit p (Bcast true proxyid) in
            match firstFailed (sp_prepare env) with
            | Some res => (p1, RespErr (EPrepare (ID (res_si res)) proxyid))
            | None =>
              (* (I.2) Prepare phase - local changes. *)
              let p2 := emit (set_inPrimaryTransition p1 true)
                             (StoreInPrimaryTransition true) in
              let clone := mkSmap (Tmap smap0) (Pmap smap0) (Some psi)
                                  (Version smap0) (UUID smap0) in
              let p3 := put_smap (emit p2 BecomeNonPrimary) clone in
              (* (II) Commit phase. *)
              let p4 := emit p3 (Bcast false proxyid) in
              let '(p5, exited) := commitLoop p4 proxyid (sp_commit env) in
              if exited then (p5, RespExited)
              else
                (* deferred *)
                (emit (set_inPrimaryTransition p5 false)
                      (StoreInPrimaryTransition false), RespOK)
            end
      end
  end.

End ais.

(** ** Notification listeners on the primary *)

Module notifs.

(** The two kinds of [POST /v1/notifs/{progress|finished}]. *)
Inductive kind := Progress | Finished.

(** A notification: "{uuid, kind, payload, optional error}" together with
    the id of the node that sent it; the payload is a stats blob and says
    whether the action was aborted. *)
Record NotifMsg := mkNotifMsg {
  m_uuid : string;
  m_kind : kind;
  m_sender : string;
  m_stats : Z;
  m_aborted : bool;
  m_err : option string
}.

(** Modelled from the spec: the listener type is declared in package nl and
    its handlers in the proxy's notification code, neither of which is
    among the sources.  "Notification Listener (NL). Attributes: uuid,
    notifier set (snapshot of target ids at creation), per-notifier
    last-seen stats blob, finished set, aborted flag, aggregated error". *)
Record listener := mkListener {
  l_uuid : string;
  l_notifiers : gset string;
  l_stats : gmap string Z;
  l_finished : gset string;
  l_aborted : bool;
  l_err : option string
}.

(** Modelled from the spec: a listener as created for the notifier set of
    an action: nothing finished, not aborted. *)
Definition newListener (uuid : string) (notifiers : gset string) : listener :=
  mkListener uuid notifiers ∅ ∅ false None.

Definition FinCount (l : listener) : nat := size (l_finished l).
Definition Aborted (l : listener) : bool := l_aborted l.

(** Modelled from the spec: "finished = notifiers ⇒ Finished()", and an
    aborted listener is finished. *)
Definition IsFinished (l : listener) : bool :=
  bool_decide (l_finished l = l_notifiers l) || l_aborted l.

(** Modelled from the spec: the registry of the primary: the active
    listeners, the "fin (archived) set", and the completion callbacks it
    has fired so far (by uuid, in order). *)
Record registry := mkRegistry {
  nls : gmap string listener;
  fin : gmap string listener;
  callbacks : list string
}.

Definition emptyRegistry : registry := mkRegistry ∅ ∅ [].

(** Modelled from the spec: [n.add(nl)] registers a listener among the
    active ones; a uuid that is already registered is refused. *)
Definition add (reg : registry) (l : listener) : registry * bool :=
  match nls reg !! l_uuid l, fin reg !! l_uuid l with
  | None, None => (mkRegistry (<[l_uuid l := l]> (nls reg)) (fin reg) (callbacks reg), true)
  | _, _ => (reg, false)
  end.

(** Modelled from the spec: look a uuid up among the active listeners, then
    among the archived ones; the flag tells which. *)
Definition entry (reg : registry) (uuid : string) : option (listener * bool) :=
  match nls reg !! uuid with
  | Some l => Some (l, true)
  | None =>
      match fin reg !! uuid with
      | Some l => Some (l, false)
      | None => None
      end
  end.

(** Store the listener [l] back where it lives. *)
Definition store (reg : registry) (l : listener) (active : bool) : registry :=
  if active
  then mkRegistry (<[l_uuid l := l]> (nls reg)) (fin reg) (callbacks reg)
  else mkRegistry (nls reg) (<[l_uuid l := l]> (fin reg)) (callbacks reg).

(** Modelled from the spec: "fire the completion callback and transition
    the NL to the fin (archived) set"; a listener that is archived already
    is left there. *)
Definition done (reg : registry) (l : listener) : registry :=
  match nls reg !! l_uuid l with
  | Some _ =>
      mkRegistry (delete (l_uuid l) (nls reg)) (<[l_uuid l := l]> (fin reg))
                 (callbacks reg ++ [l_uuid l])
  | None => reg
  end.

(** Modelled from the spec: "If kind = Progress, merge stats into
    per-notifier slot." *)
Definition handleProgress (l : listener) (m : NotifMsg) : listener :=
  mkListener (l_uuid l) (l_notifiers l) (<[m_sender m := m_stats m]> (l_stats l))
             (l_finished l) (l_aborted l)
             (match m_err m with Some e => Some e | None => l_err l end).

(** Modelled from the spec: "If kind = Finished, merge stats, add notifier
    to finished; if payload indicates abort, set aborted on the NL." *)
Definition markFinished (l : listener) (m : NotifMsg) : listener :=
  mkListener (l_uuid l) (l_notifiers l) (<[m_sender m := m_stats m]> (l_stats l))
             ({[m_sender m]} ∪ l_finished l)
             (l_aborted l || m_aborted m)
             (match m_err m with
              | Some e => Some e
              | None => if m_aborted m then Some "aborted" else l_err l
              end).

Definition StatusOK : Z := 200.

(** Modelled from the spec: the handler of a notification.  "If the uuid is
    unknown, respond 200 and drop. ... When finished = notifiers or
    aborted, fire the completion callback and transition the NL to the fin
    set."  A message of a node outside of the notifier set has no slot to
    merge into and is dropped. *)
Definition handler (reg : registry) (m : NotifMsg) : registry * Z :=
  match entry reg (m_uuid m) with
  | None => (reg, StatusOK)
  | Some (l, active) =>
      if bool_decide (m_sender m ∈ l_notifiers l) then
        match m_kind m with
        | Progress => (store reg (handleProgress l m) active, StatusOK)
        | Finished =>
            let l' := markFinished l m in
            let reg' := store reg l' active in
            if IsFinished l' then (done reg' l', StatusOK) else (reg', StatusOK)
        end
      else (reg, StatusOK)
  end.

(** Modelled from the spec: "when a new SMap is received, any NL whose
    notifier set contains a node that is now absent from the SMap is
    aborted (with a synthetic error)"; [present] are the ids of the new map. *)
Definition abortListener (l : listener) : listener :=
  mkListener (l_uuid l) (l_notifiers l) (l_stats l) (l_finished l) true
             (Some "node not in smap").

Definition lostNotifier (present : gset string) (l : listener) : bool :=
  negb (bool_decide (l_notifiers l ⊆ present)).

Definition ListenSmapChanged (reg : registry) (present : gset string) : registry :=
  fold_left
    (fun reg ul =>
       let l := snd ul in
       if lostNotifier present l then done reg (abortListener l) else reg)
    (map_to_list (nls reg)) reg.

(** What happens to a registry, as data. *)
Inductive event :=
| EvAdd (l : listener)
| EvMsg (m : NotifMsg)
| EvSmap (present : gset string).

Definition step (reg : registry) (e : event) : registry :=
  match e with
  | EvAdd l => fst (add reg l)
  | EvMsg m => fst (handler reg m)
  | EvSmap present => ListenSmapChanged reg present
  end.

Definition run (reg : registry) (evs : list event) : registry :=
  fold_left step evs reg.

(** The listener registered under a uuid, active or archived. *)
Definition listenerOf (reg : registry) (uuid : string) : option listener :=
  option_map fst (entry reg uuid).

(** How many times the completion callback of [uuid] has been invoked. *)
Definition callbackCount (reg : registry) (uuid : string) : nat :=
  count_occ String.string_dec (callbacks reg) uuid.

End notifs.

(** ** Methods of [smapX] that the handlers call *)

Module smapx.

Import cluster.

(** Modelled from the spec: [smapX.delProxy] and [smapX.delTarget], which
    are not part of the sources at hand: the entry of the id leaves its
    map, and "every removal and every addition is one version step". *)
Definition delProxy (m : Smap) (pid : string) : Smap :=
  mkSmap (Tmap m) (delete pid (Pmap m)) (Primary m)
         (I64.add (Version m) 1) (UUID m).

Definition delTarget (m : Smap) (sid : string) : Smap :=
  mkSmap (delete sid (Tmap m)) (Pmap m) (Primary m)
         (I64.add (Version m) 1) (UUID m).

(** Modelled from the spec: [smapX.clearNodeFlags] ("stop-maintenance:
    clear flag"), which is not part of the sources at hand: the node
    registered under the id loses the given flags, in the map that holds
    it. *)
Definition clearNodeFlags (m : Smap) (sid : string) (flags : Z) : Smap :=
  match GetNode m sid with
  | None => m
  | Some si =>
      let nsi := mkSnode (DaemonID si) (DaemonType si) (PublicNet si)
                         (IntraControlNet si) (IntraDataNet si)
                         (Z.ldiff (Flags si) flags) in
      if IsProxy si
      then mkSmap (Tmap m) (<[sid := nsi]> (Pmap m)) (Primary m)
                  (Version m) (UUID m)
      else mkSmap (<[sid := nsi]> (Tmap m)) (Pmap m) (Primary m)
                  (Version m) (UUID m)
  end.

End smapx.

(** ** Package [ais], keepalive: the trackers and their configuration *)

Module KeepaliveTracker.

Import Keepalive.

(** [type HBTracker struct]: the time a message was last received from each
    node, and the interval within which one is expected. *)
Record HBTracker := mkHBTracker {
  hb_last : gmap string Z;
  hb_interval : Z
}.

Definition newHBTracker (interval : Z) : HBTracker :=
  {| hb_last := ∅; hb_interval := interval |}.

(** [func (hb *HBTracker) HeardFrom(id string, _ bool)]; [now] is the
    reading of [mono.NanoTime()]. *)
Definition HB_HeardFrom (now : Z) (hb : HBTracker) (id : string) (_ : bool)
  : HBTracker :=
  {| hb_last := <[id := now]> (hb_last hb); hb_interval := hb_interval hb |}.

(** [func (hb *HBTracker) TimedOut(id string) bool] *)
Definition HB_TimedOut (now : Z) (hb : HBTracker) (id : string) : bool :=
  match hb_last hb !! id with
  | None => true
  | Some t => I64.sub now t >? hb_interval hb
  end.

(** [func (hb *HBTracker) changed(_ uint8, interval time.Duration) bool] *)
Definition HB_changed (hb : HBTracker) (_ : Z) (interval : Z) : bool :=
  negb (hb_interval hb =? interval).

(** [func (a *AvgTracker) changed(factor uint8, _ time.Duration) bool] *)
Definition Avg_changed (a : AvgTracker) (factor : Z) (_ : Z) : bool :=
  negb (Keepalive.factor a =? factor).

(** A run of [HeardFrom] calls on a heartbeat tracker. *)
Definition HB_heardAll (hb : HBTracker) (hs : list heard) : HBTracker :=
  fold_left (fun hb h => HB_HeardFrom (h_now h) hb (h_id h) (h_reset h)) hs hb.

(** The interface [KeepaliveTracker] with its two implementations. *)
Inductive tracker :=
| HB (hb : HBTracker)
| Avg (a : AvgTracker).

Definition kt_HeardFrom (now : Z) (kt : tracker) (id : string) (reset : bool)
  : tracker :=
  match kt with
  | HB hb => HB (HB_HeardFrom now hb id reset)
  | Avg a => Avg (Keepalive.HeardFrom now a id reset)
  end.

Definition kt_TimedOut (now : Z) (kt : tracker) (id : string) : option bool :=
  match kt with
  | HB hb => Some (HB_TimedOut now hb id)
  | Avg a => Keepalive.TimedOut now a id
  end.

Definition kt_changed (kt : tracker) (factor interval : Z) : bool :=
  match kt with
  | HB hb => HB_changed hb factor interval
  | Avg a => Avg_changed a factor interval
  end.

(** [cmn.KeepaliveTrackerConf], with the fields the keepaliver reads. *)
Record KeepaliveTrackerConf := mkKeepaliveTrackerConf {
  Name : string;
  Interval : Z;       (* Interval.D(), in ns *)
  Factor : Z          (* uint8 *)
}.

(** Modelled from the spec: the tracker names [cmn.KeepaliveHeartbeatType]
    and [cmn.KeepaliveAverageType] of package cmn, which is not part of
    the sources at hand ("Heartbeat tracker", "Average tracker"). *)
Definition KeepaliveHeartbeatType : string := "heartbeat".
Definition KeepaliveAverageType : string := "average".

(** [func newKeepaliveTracker(c *cmn.KeepaliveTrackerConf) KeepaliveTracker];
    [None] is the nil interface. *)
Definition newKeepaliveTracker (c : KeepaliveTrackerConf) : option tracker :=
  if String.eqb (Name c) KeepaliveHeartbeatType
  then Some (HB (newHBTracker (Interval c)))
  else if String.eqb (Name c) KeepaliveAverageType
       then Some (Avg (newAvgTracker (Factor c)))
       else None.

(** The fields of [type keepalive struct] that [configUpdate] writes, next
    to the timeout tracker. *)
Record keepaliver := mkKeepaliver {
  ka : keepalive;                (* maxKeepalive, tt *)
  kt : option tracker;           (* kt *)
  interval : Z                   (* interval *)
}.

(** [func (k *keepalive) configUpdate(maxKeepalive time.Duration, cfg *cmn.KeepaliveTrackerConf)];
    [None]: the method call on a nil tracker panics. *)
Definition configUpdate (k : keepaliver) (maxKeepalive : Z)
           (cfg : KeepaliveTrackerConf) : option keepaliver :=
  let ka1 := {| Keepalive.maxKeepalive := maxKeepalive; tt := tt (ka k) |} in
  match kt k with
  | None => None
  | Some t =>
      if negb (kt_changed t (Factor cfg) (Interval cfg))
      then Some {| ka := ka1; kt := kt k; interval := interval k |}
      else Some {| ka := ka1; kt := newKeepaliveTracker cfg;
                   interval := Interval cfg |}
  end.

(** [func (k *keepalive) heardFrom(sid string, reset bool)] *)
Definition heardFrom (now : Z) (k : keepaliver) (sid : string) (reset : bool)
  : option keepaliver :=
  match kt k with
  | None => None
  | Some t => Some {| ka := ka k; kt := Some (kt_HeardFrom now t sid reset);
                      interval := interval k |}
  end.

(** [func (k *keepalive) isTimeToPing(sid string) bool] *)
Definition isTimeToPing (now : Z) (k : keepaliver) (sid : string) : option bool :=
  match kt k with
  | None => None
  | Some t => kt_TimedOut now t sid
  end.

End KeepaliveTracker.

(** ** Package [ais], keepalive: the primary's sweep *)

Module ProxyKeepalive.

Import cluster Keepalive.

Section Sweep.

Variable error : Type.
Variable IsUnreachable : option error -> Z -> bool.

(** Modelled from the spec: [smapX.staffIC], which restaffs the information
    council among the proxies and is not part of the sources at hand. *)
Variable staffIC : Smap -> Smap.

(** One iteration of the loop of [retry]: the node was heard from in the
    meantime ([isTimeToPing] is false at the head of the loop); or the
    ticker fired, and [p.Health] answers as [health] says; or a message
    arrived on the control channel. *)
Inductive pevent :=
| Heard
| PTick (health : Z -> sendResult error)
| PControl (msg : string).

(** The local variables of [retry] that live across iterations, the tracker
    of timeouts, and what the loop did so far: the number of calls of
    [p.Health] and of "Unexpected error" warnings. *)
Record retryState := mkRetryState {
  rk : keepalive;
  r_timeout : Z;       (* timeout *)
  r_i : Z;             (* i *)
  r_calls : nat;
  r_unexpected : nat
}.

Inductive iterOutcome :=
| Done (ok stopped : bool)
| Again.

(** The body of the [for] loop of [retry]. *)
Definition retryIter (sid : string) (st : retryState) (ev : pevent)
  : retryState * iterOutcome :=
  match ev with
  | Heard => (st, Done true false)
  | PTick health =>
      let r := health (r_timeout st) in
      let '(k', timeout') := updateTimeoutForDaemon (rk st) sid (elapsed r) in
      let calls' := S (r_calls st) in
      match err r with
      | None =>
          ({| rk := k'; r_timeout := timeout'; r_i := r_i st;
              r_calls := calls'; r_unexpected := r_unexpected st |},
           Done true false)
      | Some _ =>
          let i' := I64.add (r_i st) 1 in
          if i' =? kaNumRetries then
            ({| rk := k'; r_timeout := timeout'; r_i := i';
                r_calls := calls'; r_unexpected := r_unexpected st |},
             Done false false)
          else if IsUnreachable (err r) (status r) then
            ({| rk := k'; r_timeout := timeout'; r_i := i';
                r_calls := calls'; r_unexpected := r_unexpected st |}, Again)
          else
            ({| rk := k'; r_timeout := timeout'; r_i := i';
                r_calls := calls'; r_unexpected := S (r_unexpected st) |}, Again)
      end
  | PControl msg =>
      if String.eqb msg kaStopMsg then (st, Done false true) else (st, Again)
  end.

(** The loop of [retry], driven by the outcomes of its successive
    iterations.  [None]: the loop is still blocked in [select] when the
    given outcomes are exhausted. *)
Fixpoint retryFrom (sid : string) (evs : list pevent) (st : retryState)
  : option (retryState * bool * bool) :=
  match evs with
  | [] => None
  | ev :: evs' =>
      match retryIter sid st ev with
      | (st', Done ok stopped) => Some (st', ok, stopped)
      | (st', Again) => retryFrom sid evs' st'
      end
  end.

(** [func (pkr *proxyKeepalive) retry(si *cluster.Snode) (ok, stopped bool)] *)
Definition retry (k : keepalive) (si : Snode) (evs : list pevent)
  : option (retryState * bool * bool) :=
  let '(k0, ts) := timeoutStatsForDaemon k (ID si) in
  retryFrom (ID si) evs
            {| rk := k0; r_timeout := timeout ts; r_i := 0; r_calls := 0;
               r_unexpected := 0 |}.

(** What [_pingRetry] did: the tracker of timeouts, the number of calls of
    [p.Health], and the returned pair. *)
Record pingResult := mkPingResult {
  pr_k : keepalive;
  pr_calls : nat;
  pr_ok : bool;
  pr_stopped : bool
}.

(** [func (pkr *proxyKeepalive) _pingRetry(to *cluster.Snode) (ok, stopped bool)];
    [health0] answers the first call of [p.Health].  (The latency that goes
    to the stats tracker is not part of the model.) *)
Definition _pingRetry (k : keepalive) (to : Snode)
           (health0 : Z -> sendResult error) (evs : list pevent)
  : option pingResult :=
  let '(k0, ts) := timeoutStatsForDaemon k (ID to) in
  let r := health0 (timeout ts) in
  let delta := elapsed r in
  let '(k1, _) := updateTimeoutForDaemon k0 (ID to) delta in
  match err r with
  | None => Some {| pr_k := k1; pr_calls := 1; pr_ok := true;
                    pr_stopped := false |}
  | Some _ =>
      match retry k1 to evs with
      | None => None
      | Some (st, ok, stopped) =>
          Some {| pr_k := rk st; pr_calls := S (r_calls st);
                  pr_ok := ok; pr_stopped := stopped |}
      end
  end.

(** The two channels of a sweep: their capacity, and the queues of what
    was sent on them and not yet received. *)
Record channels := mkChannels {
  ch_cap : nat;
  stoppedCh : nat;
  toRemoveCh : list string
}.

(** [func (pkr *proxyKeepalive) openCh(daemonCnt int)]; [prev] is the pair
    of channels the keepaliver holds ([None]: nil).  New channels are made
    only when there are none or their capacity is below [daemonCnt];
    channels that are kept keep their content, and the two calls of
    [debug.Assert] check that both channels are empty.  [None]: one of the
    assertions fails. *)
Definition openCh (prev : option channels) (daemonCnt : nat) : option channels :=
  let fresh := {| ch_cap := daemonCnt * 2; stoppedCh := 0; toRemoveCh := [] |} in
  let ch := match prev with
            | None => fresh
            | Some ch => if (ch_cap ch <? daemonCnt)%nat then fresh else ch
            end in
  if negb (stoppedCh ch =? 0)%nat then None
  else if negb (length (toRemoveCh ch) =? 0)%nat then None
  else Some ch.

(** A send on a channel; [None]: the channel is full and the send blocks
    (nothing is received from the channels while a sweep runs). *)
Definition sendStopped (ch : channels) : option channels :=
  if (stoppedCh ch <? ch_cap ch)%nat
  then Some {| ch_cap := ch_cap ch; stoppedCh := S (stoppedCh ch);
               toRemoveCh := toRemoveCh ch |}
  else None.

Definition sendToRemove (ch : channels) (sid : string) : option channels :=
  if (length (toRemoveCh ch) <? ch_cap ch)%nat
  then Some {| ch_cap := ch_cap ch; stoppedCh := stoppedCh ch;
               toRemoveCh := toRemoveCh ch ++ [sid] |}
  else None.

(** What the goroutine that pings one node meets: whether it finds the
    channel [stoppedCh] non-empty when it starts, the answer to its first
    call of [p.Health], and the iterations of its retry loop. *)
Record goroutine := mkGoroutine {
  g_stopSeen : bool;
  g_health0 : Z -> sendResult error;
  g_evs : list pevent
}.

(** [func (pkr *proxyKeepalive) do(si *cluster.Snode, wg cos.WG)];
    [None]: the goroutine does not return. *)
Definition do (k : keepalive) (ch : channels) (si : Snode) (g : goroutine)
  : option (keepalive * channels) :=
  if g_stopSeen g then Some (k, ch)
  else
    match _pingRetry k si (g_health0 g) (g_evs g) with
    | None => None
    | Some r =>
        match (if pr_stopped r then sendStopped ch else Some ch) with
        | None => None
        | Some ch1 =>
            match (if negb (pr_ok r) then sendToRemove ch1 (ID si)
                   else Some ch1) with
            | None => None
            | Some ch2 => Some (pr_k r, ch2)
            end
        end
    end.

(** The nodes that the loops of [updateSmap] over [smap.Tmap] and
    [smap.Pmap] hand to a goroutine: not this proxy, timed out according to
    the keepalive tracker, and neither in maintenance nor being
    decommissioned. *)
Definition pinged (self : Snode) (isTimeToPing : string -> bool) (smap : Smap)
  : list Snode :=
  let sel := fun (e : string * Snode) =>
               negb (String.eqb (fst e) (ID self))
               && isTimeToPing (fst e)
               && negb (IsAnySet (snd e) NodeFlagsMaintDecomm) in
  map snd (List.filter sel (map_to_list (Tmap smap)))
  ++ map snd (List.filter sel (map_to_list (Pmap smap))).

(** The goroutines of one sweep, run to completion one after the other in
    the order [sched]; each pings the node it was started for.  [None]:
    [wg.Wait()] does not return. *)
Fixpoint sweep (k : keepalive) (ch : channels)
         (sched : list (Snode * goroutine))
  : option (keepalive * channels) :=
  match sched with
  | [] => Some (k, ch)
  | (si, g) :: rest =>
      match do k ch si g with
      | None => None
      | Some (k', ch') => sweep k' ch' rest
      end
  end.

(** [unknownDaemonID], a constant of package ais. *)
Definition unknownDaemonID : string := "unknown".

(** The loop of [_pre] that drains [toRemoveCh]: the clone, the text of
    [metaction], the count [cnt] of removed nodes and the ids of the
    warnings "not present in the Smap". *)
Fixpoint drain (toRemove : list string) (clone : Smap) (metaction : string)
         (cnt : Z) (unknown : list string)
  : Smap * string * Z * list string :=
  match toRemove with
  | [] => (clone, metaction, cnt, unknown)
  | sid :: rest =>
      let metaction := (metaction ++ " [")%string in
      let '(clone, metaction, cnt, unknown) :=
        match GetProxy clone sid with
        | Some _ =>
            (staffIC (smapx.delProxy clone sid),
             (metaction ++ Proxy)%string, I64.add cnt 1, unknown)
        | None =>
            match GetTarget clone sid with
            | Some _ =>
                (smapx.delTarget clone sid,
                 (metaction ++ Target)%string, I64.add cnt 1, unknown)
            | None =>
                (clone, (metaction ++ unknownDaemonID)%string, cnt,
                 unknown ++ [sid])
            end
        end in
      let metaction := (metaction ++ ":" ++ sid ++ "] ")%string in
      drain rest clone metaction cnt unknown
  end.

Inductive preErr :=
| ErrNotPrimary
| ErrNothingToDo (metaction : string).

(** What [_pre] did: the clone, [ctx.msg], the returned error, the ids it
    deleted from the reverse proxy, the warnings and what is left on
    [toRemoveCh]. *)
Record preResult := mkPreResult {
  pre_clone : Smap;
  pre_msg : option string;
  pre_err : option preErr;
  pre_rproxyDeleted : list string;
  pre_unknown : list string;
  pre_left : list string
}.

(** [func (pkr *proxyKeepalive) _pre(ctx *smapModifier, clone *smapX) error] *)
Definition _pre (p : ais.proxyrunner) (toRemove : list string) (clone : Smap)
  : preResult :=
  if negb (ais.isPrimary (ais.smap p) (ais.si p)) then
    {| pre_clone := clone; pre_msg := None; pre_err := Some ErrNotPrimary;
       pre_rproxyDeleted := []; pre_unknown := []; pre_left := toRemove |}
  else
    let '(clone', metaction, cnt, unknown) :=
      drain toRemove clone "keepalive: removing [" 0 [] in
    let metaction := (metaction ++ "]")%string in
    if cnt =? 0 then
      {| pre_clone := clone'; pre_msg := None;
         pre_err := Some (ErrNothingToDo metaction);
         pre_rproxyDeleted := toRemove; pre_unknown := unknown;
         pre_left := [] |}
    else
      {| pre_clone := clone'; pre_msg := Some metaction; pre_err := None;
         pre_rproxyDeleted := toRemove; pre_unknown := unknown;
         pre_left := [] |}.

(** The lines [updateSmap] writes to the log. *)
Inductive sweepLog :=
| InfoInProgress            (* "primary keepalive is in progress..." *)
| ErrFatal (e : preErr)     (* "FATAL: %v" *)
| Warning (e : preErr).

(** What a call of [updateSmap] did. *)
Record sweepResult := mkSweepResult {
  sw_stopped : bool;                 (* the returned [stopped] *)
  sw_p : ais.proxyrunner;
  sw_k : keepalive;
  sw_ch : option channels;           (* the channels held; [None]: nil *)
  sw_rproxyDeleted : list string;    (* p.rproxy.nodes.Delete *)
  sw_log : list sweepLog
}.

(** Modelled from the spec: [Smap.Count], the number of nodes of the map
    ("bounded channels sized at 2·peers"); it is declared in package
    cluster, which is not part of the sources at hand. *)
Definition Count (m : Smap) : nat := size (Tmap m) + size (Pmap m).

(** [func (pkr *proxyKeepalive) updateSmap() (stopped bool)].
    [inProgress] is the value the compare-and-swap finds; [prev] is the
    pair of channels the keepaliver holds; [isTimeToPing] answers the
    tracker of heartbeats for each node the loop visits; [order] is the
    order in which the goroutines get to run and [oracle] what each of them
    meets.  No other modification of the Smap is interleaved with the
    sweep.  [smapOwner.modify] runs [_pre] on a clone of the current map,
    publishes the clone unless [_pre] fails, and then runs [_final].
    [None]: the call does not return (an assertion of [openCh] fails, or
    a goroutine blocks). *)
Definition updateSmap (p : ais.proxyrunner) (k : keepalive) (inProgress : bool)
           (prev : option channels)
           (isTimeToPing : string -> bool)
           (order : list Snode -> list Snode) (oracle : Snode -> goroutine)
  : option sweepResult :=
  if inProgress then
    Some {| sw_stopped := false; sw_p := p; sw_k := k; sw_ch := prev;
            sw_rproxyDeleted := []; sw_log := [InfoInProgress] |}
  else
    let smap := ais.smap p in
    let daemonCnt := Count smap in
    match openCh prev daemonCnt with
    | None => None
    | Some ch0 =>
    let sched := map (fun si => (si, oracle si))
                     (order (pinged (ais.si p) isTimeToPing smap)) in
    match sweep k ch0 sched with
    | None => None
    | Some (k', ch) =>
        if (0 <? stoppedCh ch)%nat then
          (* closeCh *)
          Some {| sw_stopped := true; sw_p := p; sw_k := k'; sw_ch := None;
                  sw_rproxyDeleted := []; sw_log := [] |}
        else if (length (toRemoveCh ch) =? 0)%nat then
          Some {| sw_stopped := false; sw_p := p; sw_k := k'; sw_ch := Some ch;
                  sw_rproxyDeleted := []; sw_log := [] |}
        else
          let r := _pre p (toRemoveCh ch) (ais.smap p) in
          let ch' := {| ch_cap := ch_cap ch; stoppedCh := stoppedCh ch;
                        toRemoveCh := pre_left r |} in
          match pre_err r with
          | Some e =>
              Some {| sw_stopped := false; sw_p := p; sw_k := k';
                      sw_ch := Some ch';
                      sw_rproxyDeleted := pre_rproxyDeleted r;
                      sw_log := [match pre_msg r with
                                 | Some _ => ErrFatal e
                                 | None => Warning e
                                 end] |}
          | None =>
              (* _final *)
              let p1 := ais.put_smap p (pre_clone r) in
              let p2 := ais.emit p1 (ais.MetasyncSync [ais.RevSmap (pre_clone r)]) in
              Some {| sw_stopped := false; sw_p := p2; sw_k := k';
                      sw_ch := Some ch';
                      sw_rproxyDeleted := pre_rproxyDeleted r;
                      sw_log := [] |}
          end
    end
    end.

End Sweep.

Arguments Heard {error}.
Arguments PTick {error} _.
Arguments PControl {error} _.
Arguments mkGoroutine {error} _ _ _.
Arguments g_stopSeen {error} _.
Arguments g_health0 {error} _.
Arguments g_evs {error} _.

End ProxyKeepalive.

(** ** Package [ais], continued: nodes leaving the cluster, rebalance on demand *)

Module ais_rm.

Import cluster ais.

(** Modelled from the spec: the action tags of package cmn, which is not
    part of the sources at hand ("an action tag from a closed enum {...,
    start-maintenance, stop-maintenance, decommission-node, shutdown-node,
    ..., rebalance, ...}"); [ActCallbackRmFromSmap] and [ActShutdown] are
    tags of the same enum. *)
Definition ActShutdownNode : string := "shutdown-node".
Definition ActStartMaintenance : string := "start-maintenance".
Definition ActDecommissionNode : string := "decommission-node".
Definition ActCallbackRmFromSmap : string := "callback-rm-from-smap".
Definition ActShutdown : string := "shutdown".
Definition ActRebalance : string := "rebalance".

(** [cmn.ActionMsg] *)
Record ActionMsg := mkActionMsg {
  Action : string;
  Value : option string
}.

(** The two requests [callRmSelf] sends to a node. *)
Inductive request :=
| ReqShutdown                    (* PUT /v1/daemon, action shutdown *)
| ReqRmSelf (act : ActionMsg).   (* DELETE /v1/daemon/callback-rm-self *)

Definition StatusBadRequest : Z := 400.
Definition StatusNotFound : Z := 404.
Definition StatusServiceUnavailable : Z := 503.

Inductive rmErr :=
| ErrBadURL
| ErrNotPrimary
| ErrNodeNotFound (sid : string)
| ErrPrimaryNotReadyYet
| ErrInvalidAction (a : string)
| ErrSmapInvalid
| errRebalanceDisabled
| ErrRmdModify
| ErrCannotRemovePrimary            (* "cannot remove primary proxy" *)
| ErrExpectSelfInitiated (cid sid : string)
| ErrMorphUnmarshal
| ErrNotUnderMaintenance (sid : string)   (* "node %q is not under maintenance" *)
| ErrUnreachable (sid : string) (status : Z).   (* "node %q is unreachable" *)

(** Everything these handlers do to the world outside of the proxy's own
    fields, in program order. *)
Inductive effect :=
| LogError (e : rmErr)                        (* glog.Error(err) *)
| WarnNoResponse (sid : string)               (* "... fails to respond" *)
| WarnNotEnoughTargets                        (* "... - nothing to do" *)
| ErrRebalanceNotFinished (uuid : string)     (* "Rebalance(%s) didn't finish successfully" *)
| ErrFailedToRemove (sid : string)            (* "Failed to remove node (%s) after rebalance" *)
| MetasyncSync (pairs : list revs) (wait : bool)   (* p.metasyncer.sync, wg.Wait *)
| NotifsAdd (rebID : Z) (cb : option (ActionMsg * Snode))   (* p.notifs.add(nl), nl.F *)
| RproxyDelete (sid : string)                 (* p.rproxy.nodes.Delete *)
| Call (node : Snode) (req : request)         (* p.call(args) *)
| HealthCall (node : Snode)                   (* p.Health(si, timeout, nil) *)
| Sleep.                                      (* time.Sleep(timeout * 2) *)

(** What the handler wrote to the [http.ResponseWriter]. *)
Inductive reply :=
| ReplyOK                                 (* nothing written *)
| ReplyErr (e : rmErr) (code : Z)        (* code 0: none given *)
| ReplyForwarded
| ReplyRebID (version : Z).               (* xaction.RebID2S(version) *)

(** The fields of [smapModifier] that the removal of a node adds to the
    ones of a join. *)
Record rmModifier := mkRmModifier {
  ctx : smapModifier;       (* smap, rmd, _mustReb *)
  ctx_sid : string;         (* sid *)
  ctx_skipReb : bool;       (* skipReb *)
  ctx_status : Z            (* status *)
}.

(** What the handlers do not decide themselves: whether [p.owner.rmd.modify]
    succeeds, whether [smap.validate] does, and whether the node answers
    the call of [callRmSelf]. *)
Record rmEnv := mkRmEnv {
  env_rmdModify : bool;
  env_smapValid : bool;
  env_callFails : bool;
  env_forwardCP : bool
}.

Section Handlers.

(** Modelled from the spec: [smapX.staffIC], which is not part of the
    sources at hand. *)
Variable staffIC : smapX -> smapX.

(** [func (p *proxyrunner) canRunRebalance() (err error)], with the error
    it returns. *)
Definition canRunRebalance (p : proxyrunner) (env : rmEnv) : option rmErr :=
  if negb (env_smapValid env) then Some ErrSmapInvalid
  else if negb (isPrimary (smap p) (si p)) then Some ErrNotPrimary
  else if negb (clusterStarted p) || rmd_startup p then Some ErrPrimaryNotReadyYet
  else if negb (rebalanceEnabled p) then Some errRebalanceDisabled
  else None.

(** [func (p *proxyrunner) metasyncRMD(ctx *rmdModifier, clone *rebMD)] *)
Definition metasyncRMD (rebCB : option (ActionMsg * Snode)) (wait : bool)
           (clone : rebMD) : list effect :=
  [MetasyncSync [RevRMD clone] wait; NotifsAdd (rmd_Version clone) rebCB].

(** [func (p *proxyrunner) rebalanceCluster(w http.ResponseWriter, r *http.Request)].
    [p.owner.rmd.modify] runs [pre] on a clone of the current RMD,
    publishes the clone and runs [final]. *)
Definition rebalanceCluster (p : proxyrunner) (env : rmEnv)
  : proxyrunner * list effect * reply :=
  let refused :=
    match canRunRebalance p env with
    | Some errRebalanceDisabled => None
    | other => other
    end in
  match refused with
  | Some e => (p, [], ReplyErr e 0)
  | None =>
      if CountActiveTargets (smap p) <? 2 then (p, [WarnNotEnoughTargets], ReplyOK)
      else if negb (env_rmdModify env) then (p, [], ReplyErr ErrRmdModify 0)
      else
        let rmdClone := rmd_inc (rmd p) in
        (put_rmd p rmdClone, metasyncRMD None false rmdClone,
         ReplyRebID (rmd_Version rmdClone))
  end.

(** [func (p *proxyrunner) _newRebRMD(ctx *smapModifier, clone *smapX)] *)
Definition _newRebRMD (p : proxyrunner) (env : rmEnv) (c : rmModifier)
           (clone : smapX) : proxyrunner * rmModifier * list effect :=
  if ctx_skipReb c then (p, c, [])
  else
    let '(ctx1, must) := mustRunRebalance (rebalanceEnabled p) (ctx c) clone in
    let c1 := mkRmModifier ctx1 (ctx_sid c) (ctx_skipReb c) (ctx_status c) in
    if must then
      if env_rmdModify env then
        let rmdClone := rmd_inc (rmd p) in
        (put_rmd p rmdClone,
         mkRmModifier (set_ctx_rmd ctx1 (Some rmdClone))
                      (ctx_sid c) (ctx_skipReb c) (ctx_status c), [])
      else (p, c1, [LogError ErrRmdModify])
    else (p, c1, []).

(** [func (p *proxyrunner) _syncFinal(ctx *smapModifier, clone *smapX)] *)
Definition _syncFinal (c : rmModifier) (clone : smapX) : list effect :=
  match ctx_rmd (ctx c) with
  | Some r =>
      [NotifsAdd (rmd_Version r) None;
       MetasyncSync [RevSmap clone; RevRMD r] (_mustReb (ctx c))]
  | None => [MetasyncSync [RevSmap clone] (_mustReb (ctx c))]
  end.

(** [func (p *proxyrunner) _unregNodePre(ctx *smapModifier, clone *smapX) error] *)
Definition _unregNodePre (p : proxyrunner) (c : rmModifier) (clone : smapX)
  : rmModifier * smapX * option rmErr * list effect :=
  let sid := ctx_sid c in
  let node := GetNode clone sid in
  if negb (isPrimary clone (si p)) then (c, clone, Some ErrNotPrimary, [])
  else
    match node with
    | None =>
        (mkRmModifier (ctx c) (ctx_sid c) (ctx_skipReb c) StatusNotFound,
         clone, Some (ErrNodeNotFound sid), [])
    | Some node =>
        if negb (nodeStarted p) then
          (mkRmModifier (ctx c) (ctx_sid c) (ctx_skipReb c)
                        StatusServiceUnavailable, clone, None, [])
        else if IsProxy node then
          (c, staffIC (smapx.delProxy clone sid), None, [RproxyDelete sid])
        else if negb (clusterStarted p) || rmd_startup p then
          (c, clone, Some ErrPrimaryNotReadyYet, [])
        else
          (c, staffIC (smapx.delTarget clone sid), None, [RproxyDelete sid])
    end.

(** [func (p *proxyrunner) unregNode(msg *cmn.ActionMsg, si *cluster.Snode, skipReb bool) (errCode int, err error)].
    [smapOwner.modify] runs [pre] on a clone of the current map; when [pre]
    fails the modification aborts and the current map is unchanged;
    otherwise [post] runs, the clone is published and [final] runs. *)
Definition unregNode (p : proxyrunner) (env : rmEnv) (si_ : Snode)
           (skipReb : bool)
  : proxyrunner * list effect * Z * option rmErr :=
  let c0 := mkRmModifier (mkSmapModifier (smap p) None None 0 false false)
                         (ID si_) skipReb 0 in
  match _unregNodePre p c0 (smap p) with
  | (c1, _, Some e, effs1) => (p, effs1, ctx_status c1, Some e)
  | (c1, clone, None, effs1) =>
      let '(p2, c2, effs2) := _newRebRMD p env c1 clone in
      let p3 := put_smap p2 clone in
      (p3, effs1 ++ effs2 ++ _syncFinal c2 clone, ctx_status c2, None)
  end.

(** [func (p *proxyrunner) callRmSelf(msg *cmn.ActionMsg, si *cluster.Snode, skipReb bool) (errCode int, err error)] *)
Definition callRmSelf (p : proxyrunner) (env : rmEnv) (msg : ActionMsg)
           (si_ : Snode) (skipReb : bool)
  : proxyrunner * list effect * Z * option rmErr :=
  match GetNode (smap p) (ID si_) with
  | None => (p, [], StatusNotFound, Some (ErrNodeNotFound (ID si_)))
  | Some node =>
      let req :=
        if String.eqb (Action msg) ActShutdownNode then Some ReqShutdown
        else if String.eqb (Action msg) ActStartMaintenance
                || String.eqb (Action msg) ActDecommissionNode
                || String.eqb (Action msg) ActCallbackRmFromSmap
        then Some (ReqRmSelf
                     (mkActionMsg (Action msg)
                        (if String.eqb (Action msg) ActDecommissionNode
                         then Value msg else None)))
        else None in
      match req with
      | None => (p, [], 0, Some (ErrInvalidAction (Action msg)))
      | Some req =>
          let effs := Call node req
                      :: (if env_callFails env then [WarnNoResponse (ID node)]
                          else []) in
          if String.eqb (Action msg) ActDecommissionNode
             || String.eqb (Action msg) ActCallbackRmFromSmap
          then
            let '(p', effs', errCode, err) := unregNode p env si_ skipReb in
            (p', effs ++ effs', errCode, err)
          else (p, effs, 0, None)
      end
  end.

(** A request to [DELETE /v1/cluster/daemon/<sid>]: the items of its path,
    whether it comes from a node of the cluster, and its caller-id header. *)
Record delRequest := mkDelRequest {
  del_items : list string;
  del_intra : bool;          (* p.isIntraCall(r.Header) *)
  del_callerID : string      (* r.Header.Get(cmn.HdrCallerID) *)
}.

(** [func (p *proxyrunner) httpcludel(w http.ResponseWriter, r *http.Request)] *)
Definition httpcludel (p : proxyrunner) (env : rmEnv) (r : delRequest)
  : proxyrunner * list effect * reply :=
  match del_items r with
  | [] => (p, [], ReplyErr ErrBadURL StatusBadRequest)
  | sid :: _ =>
      match GetNode (smap p) sid with
      | None => (p, [], ReplyErr (ErrNodeNotFound sid) StatusNotFound)
      | Some node =>
          if isPrimary (smap p) node then
            (p, [], ReplyErr ErrCannotRemovePrimary StatusBadRequest)
          else if env_forwardCP env then (p, [], ReplyForwarded)
          else
            let '(p', effs, errCode, err) :=
              if del_intra r then
                if String.eqb (del_callerID r) sid
                then unregNode p env node false
                else (p, [], 0, Some (ErrExpectSelfInitiated (del_callerID r) sid))
              else
                callRmSelf p env (mkActionMsg ActCallbackRmFromSmap None)
                           node false in
            match err with
            | Some e => (p', effs, ReplyErr e errCode)
            | None => (p', effs, ReplyOK)
            end
      end
  end.

(** [func (p *proxyrunner) removeAfterRebalance(nl nl.NotifListener, msg *cmn.ActionMsg, si *cluster.Snode)] *)
Definition removeAfterRebalance (p : proxyrunner) (env : rmEnv)
           (nl : notifs.listener) (msg : ActionMsg) (si_ : Snode)
  : proxyrunner * list effect :=
  match notifs.l_err nl, notifs.Aborted nl with
  | None, false =>
      let '(p', effs, _, err) := callRmSelf p env msg si_ true in
      match err with
      | Some _ => (p', effs ++ [ErrFailedToRemove (ID si_)])
      | None => (p', effs)
      end
  | _, _ => (p, [ErrRebalanceNotFinished (notifs.l_uuid nl)])
  end.

(** [func (p *proxyrunner) rebalanceAndRmSelf(msg *cmn.ActionMsg, si *cluster.Snode) (rebID string, err error)];
    the rebalance id is kept as the RMD version it prints. *)
Definition rebalanceAndRmSelf (p : proxyrunner) (env : rmEnv) (msg : ActionMsg)
           (si_ : Snode)
  : proxyrunner * list effect * option Z * option rmErr :=
  if CountActiveTargets (smap p) <? 2 then
    let '(p', effs, _, err) := callRmSelf p env msg si_ true in
    (p', effs, None, err)
  else
    let cb := if String.eqb (Action msg) ActDecommissionNode
                 || String.eqb (Action msg) ActShutdownNode
              then Some (msg, si_) else None in
    if env_rmdModify env then
      let rmdClone := rmd_inc (rmd p) in
      (put_rmd p rmdClone, metasyncRMD cb true rmdClone,
       Some (rmd_Version rmdClone), None)
    else (p, [LogError ErrRmdModify], None, Some ErrRmdModify).

(** [cmn.ActValRmNode], with the fields the handlers read. *)
Record ActValRmNode := mkActValRmNode {
  DaemonID : string;
  SkipRebalance : bool
}.

(** The answers of the node to the two calls of [p.Health] in
    [stopMaintenance]: whether each call fails, and the status of the
    second. *)
Record healthEnv := mkHealthEnv {
  h_fails1 : bool;
  h_fails2 : bool;
  h_status2 : Z
}.

(** [func (p *proxyrunner) _cancelMaintPre(ctx *smapModifier, clone *smapX) error] *)
Definition _cancelMaintPre (p : proxyrunner) (sid : string) (flags : Z)
           (clone : smapX) : smapX * option rmErr :=
  if negb (isPrimary clone (si p)) then (clone, Some ErrNotPrimary)
  else (staffIC (smapx.clearNodeFlags clone sid flags), None).

(** [func (p *proxyrunner) cancelMaintenance(msg *cmn.ActionMsg, opts *cmn.ActValRmNode) (rebID string, err error)];
    the rebalance id is kept as the RMD version it prints. *)
Definition cancelMaintenance (p : proxyrunner) (env : rmEnv)
           (opts : ActValRmNode)
  : proxyrunner * list effect * option Z * option rmErr :=
  let c0 := mkRmModifier
              (mkSmapModifier (smap p) None None NodeFlagsMaintDecomm false false)
              (DaemonID opts) (SkipRebalance opts) 0 in
  match _cancelMaintPre p (ctx_sid c0) (ctx_flags (ctx c0)) (smap p) with
  | (_, Some e) => (p, [], None, Some e)
  | (clone, None) =>
      let '(p2, c2, effs2) := _newRebRMD p env c0 clone in
      let p3 := put_smap p2 clone in
      (p3, effs2 ++ _syncFinal c2 clone,
       option_map rmd_Version (ctx_rmd (ctx c2)), None)
  end.

(** [func (p *proxyrunner) stopMaintenance(w http.ResponseWriter, r *http.Request, msg *cmn.ActionMsg)];
    [opts] is [None] when [msg.Value] does not unmarshal. *)
Definition stopMaintenance (p : proxyrunner) (env : rmEnv) (h : healthEnv)
           (opts : option ActValRmNode)
  : proxyrunner * list effect * reply :=
  match opts with
  | None => (p, [], ReplyErr ErrMorphUnmarshal 0)
  | Some opts =>
      match GetNode (smap p) (DaemonID opts) with
      | None => (p, [], ReplyErr (ErrNodeNotFound (DaemonID opts)) StatusNotFound)
      | Some si_ =>
          if negb (PresentInMaint (smap p) si_) then
            (p, [], ReplyErr (ErrNotUnderMaintenance (ID si_)) 0)
          else
            let probes :=
              if h_fails1 h then [HealthCall si_; Sleep; HealthCall si_]
              else [HealthCall si_] in
            if h_fails1 h && h_fails2 h
               && negb (h_status2 h =? StatusServiceUnavailable)
            then (p, probes, ReplyErr (ErrUnreachable (ID si_) (h_status2 h)) 0)
            else
              match cancelMaintenance p env opts with
              | (p', effs, _, Some e) => (p', probes ++ effs, ReplyErr e 0)
              | (p', effs, Some rebID, None) =>
                  (p', probes ++ effs, ReplyRebID rebID)
              | (p', effs, None, None) => (p', probes ++ effs, ReplyOK)
              end
      end
  end.

End Handlers.

End ais_rm.

(** ** Package [ais], continued: collecting the answers of a broadcast *)

Module ais_query.

Import cluster.

Definition StatusNotFound : Z := 404.

(** One entry of the [sliceResults] of a broadcast, with the fields
    [_queryResults] reads. *)
Record callResult := mkCallResult {
  res_status : Z;               (* res.status *)
  res_err : option string;      (* res.err *)
  res_si : Snode;               (* res.si *)
  res_bytes : string            (* res.bytes *)
}.

(** The loop of [_queryResults] over the results, from the map [tres]
    built so far: the map (nil after an error), [erred], and the error
    written to the response. *)
Fixpoint queryLoop (results : list callResult) (tres : gmap string string)
  : option (gmap string string) * bool * option string :=
  match results with
  | [] => (Some tres, false, None)
  | res :: rest =>
      if res_status res =? StatusNotFound then queryLoop rest tres
      else
        match res_err res with
        | Some e => (None, true, Some e)
        | None => queryLoop rest (<[ID (res_si res) := res_bytes res]> tres)
        end
  end.

(** [func (p *proxyrunner) _queryResults(w http.ResponseWriter, r *http.Request, results sliceResults) (tres cos.JSONRawMsgs, erred bool)] *)
Definition _queryResults (results : list callResult)
  : option (gmap string string) * bool * option string :=
  queryLoop results ∅.

End ais_query.

(** ** Notions used in the statements *)

(** No product or sum of [updateTimeoutForDaemon] leaves the int64 range
    while its operands stay below this bound (2^53 ns, about 104 days). *)
Definition exact_bound : Z := 2 ^ 53.

(** The cached [maxKeepalive] is one of the values [M], and so is, for
    every stored timeout, some [m] with the timeout in [m/2, m]. *)
Definition within_bounds (M : Z -> Prop) (k : Keepalive.keepalive) : Prop :=
  M (Keepalive.maxKeepalive k) /\
  forall sid ts, Keepalive.tt k !! sid = Some ts ->
                 exists m, M m /\ m / 2 <= Keepalive.timeout ts <= m.

(** Statistics of a peer as [updateTimeoutForDaemon] leaves them under
    [maxKeepalive = mk]: srtt and rttvar are durations below [exact_bound],
    and the timeout is the clamped srtt + 4·rttvar. *)
Definition consistent (mk : Z) (ts : Keepalive.timeoutStats) : Prop :=
  0 <= Keepalive.srtt ts <= exact_bound
  /\ 0 <= Keepalive.rttvar ts <= exact_bound
  /\ Keepalive.timeout ts
     = Keepalive.clamp (Keepalive.srtt ts + 4 * Keepalive.rttvar ts) (mk / 2) mk.

Definition all_consistent (mk : Z) (k : Keepalive.keepalive) : Prop :=
  Keepalive.maxKeepalive k = mk
  /\ forall sid ts, Keepalive.tt k !! sid = Some ts -> consistent mk ts.

(** The samples that a run feeds to [updateTimeoutForDaemon] are durations
    between 0 and [exact_bound]. *)
Definition samples_within (ops : list Keepalive.ttOp) : Prop :=
  Forall (fun op => match op with
                    | Keepalive.OpUpdate _ d => 0 <= d <= exact_bound
                    | _ => True
                    end) ops.

(** A value that [maxKeepalive] can take: a positive int64. *)
Definition valid_maxKeepalive (m : Z) : Prop := 0 < m /\ I64.in_range m.

(** Every record has counted at most [n] keepalives. *)
Definition counts_upto (n : Z) (a : Keepalive.AvgTracker) : Prop :=
  forall id r, Keepalive.rec a !! id = Some r -> 0 <= Keepalive.count r <= n.

(** The number of times the ticker fires in a run of selects. *)
Definition ticks {error : Type} (evs : list (Keepalive.event error)) : nat :=
  length (List.filter (fun e => match e with
                           | Keepalive.Tick _ _ => true
                           | Keepalive.Control _ => false
                           end) evs).

(** A keepalive that fails, or succeeds, whatever timeout it is sent with. *)
Definition fails {error : Type} (send : Z -> Keepalive.sendResult error) : Prop :=
  forall t, Keepalive.err (send t) <> None.

Definition succeeds {error : Type} (send : Z -> Keepalive.sendResult error) : Prop :=
  forall t, Keepalive.err (send t) = None.

(** The answer to a keepalive counts as "unreachable", or does not, whatever
    timeout the keepalive is sent with. *)
Definition unreachable {error : Type} (IsUnreachable : option error -> Z -> bool)
           (send : Z -> Keepalive.sendResult error) (b : bool) : Prop :=
  forall t, IsUnreachable (Keepalive.err (send t)) (Keepalive.status (send t)) = b.

(** An outcome of the [select] of the retry loop after which the loop
    selects again, unless the retries are used up: a control message other
    than the stop message, or a tick whose keepalive fails while the
    primary is unreachable or the daemon is not stopping. *)
Definition goes_on {error : Type} (IsUnreachable : option error -> Z -> bool)
           (e : Keepalive.event error) : Prop :=
  match e with
  | Keepalive.Control msg => msg <> Keepalive.kaStopMsg
  | Keepalive.Tick send stopping =>
      fails send /\ (stopping = false \/ unreachable IsUnreachable send true)
  end.

(** The effects of [cluSetPrimary] that follow a successful prepare phase:
    the transition flag, the demotion of the metasyncer, the commit
    broadcast and the exit on a failed commit. *)
Definition after_prepare (e : ais.effect) : bool :=
  match e with
  | ais.StoreInPrimaryTransition _ => true
  | ais.BecomeNonPrimary => true
  | ais.Bcast false _ => true
  | ais.Exit _ => true
  | _ => false
  end.

Definition is_log (e : ais.effect) : bool :=
  match e with
  | ais.Log _ => true
  | _ => false
  end.

(** Between [p] and [p'] the Smap and the RMD of the owners are untouched and
    nothing but log entries left the proxy: no metasync, no listener
    registration, no keepalive bookkeeping.  (The pool of joins deferred
    during startup and the interrupted-rebalance flag may differ.) *)
Definition quiet (p p' : ais.proxyrunner) : Prop :=
  ais.smap p' = ais.smap p
  /\ ais.rmd p' = ais.rmd p
  /\ ais.si p' = ais.si p
  /\ ais.rmd_startup p' = ais.rmd_startup p
  /\ ais.inPrimaryTransition p' = ais.inPrimaryTransition p
  /\ ais.clusterStarted p' = ais.clusterStarted p
  /\ ais.nodeStarted p' = ais.nodeStarted p
  /\ ais.rebalanceEnabled p' = ais.rebalanceEnabled p
  /\ exists logs, ais.trace p' = ais.trace p ++ logs
                  /\ Forall (fun e => is_log e = true) logs.

(** [p'] has the trace of [p] and possibly more. *)
Definition extends (p p' : ais.proxyrunner) : Prop :=
  exists l, ais.trace p' = ais.trace p ++ l.

(** Every listener of the registry is filed under its own uuid. *)
Definition filed (reg : notifs.registry) : Prop :=
  (forall k l, notifs.nls reg !! k = Some l -> notifs.l_uuid l = k)
  /\ (forall k l, notifs.fin reg !! k = Some l -> notifs.l_uuid l = k).

(** A listener only progresses: same notifiers, more finished, and aborted
    once it was. *)
Definition progressed (l l' : notifs.listener) : Prop :=
  notifs.l_notifiers l' = notifs.l_notifiers l
  /\ notifs.l_finished l ⊆ notifs.l_finished l'
  /\ (notifs.l_aborted l = true -> notifs.l_aborted l' = true).

(** What is known of a listener with notifier set [N] that was seen as [l0]. *)
Definition listener_ok (N : gset string) (l0 l : notifs.listener) : Prop :=
  notifs.l_notifiers l = N /\ notifs.l_finished l ⊆ N /\ progressed l0 l.

(** The listener [u] with notifier set [N] is in exactly one of two states:
    active, not finished, its callback not invoked; or archived, finished,
    its callback invoked once.  It has progressed from [l0]. *)
Definition tracked (N : gset string) (u : string) (l0 : notifs.listener)
           (reg : notifs.registry) : Prop :=
  filed reg /\
  match notifs.nls reg !! u, notifs.fin reg !! u with
  | Some l, None =>
      listener_ok N l0 l
      /\ notifs.IsFinished l = false /\ notifs.callbackCount reg u = 0%nat
  | None, Some l =>
      listener_ok N l0 l
      /\ notifs.IsFinished l = true /\ notifs.callbackCount reg u = 1%nat
  | _, _ => False
  end.

(** One iteration of [ListenSmapChanged]. *)
Definition smapChangedStep (present : gset string) (reg : notifs.registry)
           (ul : string * notifs.listener) : notifs.registry :=
  if notifs.lostNotifier present (snd ul)
  then notifs.done reg (notifs.abortListener (snd ul)) else reg.

(** What one event does to the listener [u], seen as [l] before it: a
    notification of one of its notifiers is merged, a change of the Smap
    that loses one of its notifiers aborts it unless it is finished
    already, and nothing else concerns it. *)
Definition stepListener (u : string) (l : notifs.listener) (e : notifs.event)
  : notifs.listener :=
  match e with
  | notifs.EvAdd _ => l
  | notifs.EvMsg m =>
      if String.eqb (notifs.m_uuid m) u
         && bool_decide (notifs.m_sender m ∈ notifs.l_notifiers l)
      then match notifs.m_kind m with
           | notifs.Progress => notifs.handleProgress l m
           | notifs.Finished => notifs.markFinished l m
           end
      else l
  | notifs.EvSmap present =>
      if negb (notifs.IsFinished l) && notifs.lostNotifier present l
      then notifs.abortListener l else l
  end.

Definition runListener (u : string) (l : notifs.listener)
           (evs : list notifs.event) : notifs.listener :=
  fold_left (stepListener u) evs l.

(** Among the events is a Finished notification for [u] sent by [n]. *)
Definition delivered (u : string) (evs : list notifs.event) (n : string) : Prop :=
  exists m, In (notifs.EvMsg m) evs
            /\ notifs.m_uuid m = u /\ notifs.m_kind m = notifs.Finished
            /\ notifs.m_sender m = n.

(** Among the events is a Finished notification for [u], sent by one of
    [N], whose payload indicates abort. *)
Definition abortSent (u : string) (N : gset string) (evs : list notifs.event)
  : Prop :=
  exists m, In (notifs.EvMsg m) evs
            /\ notifs.m_uuid m = u /\ notifs.m_kind m = notifs.Finished
            /\ notifs.m_sender m ∈ N /\ notifs.m_aborted m = true.

(** Among the events is a new Smap in which one of [N] is absent. *)
Definition nodeLost (N : gset string) (evs : list notifs.event) : Prop :=
  exists present, In (notifs.EvSmap present) evs /\ ~ N ⊆ present.

(** ** A small cluster for the examples *)

Module sample.

Import cluster.

Definition net (host : string) : NetInfo := mkNetInfo host "8080" host.

Definition p1 : Snode := mkSnode "p1" Proxy (net "10.0.0.1") (net "10.0.0.1") (net "10.0.0.1") 0.
Definition p2 : Snode := mkSnode "p2" Proxy (net "10.0.0.2") (net "10.0.0.2") (net "10.0.0.2") 0.
Definition t1 : Snode := mkSnode "t1" Target (net "10.0.1.1") (net "10.0.1.1") (net "10.0.1.1") 0.
Definition t2 : Snode := mkSnode "t2" Target (net "10.0.1.2") (net "10.0.1.2") (net "10.0.1.2") 0.

(** The node [t2] restarted on another host. *)
Definition t2_moved : Snode :=
  mkSnode "t2" Target (net "10.0.1.9") (net "10.0.1.9") (net "10.0.1.9") 0.

(** Primary [p1], a second proxy, and one or two targets. *)
Definition smap_t1 : Smap :=
  mkSmap {["t1" := t1]} {["p1" := p1; "p2" := p2]} (Some p1) 5 "cluster-uuid".
Definition smap_t1t2 : Smap :=
  mkSmap {["t1" := t1; "t2" := t2]} {["p1" := p1; "p2" := p2]} (Some p1) 6
         "cluster-uuid".

Definition ctx_of (prev : Smap) (mustReb : bool) : ais.smapModifier :=
  ais.mkSmapModifier prev None None 0 false mustReb.

(** The primary [p1] of a started cluster, with rebalance enabled. *)
Definition primary (m : Smap) : ais.proxyrunner :=
  ais.mkProxy p1 m (ais.mkRebMD 0 []) false false false true true [] true [].

(** Collaborators that let a join through: nothing is forwarded, every
    validation succeeds, no other node sits at the joining node's address;
    [dup] is the outcome of the probe for a duplicate. *)
Definition env_ok (dup : option bool) : ais.joinEnv :=
  ais.mkJoinEnv false (Some "t9") true true (Some false) true true dup
                true false true true true (Some true) false false.

Definition selfjoin (n : Snode) : ais.joinRequest :=
  ais.mkJoinRequest [ais.SelfJoin] (Some (ais.mkCluMeta n None "bmd-uuid" false)).

(** No change to the information council. *)
Definition staffIC (m : Smap) : Smap := m.

(** The listener of the notification tests: an action on two targets. *)
Definition xactID : string := "xact-1".
Definition nl : notifs.listener :=
  notifs.newListener xactID {["target1"; "target2"]}.
Definition notif (k : notifs.kind) (sender : string) (aborted : bool)
  : notifs.event :=
  notifs.EvMsg (notifs.mkNotifMsg xactID k sender 0 aborted None).

End sample.

(** The target map files every node under its own id. *)
Definition keyed (m : cluster.Smap) : Prop :=
  forall k t, cluster.Tmap m !! k = Some t -> cluster.ID t = k.

(** The candidate itself failed in the commit phase. *)
Definition candidateFailed (proxyid : string) (results : list ais.callResult)
  : bool :=
  existsb (fun res => ais.res_failed res
                      && String.eqb (cluster.ID (ais.res_si res)) proxyid)
          results.

(** The readings of the monotonic clock in a run of [HeardFrom] calls:
    they never decrease, and lie between [lo] and [hi]. *)
Fixpoint monotonic (lo hi : Z) (hs : list Keepalive.heard) : Prop :=
  match hs with
  | [] => lo <= hi
  | h :: hs' => lo <= Keepalive.h_now h /\ monotonic (Keepalive.h_now h) hi hs'
  end.

(** A run of [HeardFrom] calls through the interface. *)
Definition kt_heardAll (kt : KeepaliveTracker.tracker)
           (hs : list Keepalive.heard) : KeepaliveTracker.tracker :=
  fold_left (fun kt h => KeepaliveTracker.kt_HeardFrom
                           (Keepalive.h_now h) kt (Keepalive.h_id h)
                           (Keepalive.h_reset h)) hs kt.

(** The records of an [AvgTracker] at clock reading [T]: counts and totals
    are not negative, no record was written after [T], and the total of a
    record (in ms) is at most the time at which it was last written. *)
Definition avg_sane (n T : Z) (a : Keepalive.AvgTracker) : Prop :=
  forall id r, Keepalive.rec a !! id = Some r ->
    0 <= Keepalive.count r <= n
    /\ 0 <= Keepalive.last r <= T
    /\ 0 <= Keepalive.totalMS r
    /\ Keepalive.totalMS r * Keepalive.Millisecond <= Keepalive.last r.

(** The number of times the ticker of [retry] fires in a run of
    iterations. *)
Definition pticks {error : Type} (evs : list (ProxyKeepalive.pevent error))
  : nat :=
  length (List.filter (fun e => match e with
                                | ProxyKeepalive.PTick _ => true
                                | _ => false
                                end) evs).

(** The calls of [p.Health] made by the loop of [retry] so far have all
    failed, and [i] counts them. *)
Definition counting (st : ProxyKeepalive.retryState) : Prop :=
  ProxyKeepalive.r_i st = Z.of_nat (ProxyKeepalive.r_calls st)
  /\ 0 <= ProxyKeepalive.r_i st < Keepalive.kaNumRetries.

(** [staffIC] only re-selects the members of the information council: it
    leaves the targets alone and removes no proxy. *)
Definition keeps_nodes (staffIC : cluster.Smap -> cluster.Smap) : Prop :=
  forall m,
    cluster.Tmap (staffIC m) = cluster.Tmap m
    /\ forall key, cluster.Pmap (staffIC m) !! key = None ->
                   cluster.Pmap m !! key = None.

(** The node registered under [sid] in [m] is no longer in [m']. *)
Definition evicted (m m' : cluster.Smap) (sid : string) : Prop :=
  (is_Some (cluster.Tmap m !! sid) /\ cluster.Tmap m' !! sid = None)
  \/ (is_Some (cluster.Pmap m !! sid) /\ cluster.Pmap m' !! sid = None).

(** The goroutine [g] of a sweep pinged the node [si] and gave up on it
    without having been stopped: four calls of [p.Health], all failed. *)
Definition gaveUp {error : Type} (IsUnreachable : option error -> Z -> bool)
           (si : cluster.Snode) (g : ProxyKeepalive.goroutine error) : Prop :=
  ProxyKeepalive.g_stopSeen g = false
  /\ exists k0 r,
       ProxyKeepalive._pingRetry error IsUnreachable k0 si
         (ProxyKeepalive.g_health0 g) (ProxyKeepalive.g_evs g) = Some r
       /\ ProxyKeepalive.pr_ok r = false
       /\ ProxyKeepalive.pr_stopped r = false
       /\ ProxyKeepalive.pr_calls r = 4%nat.

(** [staffIC] only re-selects the members of the information council: the
    targets, the primary and the set of proxies are the ones of before. *)
Definition restaffs (staffIC : cluster.Smap -> cluster.Smap) : Prop :=
  forall m,
    cluster.Tmap (staffIC m) = cluster.Tmap m
    /\ cluster.Primary (staffIC m) = cluster.Primary m
    /\ forall key, cluster.Pmap (staffIC m) !! key = None
                   <-> cluster.Pmap m !! key = None.

(** The effect registers a rebalance listener. *)
Definition starts_rebalance (e : ais_rm.effect) : bool :=
  match e with
  | ais_rm.NotifsAdd _ _ => true
  | _ => false
  end.

(** The sample cluster with its second target in maintenance. *)
Definition sample_t2_maint : cluster.Snode :=
  cluster.mkSnode "t2" cluster.Target (sample.net "10.0.1.2")
                  (sample.net "10.0.1.2") (sample.net "10.0.1.2")
                  cluster.NodeFlagMaint.
Definition sample_smap_maint : cluster.Smap :=
  cluster.mkSmap {["t1" := sample.t1; "t2" := sample_t2_maint]}
                 {["p1" := sample.p1; "p2" := sample.p2]} (Some sample.p1) 7
                 "cluster-uuid".

(** The keepaliver holds no channels, or empty ones. *)
Definition no_carry_over (prev : option ProxyKeepalive.channels) : Prop :=
  forall ch, prev = Some ch ->
             ProxyKeepalive.stoppedCh ch = 0%nat
             /\ ProxyKeepalive.toRemoveCh ch = [].

(** * Properties *)

(** ** Machine arithmetic *)

Lemma wrap_in_range (z : Z) : I64.in_range z -> I64.wrap z = z.
Proof.
  unfold I64.in_range, I64.min_int, I64.max_int, I64.wrap. intros H.
  rewrite Z.mod_small; lia.
Qed.

Lemma in_range_bounds (z : Z) :
  I64.in_range z <-> - 9223372036854775808 <= z <= 9223372036854775807.
Proof. unfold I64.in_range, I64.min_int, I64.max_int. lia. Qed.

Lemma MinI64_min (a b : Z) : cos.MinI64 a b = Z.min a b.
Proof. unfold cos.MinI64. destruct (Z.ltb_spec a b); lia. Qed.

Lemma MaxI64_max (a b : Z) : cos.MaxI64 a b = Z.max a b.
Proof.
  unfold cos.MaxI64. rewrite Z.gtb_ltb. destruct (Z.ltb_spec b a); lia.
Qed.

Lemma DivRound_1000_exact (a : Z) :
  0 <= a <= 1000 * exact_bound ->
  cos.DivRound a 1000 = Keepalive.round_div a 1000.
Proof.
  unfold exact_bound, cos.DivRound, I64.quot, I64.add, Keepalive.round_div.
  intros Ha.
  change (1000 `quot` 2) with 500.
  rewrite (wrap_in_range 500) by (apply in_range_bounds; lia).
  rewrite (wrap_in_range (a + 500)) by (apply in_range_bounds; lia).
  rewrite Z.quot_div_nonneg by lia.
  assert (0 <= (a + 500) / 1000 <= a + 500).
  { split; [apply Z.div_pos; lia|]. apply Z.div_le_upper_bound; lia. }
  rewrite wrap_in_range by (apply in_range_bounds; lia).
  replace (2 * a + 1000) with (2 * (a + 500)) by lia.
  change (2 * 1000) with (2 * 1000).
  rewrite Z.div_mul_cancel_l by lia. reflexivity.
Qed.

Lemma round_div_1000_bounds (a : Z) :
  0 <= a -> 0 <= Keepalive.round_div a 1000 <= a / 1000 + 1.
Proof.
  intros Ha. unfold Keepalive.round_div.
  pose proof (Z.div_mod a 1000 ltac:(lia)).
  pose proof (Z.mod_pos_bound a 1000 ltac:(lia)).
  pose proof (Z.div_mod (2 * a + 1000) (2 * 1000) ltac:(lia)).
  pose proof (Z.mod_pos_bound (2 * a + 1000) (2 * 1000) ltac:(lia)).
  lia.
Qed.

Lemma round_div_1000_between (n lo hi : Z) :
  1000 * lo <= n <= 1000 * hi ->
  lo <= Keepalive.round_div n 1000 <= hi.
Proof.
  intros H. unfold Keepalive.round_div.
  change (2 * 1000) with 2000.
  pose proof (Z.div_mod (2 * n + 1000) 2000 ltac:(lia)).
  pose proof (Z.mod_pos_bound (2 * n + 1000) 2000 ltac:(lia)).
  lia.
Qed.

Lemma updateStats_exact (maxKA d : Z) (ts : Keepalive.timeoutStats) :
  0 <= d <= exact_bound ->
  0 <= Keepalive.srtt ts <= exact_bound ->
  0 <= Keepalive.rttvar ts <= exact_bound ->
  0 <= maxKA <= exact_bound ->
  Keepalive.updateStats maxKA ts d = Keepalive.spec_update maxKA ts d.
Proof.
  intros Hd Hs Hv Hm. unfold exact_bound in *.
  unfold Keepalive.updateStats, Keepalive.spec_update.
  unfold Keepalive.alpha, Keepalive.beta, Keepalive.c.
  destruct ts as [s v t]; simpl in *.
  change (1000 - 250) with 750. change (1000 - 125) with 875.
  unfold I64.sub, I64.mul, I64.add.
  rewrite (wrap_in_range (s - d)) by (apply in_range_bounds; lia).
  assert (Habs : cos.AbsI64 (s - d) = Z.abs (s - d)).
  { unfold cos.AbsI64, I64.neg. destruct (Z.ltb_spec (s - d) 0).
    - rewrite wrap_in_range by (apply in_range_bounds; lia). lia.
    - lia. }
  rewrite Habs.
  assert (0 <= Z.abs (s - d) <= 2 ^ 53) by lia.
  rewrite (wrap_in_range (750 * v)) by (apply in_range_bounds; lia).
  rewrite (wrap_in_range (250 * Z.abs (s - d))) by (apply in_range_bounds; lia).
  rewrite (wrap_in_range (750 * v + _)) by (apply in_range_bounds; lia).
  rewrite (wrap_in_range (875 * s)) by (apply in_range_bounds; lia).
  rewrite (wrap_in_range (125 * d)) by (apply in_range_bounds; lia).
  rewrite (wrap_in_range (875 * s + _)) by (apply in_range_bounds; lia).
  rewrite !DivRound_1000_exact by (unfold exact_bound; lia).
  set (v' := Keepalive.round_div (750 * v + 250 * Z.abs (s - d)) 1000).
  set (s' := Keepalive.round_div (875 * s + 125 * d) 1000).
  assert (Hv' : 0 <= v' <= 2 ^ 53 + 1).
  { pose proof (round_div_1000_bounds (750 * v + 250 * Z.abs (s - d)) ltac:(lia)).
    fold v' in H0.
    assert ((750 * v + 250 * Z.abs (s - d)) / 1000 <= 2 ^ 53)
      by (apply Z.div_le_upper_bound; lia).
    lia. }
  assert (Hs' : 0 <= s' <= 2 ^ 53 + 1).
  { pose proof (round_div_1000_bounds (875 * s + 125 * d) ltac:(lia)).
    fold s' in H0.
    assert ((875 * s + 125 * d) / 1000 <= 2 ^ 53)
      by (apply Z.div_le_upper_bound; lia).
    lia. }
  rewrite (wrap_in_range (4 * v')) by (apply in_range_bounds; lia).
  rewrite (wrap_in_range (s' + _)) by (apply in_range_bounds; lia).
  unfold I64.quot. rewrite Z.quot_div_nonneg by lia.
  assert (0 <= maxKA / 2 <= maxKA).
  { split; [apply Z.div_pos; lia|]. apply Z.div_le_upper_bound; lia. }
  rewrite (wrap_in_range (maxKA / 2)) by (apply in_range_bounds; lia).
  rewrite MaxI64_max, MinI64_min. unfold Keepalive.clamp.
  f_equal. lia.
Qed.

(** ** Adaptive timeouts *)

Section TimeoutStats.

Import Keepalive.

Lemma quot2_exact (mk : Z) :
  0 <= mk -> I64.in_range mk -> I64.quot mk 2 = mk / 2.
Proof.
  intros H0 Hr. unfold I64.quot. rewrite Z.quot_div_nonneg by lia.
  apply wrap_in_range. apply in_range_bounds.
  apply (proj1 (in_range_bounds _)) in Hr.
  assert (0 <= mk / 2 <= mk).
  { split; [apply Z.div_pos; lia|]. apply Z.div_le_upper_bound; lia. }
  lia.
Qed.

Lemma timeoutStatsForDaemon_present (k : keepalive) (sid : string) :
  let '(k1, ts) := timeoutStatsForDaemon k sid in
  tt k1 !! sid = Some ts /\ maxKeepalive k1 = maxKeepalive k
  /\ forall other, other <> sid -> tt k1 !! other = tt k !! other.
Proof.
  unfold timeoutStatsForDaemon.
  destruct (tt k !! sid) as [ts|] eqn:E; simpl.
  - auto.
  - split; [apply lookup_insert_eq|]. split; [reflexivity|].
    intros other Hne. apply lookup_insert_ne. congruence.
Qed.

Lemma updateTimeoutForDaemon_unfold (k : keepalive) (sid : string) (d : Z) :
  updateTimeoutForDaemon k sid d =
  let ts' := updateStats (maxKeepalive k) (snd (timeoutStatsForDaemon k sid)) d in
  ({| maxKeepalive := maxKeepalive k;
      tt := <[sid := ts']> (tt (fst (timeoutStatsForDaemon k sid))) |},
   timeout ts').
Proof.
  unfold updateTimeoutForDaemon.
  pose proof (timeoutStatsForDaemon_present k sid) as H.
  destruct (timeoutStatsForDaemon k sid) as [k1 ts]. simpl.
  destruct H as (_ & -> & _). reflexivity.
Qed.

Lemma updateStats_timeout_bounds (mk d : Z) (ts : timeoutStats) :
  0 < mk -> I64.in_range mk ->
  mk / 2 <= timeout (updateStats mk ts d) <= mk.
Proof.
  intros Hpos Hr. unfold updateStats. cbn [timeout].
  rewrite MaxI64_max, MinI64_min, quot2_exact by (auto; lia).
  assert (mk / 2 <= mk) by (apply Z.div_le_upper_bound; lia).
  lia.
Qed.

Lemma materialised_bounds (mk : Z) :
  0 < mk -> I64.in_range mk ->
  mk / 2 <= timeout {| srtt := mk; rttvar := I64.quot mk 2; timeout := mk |} <= mk.
Proof.
  intros Hpos Hr. cbn [timeout].
  assert (mk / 2 <= mk) by (apply Z.div_le_upper_bound; lia). lia.
Qed.

Lemma timeoutStatsForDaemon_bounds (M : Z -> Prop) (k : keepalive) (sid : string) :
  (forall m, M m -> valid_maxKeepalive m) -> within_bounds M k ->
  within_bounds M (fst (timeoutStatsForDaemon k sid))
  /\ exists m, M m /\ m / 2 <= timeout (snd (timeoutStatsForDaemon k sid)) <= m.
Proof.
  intros HM [Hmk Hall]. unfold timeoutStatsForDaemon.
  destruct (tt k !! sid) as [ts|] eqn:E; simpl.
  - split; [split; auto|]. eauto.
  - destruct (HM _ Hmk) as [Hpos Hr].
    assert (Hnew : exists m, M m /\ m / 2
                     <= timeout {| srtt := maxKeepalive k;
                                   rttvar := I64.quot (maxKeepalive k) 2;
                                   timeout := maxKeepalive k |} <= m).
    { exists (maxKeepalive k). split; [exact Hmk|].
      apply materialised_bounds; auto. }
    split; [|exact Hnew].
    split; [exact Hmk|]. intros sid' ts'. cbn [tt].
    rewrite lookup_insert. case_decide.
    + intros [= <-]. exact Hnew.
    + apply Hall.
Qed.

Lemma updateTimeoutForDaemon_bounds (M : Z -> Prop) (k : keepalive)
      (sid : string) (d : Z) :
  (forall m, M m -> valid_maxKeepalive m) -> within_bounds M k ->
  within_bounds M (fst (updateTimeoutForDaemon k sid d))
  /\ maxKeepalive k / 2 <= snd (updateTimeoutForDaemon k sid d) <= maxKeepalive k.
Proof.
  intros HM Hk. rewrite updateTimeoutForDaemon_unfold. cbn zeta. simpl.
  pose proof (timeoutStatsForDaemon_bounds M k sid HM Hk) as [[_ H1] _].
  destruct Hk as [Hmk _]. destruct (HM _ Hmk) as [Hpos Hr].
  split; [|apply updateStats_timeout_bounds; auto].
  split; [exact Hmk|]. intros sid' ts'. cbn [tt].
  rewrite lookup_insert. case_decide.
  - intros [= <-]. exists (maxKeepalive k). split; [exact Hmk|].
    apply updateStats_timeout_bounds; auto.
  - apply H1.
Qed.

Lemma ttStep_bounds (M : Z -> Prop) (k : keepalive) (op : ttOp) :
  (forall m, M m -> valid_maxKeepalive m) ->
  Forall M (configured [op]) -> within_bounds M k ->
  within_bounds M (fst (ttStep k op))
  /\ forall r, snd (ttStep k op) = Some r -> exists m, M m /\ m / 2 <= r <= m.
Proof.
  intros HM Hop Hk. destruct op as [sid|sid d|m]; simpl.
  - pose proof (timeoutStatsForDaemon_bounds M k sid HM Hk) as [H1 H2].
    destruct (timeoutStatsForDaemon k sid); simpl in *.
    split; [exact H1|]. intros r [= <-]. exact H2.
  - pose proof (updateTimeoutForDaemon_bounds M k sid d HM Hk) as [H1 H2].
    destruct (updateTimeoutForDaemon k sid d); simpl in *.
    split; [exact H1|]. intros r' [= <-].
    exists (maxKeepalive k). split; [apply Hk | exact H2].
  - simpl in Hop. apply Forall_cons_iff in Hop as [Hm _].
    split; [|discriminate]. split; [exact Hm | apply Hk].
Qed.

Lemma configured_cons (op : ttOp) (ops : list ttOp) :
  configured (op :: ops) = configured [op] ++ configured ops.
Proof. destruct op; reflexivity. Qed.

Lemma ttRun_bounds (M : Z -> Prop) (ops : list ttOp) :
  (forall m, M m -> valid_maxKeepalive m) ->
  Forall M (configured ops) ->
  forall k, within_bounds M k ->
  within_bounds M (fst (ttRun k ops))
  /\ Forall (fun r => exists m, M m /\ m / 2 <= r <= m) (snd (ttRun k ops)).
Proof.
  intros HM. induction ops as [|op ops IH]; intros Hops k Hk.
  - split; [exact Hk | constructor].
  - rewrite configured_cons in Hops. apply Forall_app in Hops as [Hop Hops].
    pose proof (ttStep_bounds M k op HM Hop Hk) as [H1 H2].
    simpl. destruct (ttStep k op) as [k1 r]. simpl in H1, H2.
    specialize (IH Hops k1 H1). destruct (ttRun k1 ops) as [k2 rs]. simpl in *.
    destruct IH as [IH1 IH2]. split; [exact IH1|].
    destruct r as [r|]; [constructor; auto | exact IH2].
Qed.

Lemma last_cons_default (l : list Z) :
  forall a d d', List.last (a :: l) d = List.last (a :: l) d'.
Proof.
  induction l as [|b l IH]; intros a d d'; [reflexivity|].
  change (List.last (b :: l) d = List.last (b :: l) d'). apply IH.
Qed.

Lemma ttRun_maxKeepalive (ops : list ttOp) :
  forall k, maxKeepalive (fst (ttRun k ops)) = List.last (configured ops) (maxKeepalive k).
Proof.
  induction ops as [|op ops IH]; intros k; [reflexivity|].
  simpl. destruct (ttStep k op) as [k1 r] eqn:E.
  specialize (IH k1). destruct (ttRun k1 ops) as [k2 rs]. simpl in *.
  rewrite IH. destruct op as [sid|sid d|m]; simpl in E.
  - pose proof (timeoutStatsForDaemon_present k sid) as H.
    destruct (timeoutStatsForDaemon k sid). injection E as <- _.
    destruct H as (_ & -> & _). reflexivity.
  - rewrite updateTimeoutForDaemon_unfold in E. cbn zeta in E.
    injection E as <- _. reflexivity.
  - injection E as <- _. simpl.
    destruct (configured ops) as [|z l]; [reflexivity|].
    apply last_cons_default.
Qed.

Lemma newKeepalive_within_bounds (M : Z -> Prop) (mk : Z) :
  M mk -> within_bounds M (newKeepalive mk).
Proof.
  intros HM. split; [exact HM|]. intros sid ts. simpl.
  rewrite lookup_empty. discriminate.
Qed.

Lemma within_bounds_constant (mk : Z) (k : keepalive) :
  within_bounds (fun m => m = mk) k ->
  maxKeepalive k = mk
  /\ forall sid ts, tt k !! sid = Some ts -> mk / 2 <= timeout ts <= mk.
Proof.
  intros [Hmk Hall]. split; [exact Hmk|]. intros sid ts H.
  destruct (Hall _ _ H) as (m & -> & Hb). exact Hb.
Qed.

End TimeoutStats.



(** C3 (as amended).  Start from the tracker a keepaliver is created with, with
    maxKeepalive > 0, and run any sequence of [timeoutStatsForDaemon] and
    [updateTimeoutForDaemon] calls, for any peers and with arbitrary
    durations (non-negative ones in particular), and of updates of the
    cached maxKeepalive by [configUpdate] to positive values.  Then the
    cached maxKeepalive is the last one configured; a peer [P] without an
    entry materialises with srtt = maxKeepalive, rttvar = maxKeepalive/2
    and timeout = maxKeepalive; what a call of [updateTimeoutForDaemon]
    stores and returns lies in [maxKeepalive/2, maxKeepalive]; every stored
    timeout, every timeout a call returned, and the timeout read for [P]
    lie in [m/2, m] for one of the values [m] that maxKeepalive had during
    the run.  When [configUpdate] never changed maxKeepalive, that is
    [maxKeepalive/2, maxKeepalive] for all of them. *)
Theorem timeout_within_bounds (mk : Z) (ops : list Keepalive.ttOp) (P : string) :
  valid_maxKeepalive mk ->
  Forall valid_maxKeepalive (Keepalive.configured ops) ->
  let k := fst (Keepalive.ttRun (Keepalive.newKeepalive mk) ops) in
  let rets := snd (Keepalive.ttRun (Keepalive.newKeepalive mk) ops) in
  let now := Keepalive.maxKeepalive k in
  let was := fun m => In m (mk :: Keepalive.configured ops) in
  now = List.last (Keepalive.configured ops) mk
  /\ (Keepalive.tt k !! P = None ->
      snd (Keepalive.timeoutStatsForDaemon k P)
      = Keepalive.mkTimeoutStats now (now / 2) now
      /\ Keepalive.tt (fst (Keepalive.timeoutStatsForDaemon k P)) !! P
         = Some (Keepalive.mkTimeoutStats now (now / 2) now))
  /\ (forall sid d,
        let k' := fst (Keepalive.updateTimeoutForDaemon k sid d) in
        let ret := snd (Keepalive.updateTimeoutForDaemon k sid d) in
        now / 2 <= ret <= now
        /\ exists ts, Keepalive.tt k' !! sid = Some ts
                      /\ Keepalive.timeout ts = ret)
  /\ (forall sid ts, Keepalive.tt k !! sid = Some ts ->
        exists m, was m /\ m / 2 <= Keepalive.timeout ts <= m)
  /\ Forall (fun r => exists m, was m /\ m / 2 <= r <= m) rets
  /\ (exists m, was m
        /\ m / 2 <= Keepalive.timeout (snd (Keepalive.timeoutStatsForDaemon k P)) <= m)
  /\ (Forall (fun m => m = mk) (Keepalive.configured ops) ->
      now = mk
      /\ (forall sid ts, Keepalive.tt k !! sid = Some ts ->
            mk / 2 <= Keepalive.timeout ts <= mk)
      /\ Forall (fun r => mk / 2 <= r <= mk) rets
      /\ mk / 2 <= Keepalive.timeout (snd (Keepalive.timeoutStatsForDaemon k P)) <= mk).
Proof.
  intros Hmk Hops k rets now was.
  assert (HM : forall m, was m -> valid_maxKeepalive m).
  { intros m [<-|Hin]; [exact Hmk|].
    exact (proj1 (List.Forall_forall _ _) Hops m Hin). }
  assert (Hwas : Forall was (Keepalive.configured ops)).
  { apply List.Forall_forall. intros m Hin. right. exact Hin. }
  pose proof (ttRun_bounds was ops HM Hwas _
                (newKeepalive_within_bounds was mk (or_introl eq_refl)))
    as [Hk Hrets].
  fold k in Hk. fold rets in Hrets.
  assert (Hnow : valid_maxKeepalive now) by (apply HM, Hk).
  destruct Hnow as [Hpos Hr].
  split; [apply (ttRun_maxKeepalive ops (Keepalive.newKeepalive mk))|].
  split; [|split; [|split; [|split; [|split]]]].
  - intros Hnone. unfold Keepalive.timeoutStatsForDaemon. rewrite Hnone.
    cbn [fst snd Keepalive.tt]. fold now.
    rewrite quot2_exact by (auto; lia).
    split; [reflexivity | apply lookup_insert_eq].
  - intros sid d. cbv zeta.
    split; [apply (updateTimeoutForDaemon_bounds was k sid d HM Hk)|].
    rewrite updateTimeoutForDaemon_unfold. cbv zeta. cbn [fst snd Keepalive.tt].
    eexists. split; [apply lookup_insert_eq | reflexivity].
  - apply Hk.
  - exact Hrets.
  - apply (timeoutStatsForDaemon_bounds was k P HM Hk).
  - intros Hsame.
    assert (HM1 : forall m, m = mk -> valid_maxKeepalive m) by (intros m ->; exact Hmk).
    pose proof (ttRun_bounds (fun m => m = mk) ops HM1 Hsame _
                  (newKeepalive_within_bounds (fun m => m = mk) mk eq_refl))
      as [Hk1 Hrets1].
    fold k in Hk1. fold rets in Hrets1.
    pose proof (within_bounds_constant mk k Hk1) as [Hmk1 Hall1].
    split; [exact Hmk1|]. split; [exact Hall1|]. split.
    + eapply Forall_impl; [exact Hrets1|]. cbn beta.
      intros r (m & -> & Hb). exact Hb.
    + destruct (timeoutStatsForDaemon_bounds (fun m => m = mk) k P HM1 Hk1)
        as [_ (m & -> & Hb)]. exact Hb.
Qed.

Lemma timeout_within_bounds_witness :
  Forall (fun r => 2000000000 <= r <= 4000000000)
         (snd (Keepalive.ttRun (Keepalive.newKeepalive 4000000000)
                 [Keepalive.OpUpdate "t1" 400000000;
                  Keepalive.OpStats "t2";
                  Keepalive.OpConfig 4000000000;
                  Keepalive.OpUpdate "t1" 400000000])).
Proof.
  assert (Hv : valid_maxKeepalive 4000000000)
    by (split; [lia | apply in_range_bounds; lia]).
  pose proof (timeout_within_bounds 4000000000
                [Keepalive.OpUpdate "t1" 400000000;
                 Keepalive.OpStats "t2";
                 Keepalive.OpConfig 4000000000;
                 Keepalive.OpUpdate "t1" 400000000] "t3"
                Hv ltac:(repeat constructor; apply Hv)) as H.
  cbv zeta in H. destruct H as (_ & _ & _ & _ & _ & _ & H).
  destruct (H ltac:(repeat constructor)) as (_ & _ & H' & _).
  change (4000000000 / 2) with 2000000000 in H'. exact H'.
Defined.

(** [configUpdate], as [Run] calls it on every tick, is the step [OpConfig]
    of a run of the tracker. *)
Lemma configUpdate_is_OpConfig (kr kr' : KeepaliveTracker.keepaliver) (m : Z)
      (cfg : KeepaliveTracker.KeepaliveTrackerConf) :
  KeepaliveTracker.configUpdate kr m cfg = Some kr' ->
  KeepaliveTracker.ka kr'
  = fst (Keepalive.ttStep (KeepaliveTracker.ka kr) (Keepalive.OpConfig m)).
Proof.
  unfold KeepaliveTracker.configUpdate.
  destruct (KeepaliveTracker.kt kr) as [t|]; [|discriminate].
  destruct (negb _); intros [= <-]; reflexivity.
Qed.

(** C3, as stated, fails once [configUpdate] changes maxKeepalive: a
    timeout that was stored under a maxKeepalive of 4s is still read after
    [configUpdate] lowered maxKeepalive to 1s; it is above maxKeepalive,
    outside of [maxKeepalive/2, maxKeepalive]. *)
Lemma timeout_outlives_configUpdate :
  let kr := {| KeepaliveTracker.ka :=
                 fst (Keepalive.timeoutStatsForDaemon
                        (Keepalive.newKeepalive 4000000000) "p1");
               KeepaliveTracker.kt :=
                 Some (KeepaliveTracker.HB (KeepaliveTracker.newHBTracker 10000000000));
               KeepaliveTracker.interval := 10000000000 |} in
  let cfg := {| KeepaliveTracker.Name := KeepaliveTracker.KeepaliveHeartbeatType;
                KeepaliveTracker.Interval := 10000000000;
                KeepaliveTracker.Factor := 3 |} in
  exists kr',
    KeepaliveTracker.configUpdate kr 1000000000 cfg = Some kr'
    /\ KeepaliveTracker.ka kr'
       = fst (Keepalive.ttRun (Keepalive.newKeepalive 4000000000)
                [Keepalive.OpStats "p1"; Keepalive.OpConfig 1000000000])
    /\ Keepalive.maxKeepalive (KeepaliveTracker.ka kr') = 1000000000
    /\ Keepalive.timeout
         (snd (Keepalive.timeoutStatsForDaemon (KeepaliveTracker.ka kr') "p1"))
       = 4000000000
    /\ ~ (Keepalive.maxKeepalive (KeepaliveTracker.ka kr') / 2
          <= Keepalive.timeout
               (snd (Keepalive.timeoutStatsForDaemon (KeepaliveTracker.ka kr') "p1"))
          <= Keepalive.maxKeepalive (KeepaliveTracker.ka kr')).
Proof.
  intros kr cfg. eexists. split; [vm_compute; reflexivity|].
  split; [vm_compute; reflexivity|].
  split; [reflexivity|]. split; [vm_compute; reflexivity|].
  vm_compute. intros [_ H]. apply H. reflexivity.
Qed.

(** ** The average tracker *)

Section AvgTrackerFacts.

Import Keepalive.

Lemma HeardFrom_counts (n now : Z) (a : AvgTracker) (id : string) (reset : bool) :
  0 <= n -> n + 1 < 2 ^ 63 ->
  counts_upto n a -> counts_upto (n + 1) (HeardFrom now a id reset).
Proof.
  intros Hn Hlt Ha id' r'. unfold HeardFrom.
  destruct (rec a !! id) as [r|] eqn:E; [destruct reset|]; cbn [rec];
    rewrite lookup_insert; case_decide; subst;
    try (intros [= <-]; cbn [count]; lia);
    try (intros H'; specialize (Ha _ _ H'); lia).
  intros [= <-]. cbn [count]. specialize (Ha _ _ E).
  unfold I64.add. rewrite wrap_in_range by (apply in_range_bounds; lia). lia.
Qed.

Lemma heardAll_counts (hs : list heard) :
  forall (n : Z) (a : AvgTracker),
    0 <= n -> n + Z.of_nat (length hs) < 2 ^ 63 ->
    counts_upto n a -> counts_upto (n + Z.of_nat (length hs)) (heardAll a hs).
Proof.
  induction hs as [|h hs IH]; intros n a Hn Hlt Ha.
  - cbn [heardAll fold_left length]. replace (n + Z.of_nat 0) with n by lia. exact Ha.
  - cbn [heardAll fold_left length] in *.
    replace (n + Z.of_nat (S (length hs))) with ((n + 1) + Z.of_nat (length hs)) by lia.
    apply IH; [lia | lia |]. apply HeardFrom_counts; auto. lia.
Qed.

Lemma newAvgTracker_counts (f : Z) : counts_upto 0 (newAvgTracker f).
Proof. intros id r. simpl. rewrite lookup_empty. discriminate. Qed.

End AvgTrackerFacts.

(** C10.  [AvgTracker.TimedOut] returns for every tracker and id and never
    divides by zero: without a record it returns true; on a record whose
    count is 0 it returns false without computing the average, which is the
    state [HeardFrom] leaves behind for a new id or with reset = true;
    otherwise [avg] divides by a non-zero count.  On a tracker built by
    [newAvgTracker] and fewer than 2^63 calls of [HeardFrom] counts are never
    negative, so the division is reached with count > 0 only. *)
Theorem AvgTracker_TimedOut_total
        (now : Z) (a : Keepalive.AvgTracker) (id : string) :
  is_Some (Keepalive.TimedOut now a id)
  /\ (Keepalive.rec a !! id = None -> Keepalive.TimedOut now a id = Some true)
  /\ (forall r, Keepalive.rec a !! id = Some r -> Keepalive.count r = 0 ->
        Keepalive.TimedOut now a id = Some false)
  /\ (forall t reset, reset = true \/ Keepalive.rec a !! id = None ->
        Keepalive.TimedOut now (Keepalive.HeardFrom t a id reset) id = Some false)
  /\ (forall r, Keepalive.rec a !! id = Some r -> Keepalive.count r <> 0 ->
        Keepalive.avg r
        = Some (I64.quot (Keepalive.totalMS r) (Keepalive.count r))
        /\ Keepalive.TimedOut now a id
           = Some (I64.quot (I64.sub now (Keepalive.last r)) Keepalive.Millisecond
                   >? I64.mul (Keepalive.factor a)
                              (I64.quot (Keepalive.totalMS r) (Keepalive.count r))))
  /\ (forall f hs r,
        Z.of_nat (length hs) < 2 ^ 63 ->
        a = Keepalive.heardAll (Keepalive.newAvgTracker f) hs ->
        Keepalive.rec a !! id = Some r ->
        0 <= Keepalive.count r
        /\ (Keepalive.avg r <> None -> 0 < Keepalive.count r)).
Proof.
  unfold Keepalive.TimedOut, Keepalive.avg.
  split; [|split; [|split; [|split; [|split]]]].
  - destruct (Keepalive.rec a !! id) as [r|]; [|eauto].
    destruct (Keepalive.count r =? 0); eauto.
  - intros ->. reflexivity.
  - intros r -> ->. reflexivity.
  - intros t reset H. unfold Keepalive.HeardFrom.
    destruct (Keepalive.rec a !! id) as [r|] eqn:E.
    + destruct H as [->|H]; [|discriminate].
      cbn [Keepalive.rec]. rewrite lookup_insert_eq. reflexivity.
    + cbn [Keepalive.rec]. rewrite lookup_insert_eq. reflexivity.
  - intros r -> Hc. apply Z.eqb_neq in Hc. rewrite Hc. split; reflexivity.
  - intros f hs r Hlen -> Hr.
    pose proof (heardAll_counts hs 0 (Keepalive.newAvgTracker f)
                  ltac:(lia) ltac:(lia) (newAvgTracker_counts f) _ _ Hr) as Hc.
    split; [lia|]. destruct (Z.eqb_spec (Keepalive.count r) 0); [congruence|lia].
Qed.

Lemma AvgTracker_TimedOut_total_witness :
  Keepalive.TimedOut 12000000000
    (Keepalive.heardAll (Keepalive.newAvgTracker 3)
       [Keepalive.mkHeard 1000000000 "t1" false;
        Keepalive.mkHeard 3000000000 "t1" false;
        Keepalive.mkHeard 5000000000 "t1" false]) "t1"
  = Some true.
Proof.
  pose proof (AvgTracker_TimedOut_total 12000000000
                (Keepalive.heardAll (Keepalive.newAvgTracker 3)
                   [Keepalive.mkHeard 1000000000 "t1" false;
                    Keepalive.mkHeard 3000000000 "t1" false;
                    Keepalive.mkHeard 5000000000 "t1" false]) "t1") as H.
  destruct H as (_ & _ & _ & _ & Hdiv & Hreach).
  pose proof (Hreach 3
                [Keepalive.mkHeard 1000000000 "t1" false;
                 Keepalive.mkHeard 3000000000 "t1" false;
                 Keepalive.mkHeard 5000000000 "t1" false]
                (Keepalive.mkAvgTrackerRec 2 5000000000 4000)
                ltac:(simpl; lia) eq_refl ltac:(vm_compute; reflexivity)) as [_ Hpos].
  destruct (Hdiv (Keepalive.mkAvgTrackerRec 2 5000000000 4000)
                 ltac:(vm_compute; reflexivity) ltac:(simpl; lia)) as [_ ->].
  vm_compute. reflexivity.
Defined.

(** ** The heartbeat retry loop *)

Section RegisterFacts.

Import Keepalive.

Variable error : Type.
Variable IsRetriableConnErr : option error -> bool.
Variable IsUnreachable : option error -> Z -> bool.

Local Abbreviation retryTick := (retryTick error IsRetriableConnErr IsUnreachable).
Local Abbreviation retryLoop := (retryLoop error IsRetriableConnErr IsUnreachable).
Local Abbreviation register := (register error IsRetriableConnErr IsUnreachable).

Lemma retryTick_state (pid : string) (st : loopState error)
      (send : Z -> sendResult error) (stopping : bool) :
  let r := send (cur_timeout st) in
  let d := if IsRetriableConnErr (err r) then maxKeepalive (kl st) else elapsed r in
  fst (retryTick pid st send stopping)
  = {| kl := fst (updateTimeoutForDaemon (kl st) pid d);
       cur_timeout := snd (updateTimeoutForDaemon (kl st) pid d);
       i := I64.add (i st) 1;
       cur_status := status r;
       cur_err := err r |}.
Proof.
  cbv zeta. unfold Keepalive.retryTick.
  destruct (updateTimeoutForDaemon _ _ _) as [k' t'].
  destruct (err (send (cur_timeout st))); simpl; [|reflexivity].
  repeat match goal with |- context [if ?b then _ else _] => destruct b end;
    reflexivity.
Qed.

Lemma retryTick_outcome (pid : string) (st : loopState error)
      (send : Z -> sendResult error) (stopping : bool) :
  0 <= i st < kaNumRetries ->
  let st' := fst (retryTick pid st send stopping) in
  i st' = i st + 1 /\
  match snd (retryTick pid st send stopping) with
  | Return false => cur_err st' = None
  | Return true => cur_err st' <> None
  | Continue => cur_err st' <> None /\ i st' < kaNumRetries
  end.
Proof.
  unfold kaNumRetries. intros Hi. cbv zeta.
  rewrite retryTick_state. cbv zeta. cbn [i cur_err].
  assert (Hadd : I64.add (i st) 1 = i st + 1).
  { unfold I64.add. apply wrap_in_range, in_range_bounds. lia. }
  split; [exact Hadd|].
  unfold Keepalive.retryTick.
  destruct (updateTimeoutForDaemon _ _ _) as [k' t'].
  rewrite Hadd.
  destruct (err (send (cur_timeout st))) as [e|] eqn:E; cbn [snd]; [|reflexivity].
  unfold kaNumRetries.
  destruct (Z.eqb_spec (i st + 1) 3); cbn [snd]; [discriminate|].
  destruct (IsUnreachable _ _); cbn [snd]; [split; [discriminate | lia]|].
  destruct stopping; cbn [snd]; [discriminate | split; [discriminate | lia]].
Qed.

Lemma retryLoop_result (pid : string) (evs : list (event error)) :
  forall st : loopState error,
    0 <= i st < kaNumRetries -> cur_err st <> None ->
    forall st' stopped,
      retryLoop pid evs st = Some (st', stopped) ->
      0 <= i st' <= kaNumRetries
      /\ (cur_err st' = None -> stopped = false)
      /\ (i st' = kaNumRetries -> cur_err st' <> None -> stopped = true).
Proof.
  induction evs as [|e evs IH]; intros st Hi Herr st' stopped; [discriminate|].
  destruct e as [send stopping|msg]; cbn [Keepalive.retryLoop].
  - pose proof (retryTick_outcome pid st send stopping Hi) as H.
    cbv zeta in H.
    destruct (retryTick pid st send stopping) as [st1 out].
    cbn [fst snd] in H. destruct H as [Hi1 Hout].
    destruct out as [b|].
    + intros [= <- <-]. unfold kaNumRetries in *.
      split; [lia|]. destruct b; split; congruence.
    + destruct Hout as [He Hlt]. apply IH; [lia | exact He].
  - destruct (String.eqb msg kaStopMsg).
    + intros [= <- <-]. unfold kaNumRetries in *.
      split; [lia|]. split; [congruence | lia].
    + apply IH; assumption.
Qed.

Lemma retryLoop_returns (pid : string) (evs : list (event error)) :
  forall st : loopState error,
    0 <= i st < kaNumRetries ->
    (Z.to_nat (kaNumRetries - i st) <= ticks evs)%nat ->
    is_Some (retryLoop pid evs st).
Proof.
  unfold ticks.
  induction evs as [|e evs IH]; intros st Hi Hn.
  - unfold kaNumRetries in *. simpl in Hn. lia.
  - destruct e as [send stopping|msg]; cbn [Keepalive.retryLoop].
    + pose proof (retryTick_outcome pid st send stopping Hi) as H.
      cbv zeta in H.
      destruct (retryTick pid st send stopping) as [st1 out].
      cbn [fst snd] in H. destruct H as [Hi1 Hout].
      destruct out as [b|]; [eauto|].
      destruct Hout as [_ Hlt]. apply IH; [lia|].
      simpl in Hn. unfold kaNumRetries in *. lia.
    + destruct (String.eqb msg kaStopMsg); [eauto|].
      apply IH; [assumption|]. simpl in Hn. exact Hn.
Qed.

Lemma register_result (k : keepalive) (send0 : Z -> sendResult error)
      (evs : list (event error)) (pid : string) (st : loopState error)
      (stopped : bool) :
  register k send0 evs pid = Some (st, stopped) ->
  0 <= i st <= kaNumRetries
  /\ (cur_err st = None -> stopped = false)
  /\ (i st = kaNumRetries -> cur_err st <> None -> stopped = true).
Proof.
  unfold Keepalive.register.
  destruct (timeoutStatsForDaemon k pid) as [k0 ts].
  destruct (err (send0 (timeout ts))) as [e|] eqn:E.
  - intros H. refine (retryLoop_result pid evs _ _ _ st stopped H); cbn [i cur_err].
    + unfold kaNumRetries. lia.
    + discriminate.
  - intros [= <- <-]. cbn [i cur_err]. unfold kaNumRetries.
    split; [lia|]. split; [reflexivity | lia].
Qed.

Lemma register_returns (k : keepalive) (send0 : Z -> sendResult error)
      (evs : list (event error)) (pid : string) :
  (3 <= ticks evs)%nat -> is_Some (register k send0 evs pid).
Proof.
  intros Hn. unfold Keepalive.register.
  destruct (timeoutStatsForDaemon k pid) as [k0 ts].
  destruct (err (send0 (timeout ts))) as [e|] eqn:E; [|eauto].
  apply retryLoop_returns; cbn [i]; unfold kaNumRetries; [lia|].
  simpl. lia.
Qed.

Lemma ticks_cons (e : event error) (evs : list (event error)) :
  ticks (e :: evs)
  = (match e with Tick _ _ => 1 | Control _ => 0 end + ticks evs)%nat.
Proof. destruct e; reflexivity. Qed.

Lemma add1_exact (n : Z) : 0 <= n <= kaNumRetries -> I64.add n 1 = n + 1.
Proof.
  unfold kaNumRetries. intros H. unfold I64.add.
  apply wrap_in_range, in_range_bounds. lia.
Qed.

(** The three ways in which a tick ends the loop, and the one in which it
    does not. *)
Lemma retryTick_succeeds (pid : string) (st : loopState error)
      (send : Z -> sendResult error) (stopping : bool) :
  succeeds send ->
  snd (retryTick pid st send stopping) = Return false
  /\ cur_err (fst (retryTick pid st send stopping)) = None.
Proof.
  intros Hs. unfold Keepalive.retryTick.
  destruct (updateTimeoutForDaemon _ _ _) as [k' t'].
  rewrite (Hs (cur_timeout st)). split; reflexivity.
Qed.

Lemma retryTick_fails (pid : string) (st : loopState error)
      (send : Z -> sendResult error) (stopping : bool) :
  fails send -> 0 <= i st < kaNumRetries ->
  cur_err (fst (retryTick pid st send stopping)) <> None
  /\ snd (retryTick pid st send stopping)
     = if i st + 1 =? kaNumRetries then Return true
       else if IsUnreachable (err (send (cur_timeout st)))
                             (status (send (cur_timeout st)))
            then Continue
            else if stopping then Return true else Continue.
Proof.
  intros Hf Hi. unfold Keepalive.retryTick.
  destruct (updateTimeoutForDaemon _ _ _) as [k' t'].
  rewrite add1_exact by lia.
  specialize (Hf (cur_timeout st)).
  destruct (err (send (cur_timeout st))) as [e|]; [|congruence].
  split.
  - repeat match goal with |- context [if ?b then _ else _] => destruct b end;
      cbn; discriminate.
  - repeat match goal with |- context [if ?b then _ else _] => destruct b end;
      reflexivity.
Qed.

Lemma retryTick_i (pid : string) (st : loopState error)
      (send : Z -> sendResult error) (stopping : bool) :
  0 <= i st < kaNumRetries ->
  i (fst (retryTick pid st send stopping)) = i st + 1.
Proof.
  intros Hi. rewrite retryTick_state. cbv zeta. cbn [i].
  apply add1_exact. lia.
Qed.

(** Outcomes after which the loop selects again are passed over, each tick
    among them counting as one retry. *)
Lemma retryLoop_goes_on (pid : string) (pre : list (event error)) :
  forall st : loopState error,
    Forall (goes_on IsUnreachable) pre ->
    0 <= i st -> i st + Z.of_nat (ticks pre) < kaNumRetries ->
    cur_err st <> None ->
    exists st',
      (forall rest, retryLoop pid (pre ++ rest) st = retryLoop pid rest st')
      /\ i st' = i st + Z.of_nat (ticks pre)
      /\ cur_err st' <> None.
Proof.
  induction pre as [|e pre IH]; intros st Hgo Hi Hn Herr.
  - exists st. split; [reflexivity|]. cbn. split; [lia | exact Herr].
  - apply Forall_cons_iff in Hgo as [He Hgo]. rewrite ticks_cons in Hn.
    destruct e as [send stopping|msg]; cbn [goes_on] in He.
    + destruct He as [Hf Hcont].
      assert (Hi' : 0 <= i st < kaNumRetries) by lia.
      pose proof (retryTick_fails pid st send stopping Hf Hi') as [Herr1 Hout].
      pose proof (retryTick_i pid st send stopping Hi') as Hi1.
      assert (Hc : snd (retryTick pid st send stopping) = Continue).
      { rewrite Hout.
        destruct (Z.eqb_spec (i st + 1) kaNumRetries) as [Heq|_]; [lia|].
        destruct Hcont as [->|Hu].
        - destruct (IsUnreachable _ _); reflexivity.
        - rewrite (Hu (cur_timeout st)). reflexivity. }
      destruct (retryTick pid st send stopping) as [st1 out] eqn:Et.
      cbn [fst snd] in *. clear Hout. subst out.
      destruct (IH st1 Hgo ltac:(lia) ltac:(lia) Herr1) as (st' & Hrun & Hi2 & He2).
      exists st'. split; [|split; [rewrite ticks_cons; lia | exact He2]].
      intros rest. cbn [app Keepalive.retryLoop]. rewrite Et. apply Hrun.
    + destruct (IH st Hgo Hi ltac:(lia) Herr) as (st' & Hrun & Hi2 & He2).
      exists st'. split; [|split; [rewrite ticks_cons; lia | exact He2]].
      intros rest. cbn [app Keepalive.retryLoop].
      destruct (String.eqb_spec msg kaStopMsg) as [Heq|_]; [contradiction|].
      apply Hrun.
Qed.

(** What [register] starts the loop with when the first keepalive fails. *)
Lemma register_first_fails (k : keepalive) (send0 : Z -> sendResult error)
      (evs : list (event error)) (pid : string) :
  fails send0 ->
  exists st0,
    register k send0 evs pid = retryLoop pid evs st0
    /\ i st0 = 0 /\ cur_err st0 <> None.
Proof.
  intros Hf. unfold Keepalive.register.
  destruct (timeoutStatsForDaemon k pid) as [k0 ts].
  specialize (Hf (timeout ts)).
  destruct (err (send0 (timeout ts))) as [e|] eqn:E; [|congruence].
  eexists. split; [reflexivity|]. cbn [i cur_err].
  split; [reflexivity | discriminate].
Qed.


End RegisterFacts.


Section RetriableFacts.

Import Keepalive.

Variable error : Type.
Variable IsRetriableConnErr : option error -> bool.
Variable IsUnreachable : option error -> Z -> bool.

(** Feeding the sample [maxKeepalive] never lowers the timeout of a peer
    whose statistics are consistent. *)
Lemma worst_case_sample_keeps_timeout (mk : Z) (ts : timeoutStats) :
  0 < mk <= exact_bound ->
  0 <= srtt ts <= exact_bound ->
  0 <= rttvar ts <= exact_bound ->
  timeout ts = clamp (srtt ts + 4 * rttvar ts) (mk / 2) mk ->
  timeout ts <= timeout (updateStats mk ts mk).
Proof.
  intros Hm Hs Hv Ht.
  rewrite updateStats_exact by lia.
  rewrite Ht. unfold spec_update, clamp, round_div. cbn [srtt rttvar timeout].
  destruct ts as [s v t]. cbn [srtt rttvar timeout] in *.
  change (1000 - 250) with 750. change (1000 - 125) with 875.
  change (2 * 1000) with 2000.
  set (a := 750 * v + 250 * Z.abs (s - mk)).
  set (b := 875 * s + 125 * mk).
  pose proof (Z.div_mod (2 * a + 1000) 2000 ltac:(lia)) as Ha.
  pose proof (Z.mod_pos_bound (2 * a + 1000) 2000 ltac:(lia)) as Ha'.
  pose proof (Z.div_mod (2 * b + 1000) 2000 ltac:(lia)) as Hb.
  pose proof (Z.mod_pos_bound (2 * b + 1000) 2000 ltac:(lia)) as Hb'.
  set (v' := (2 * a + 1000) / 2000) in *.
  set (s' := (2 * b + 1000) / 2000) in *.
  subst a b. lia.
Qed.

Lemma exact_bound_in_range (mk : Z) : 0 <= mk <= exact_bound -> I64.in_range mk.
Proof. unfold exact_bound. intros H. apply in_range_bounds. lia. Qed.

(** The statistics stay consistent: as materialised, and through every
    update with a sample within [exact_bound]. *)
Lemma materialised_consistent (mk : Z) :
  0 < mk <= exact_bound ->
  consistent mk {| srtt := mk; rttvar := I64.quot mk 2; timeout := mk |}.
Proof.
  intros Hm. rewrite quot2_exact by (try apply exact_bound_in_range; lia).
  assert (0 <= mk / 2 <= mk).
  { split; [apply Z.div_pos; lia|]. apply Z.div_le_upper_bound; lia. }
  unfold consistent, clamp. cbn [srtt rttvar timeout]. lia.
Qed.

Lemma updateStats_consistent (mk d : Z) (ts : timeoutStats) :
  0 < mk <= exact_bound -> 0 <= d <= exact_bound ->
  consistent mk ts -> consistent mk (updateStats mk ts d).
Proof.
  intros Hm Hd (Hs & Hv & Ht).
  rewrite updateStats_exact by lia.
  unfold consistent, spec_update. cbn [srtt rttvar timeout].
  change (1000 - 250) with 750. change (1000 - 125) with 875.
  split; [apply round_div_1000_between; lia|].
  split; [apply round_div_1000_between; lia | reflexivity].
Qed.

Lemma timeoutStatsForDaemon_consistent (mk : Z) (k : keepalive) (sid : string) :
  0 < mk <= exact_bound -> all_consistent mk k ->
  all_consistent mk (fst (timeoutStatsForDaemon k sid))
  /\ consistent mk (snd (timeoutStatsForDaemon k sid)).
Proof.
  intros Hm [Hmk Hall]. unfold timeoutStatsForDaemon.
  destruct (tt k !! sid) as [ts|] eqn:E; cbn [fst snd].
  - split; [split; auto | eauto].
  - rewrite Hmk. split; [|apply materialised_consistent; exact Hm].
    split; [reflexivity|]. intros sid' ts'. cbn [tt].
    rewrite lookup_insert. case_decide.
    + intros [= <-]. apply materialised_consistent; exact Hm.
    + apply Hall.
Qed.

Lemma updateTimeoutForDaemon_consistent (mk d : Z) (k : keepalive) (sid : string) :
  0 < mk <= exact_bound -> 0 <= d <= exact_bound -> all_consistent mk k ->
  all_consistent mk (fst (updateTimeoutForDaemon k sid d)).
Proof.
  intros Hm Hd Hk. rewrite updateTimeoutForDaemon_unfold. cbv zeta. cbn [fst].
  destruct (timeoutStatsForDaemon_consistent mk k sid Hm Hk) as [[_ H1] H2].
  destruct Hk as [Hmk _]. rewrite Hmk.
  split; [reflexivity|]. intros sid' ts'. cbn [tt].
  rewrite lookup_insert. case_decide.
  - intros [= <-]. apply updateStats_consistent; auto.
  - apply H1.
Qed.

Lemma ttRun_consistent (mk : Z) (ops : list ttOp) :
  0 < mk <= exact_bound ->
  forall k, samples_within ops ->
    Forall (fun m => m = mk) (configured ops) ->
    all_consistent mk k -> all_consistent mk (fst (ttRun k ops)).
Proof.
  intros Hm. induction ops as [|op ops IH]; intros k Hd Hc Hk; [exact Hk|].
  apply Forall_cons_iff in Hd as [Hd Hds].
  rewrite configured_cons in Hc. apply Forall_app in Hc as [Hc Hcs].
  cbn [ttRun]. destruct (ttStep k op) as [k1 r] eqn:E.
  assert (Hk1 : all_consistent mk k1).
  { destruct op as [sid|sid d|m]; cbn [ttStep] in E.
    - pose proof (timeoutStatsForDaemon_consistent mk k sid Hm Hk) as [H _].
      destruct (timeoutStatsForDaemon k sid). injection E as <- _. exact H.
    - pose proof (updateTimeoutForDaemon_consistent mk d k sid Hm Hd Hk) as H.
      destruct (updateTimeoutForDaemon k sid d). injection E as <- _. exact H.
    - injection E as <- _. cbn [configured] in Hc.
      apply Forall_cons_iff in Hc as [-> _]. split; [reflexivity | apply Hk]. }
  specialize (IH k1 Hds Hcs Hk1). destruct (ttRun k1 ops). exact IH.
Qed.

Lemma newKeepalive_consistent (mk : Z) : all_consistent mk (newKeepalive mk).
Proof.
  split; [reflexivity|]. intros sid ts. cbn. rewrite lookup_empty. discriminate.
Qed.

(** C6 (as amended).  In the retry loop every attempt is counted, also
    one that fails with a connection-refused/unreachable error: the
    counter [i] is incremented before the keepalive is sent.  What an
    unreachable primary changes is that the loop goes on to the next tick
    without looking at [daemon.stopping].  When the error is a retriable
    connection error the RTT sample is clamped: [updateTimeoutForDaemon]
    is fed [maxKeepalive] and not the elapsed time.  The timeout of the
    next attempt is then not lower than the one stored for the primary,
    and within [maxKeepalive/2, maxKeepalive], in every state of the
    tracker that calls of [timeoutStatsForDaemon] and
    [updateTimeoutForDaemon] with samples between 0 and [exact_bound]
    lead to from the tracker a keepaliver is created with, for
    0 < maxKeepalive <= [exact_bound], as long as [configUpdate] has not
    changed maxKeepalive. *)
Theorem retry_retriable_conn_error
        (mk : Z) (ops : list ttOp)
        (pid : string) (st : loopState error)
        (send : Z -> sendResult error) (stopping : bool) :
  let r := send (cur_timeout st) in
  let ts := snd (timeoutStatsForDaemon (kl st) pid) in
  let st' := fst (retryTick error IsRetriableConnErr IsUnreachable
                            pid st send stopping) in
  let out := snd (retryTick error IsRetriableConnErr IsUnreachable
                            pid st send stopping) in
  i st' = I64.add (i st) 1
  /\ (0 <= i st < kaNumRetries -> i st' = i st + 1)
  /\ (err r <> None -> IsUnreachable (err r) (status r) = true ->
      I64.add (i st) 1 <> kaNumRetries -> out = Continue)
  /\ (IsRetriableConnErr (err r) = true ->
      (kl st', cur_timeout st')
      = updateTimeoutForDaemon (kl st) pid (maxKeepalive (kl st))
      /\ (0 < mk <= exact_bound ->
          samples_within ops ->
          Forall (fun m => m = mk) (configured ops) ->
          kl st = fst (ttRun (newKeepalive mk) ops) ->
          timeout ts <= cur_timeout st'
          /\ mk / 2 <= cur_timeout st' <= mk
          /\ tt (kl st') !! pid
             = Some (spec_update mk ts mk))).
Proof.
  cbv zeta. rewrite retryTick_state. cbv zeta. cbn [i kl cur_timeout].
  split; [reflexivity|]. split.
  { intros Hi. unfold kaNumRetries in Hi. unfold I64.add.
    apply wrap_in_range, in_range_bounds. lia. }
  split.
  { intros He Hu Hn. unfold Keepalive.retryTick.
    destruct (updateTimeoutForDaemon _ _ _) as [k' t'].
    destruct (err (send (cur_timeout st))) as [e|]; [|congruence].
    cbn [snd]. apply Z.eqb_neq in Hn. rewrite Hn, Hu. reflexivity. }
  intros Hr. rewrite Hr.
  split; [symmetry; apply surjective_pairing|].
  intros Hm Hd Hc Hkl.
  pose proof (ttRun_consistent mk ops Hm _ Hd Hc (newKeepalive_consistent mk)) as Hk.
  rewrite <- Hkl in Hk.
  destruct (timeoutStatsForDaemon_consistent mk (kl st) pid Hm Hk)
    as [_ (Hs & Hv & Ht)].
  destruct Hk as [Hmk _]. rewrite Hmk.
  rewrite updateTimeoutForDaemon_unfold. cbv zeta. cbn [fst snd tt]. rewrite Hmk.
  split; [apply worst_case_sample_keeps_timeout; auto|].
  split; [apply updateStats_timeout_bounds;
          [lia | apply exact_bound_in_range; lia]|].
  rewrite lookup_insert_eq. f_equal. apply updateStats_exact; lia.
Qed.

End RetriableFacts.

Lemma retry_retriable_conn_error_witness :
  let refused := fun _ : Z => Keepalive.mkSendResult 0 (Some tt) 1000 in
  let ops := [Keepalive.OpStats "p1"; Keepalive.OpUpdate "p1" 400000000] in
  let k := fst (Keepalive.ttRun (Keepalive.newKeepalive 4000000000) ops) in
  let st0 := Keepalive.mkLoopState k 4000000000 0 0 (Some tt) in
  let st' := fst (Keepalive.retryTick unit (fun _ => true) (fun _ _ => true)
                                      "p1" st0 refused false) in
  Keepalive.i st' = 1 /\ 4000000000 <= Keepalive.cur_timeout st'.
Proof.
  intros refused ops k st0 st'.
  pose proof (retry_retriable_conn_error unit (fun _ => true) (fun _ _ => true)
                4000000000 ops "p1" st0 refused false) as H.
  cbv zeta in H. destruct H as (_ & Hi & _ & Hc).
  split.
  - apply Hi. vm_compute. split; first [reflexivity | discriminate].
  - destruct (Hc eq_refl) as [_ Hlow].
    destruct Hlow as (Hlow & _ & _).
    + vm_compute. split; first [reflexivity | discriminate].
    + repeat constructor; vm_compute; discriminate.
    + constructor.
    + reflexivity.
    + etransitivity; [|exact Hlow]. vm_compute. discriminate.
Defined.

(** The condition on [configUpdate] is needed: the timeout stored for the
    primary under a maxKeepalive of 4s is 4s; once [configUpdate] has
    lowered maxKeepalive to 1s, a retry that is refused leaves the loop
    with a timeout of 1s. *)
Lemma retry_timeout_drops_after_configUpdate :
  let refused := fun _ : Z => Keepalive.mkSendResult 0 (Some tt) 1000 in
  let k := fst (Keepalive.ttRun (Keepalive.newKeepalive 4000000000)
                  [Keepalive.OpStats "p1"; Keepalive.OpConfig 1000000000]) in
  let st0 := Keepalive.mkLoopState k 4000000000 0 0 (Some tt) in
  let st' := fst (Keepalive.retryTick unit (fun _ => true) (fun _ _ => true)
                                      "p1" st0 refused false) in
  Keepalive.timeout (snd (Keepalive.timeoutStatsForDaemon k "p1")) = 4000000000
  /\ Keepalive.cur_timeout st' = 1000000000.
Proof. cbv zeta. split; vm_compute; reflexivity. Qed.

(** C6, as stated, fails: an attempt that is refused by the primary is
    counted.  The counter goes from 0 to 1 on a refused attempt, and after
    three refused attempts [register] gives up without making use of a
    fourth tick on which the primary would have answered. *)
Lemma retry_conn_refused_is_counted :
  let refused := fun _ : Z => Keepalive.mkSendResult 0 (Some tt) 1000 in
  let answered := fun _ : Z => Keepalive.mkSendResult 200 (None : option unit) 1000 in
  let st0 := Keepalive.mkLoopState
               (Keepalive.newKeepalive 4000000000) 4000000000 0 0 (Some tt) in
  let st' := fst (Keepalive.retryTick unit (fun _ => true) (fun _ _ => true)
                                      "p1" st0 refused false) in
  Keepalive.i st' <> Keepalive.i st0
  /\ exists st,
      Keepalive.register unit (fun _ => true) (fun _ _ => true)
        (Keepalive.newKeepalive 4000000000) refused
        [Keepalive.Tick refused false; Keepalive.Tick refused false;
         Keepalive.Tick refused false; Keepalive.Tick answered false] "p1"
      = Some (st, true)
      /\ Keepalive.i st = 3.
Proof.
  cbv zeta. split.
  - vm_compute. discriminate.
  - eexists. split; [vm_compute; reflexivity | reflexivity].
Qed.

(** ** The rebalance trigger *)

Section RebalanceFacts.

Import cluster ais.

Lemma In_rangeTmap (m : Smap) (t : Snode) :
  In t (rangeTmap m) <-> exists key, Tmap m !! key = Some t.
Proof.
  unfold rangeTmap. rewrite in_map_iff. split.
  - intros [[key t'] [Heq Hin]]. simpl in Heq. subst t'.
    exists key. apply elem_of_map_to_list. apply list_elem_of_In. exact Hin.
  - intros [key Hk]. exists (key, t). split; [reflexivity|].
    apply list_elem_of_In. apply elem_of_map_to_list. exact Hk.
Qed.

Lemma GetNodeNotMaint_None (m : Smap) (id : string) :
  GetNodeNotMaint m id = None <-> absent_or_maintenance m id.
Proof.
  unfold GetNodeNotMaint, absent_or_maintenance.
  destruct (GetNode m id) as [n|].
  - destruct (InMaintenance n) eqn:E; split.
    + intros _. right. eauto.
    + reflexivity.
    + discriminate.
    + intros [H|[n' [[= <-] H]]]; congruence.
  - split; auto.
Qed.

Lemma CountActiveTargets_nonzero (m : Smap) :
  CountActiveTargets m <> 0 <-> has_active_target m.
Proof.
  unfold CountActiveTargets, has_active_target.
  fold (rangeTmap m). split.
  - intros H.
    destruct (List.filter (fun t => negb (InMaintenance t)) (rangeTmap m))
      as [|t l] eqn:E; [simpl in H; lia|].
    assert (Hin : In t (List.filter (fun t => negb (InMaintenance t)) (rangeTmap m)))
      by (rewrite E; left; reflexivity).
    apply filter_In in Hin. destruct Hin as [Hin Ht].
    apply In_rangeTmap in Hin. destruct Hin as [key Hk].
    exists key, t. split; [exact Hk|]. destruct (InMaintenance t); [discriminate | reflexivity].
  - intros (key & t & Hk & Ht).
    assert (Hin : In t (List.filter (fun t => negb (InMaintenance t)) (rangeTmap m))).
    { apply filter_In. split; [apply In_rangeTmap; eauto|]. rewrite Ht. reflexivity. }
    destruct (List.filter (fun t => negb (InMaintenance t)) (rangeTmap m));
      [destruct Hin | simpl; lia].
Qed.

(** One loop of [mustRunRebalance]: some active target of [a] is absent or
    in maintenance in [b]. *)
Lemma loop_exists (a b : Smap) :
  existsb (fun si =>
             if IsProxy si || IsAnySet si NodeFlagsMaintDecomm then false
             else bool_decide (GetNodeNotMaint b (ID si) = None))
          (rangeTmap a) = true
  <-> exists t, active_target_in a t /\ absent_or_maintenance b (ID t).
Proof.
  rewrite existsb_exists. split.
  - intros (t & Hin & Ht). exists t.
    destruct (IsProxy t) eqn:Ep; [discriminate|].
    destruct (IsAnySet t NodeFlagsMaintDecomm) eqn:Ef; [discriminate|].
    simpl in Ht. apply bool_decide_eq_true in Ht.
    split; [|apply GetNodeNotMaint_None; exact Ht].
    split; [apply In_rangeTmap; exact Hin | auto].
  - intros (t & (Hin & Hp & Hf) & Habs). exists t.
    split; [apply In_rangeTmap; exact Hin|].
    rewrite Hp, Hf. simpl. apply bool_decide_eq_true.
    apply GetNodeNotMaint_None. exact Habs.
Qed.

Lemma mustRunRebalance_enabled (ctx : smapModifier) (cur : Smap) :
  _mustReb ctx = false ->
  (snd (mustRunRebalance true ctx cur) = true
   <-> spec_mustRunRebalance (ctx_smap ctx) cur)
  /\ fst (mustRunRebalance true ctx cur)
     = set_mustReb ctx (snd (mustRunRebalance true ctx cur)).
Proof.
  intros Hm. unfold mustRunRebalance, spec_mustRunRebalance. rewrite Hm.
  cbn [negb].
  pose proof (loop_exists cur (ctx_smap ctx)) as Hadd.
  pose proof (loop_exists (ctx_smap ctx) cur) as Hrem.
  pose proof (CountActiveTargets_nonzero (ctx_smap ctx)) as Hp.
  pose proof (CountActiveTargets_nonzero cur) as Hc.
  destruct (existsb _ (rangeTmap cur)) eqn:Ea;
    [|destruct (existsb _ (rangeTmap (ctx_smap ctx))) eqn:Er];
    cbn [fst snd]; (split; [|reflexivity]).
  - rewrite andb_true_iff, !negb_true_iff, !Z.eqb_neq, Hp, Hc.
    split; [intros [? ?]; split; [left; apply Hadd; reflexivity | auto] | tauto].
  - rewrite andb_true_iff, !negb_true_iff, !Z.eqb_neq, Hp, Hc.
    split; [intros [? ?]; split; [right; apply Hrem; reflexivity | auto] | tauto].
  - split; [discriminate|]. intros [[H|H] _].
    + apply Hadd in H. discriminate.
    + apply Hrem in H. discriminate.
Qed.

End RebalanceFacts.




(** ** Administrative change of the primary *)

Lemma firstFailed_Some (results : list ais.callResult) :
  (exists res, In res results /\ ais.res_failed res = true) ->
  exists res, ais.firstFailed results = Some res.
Proof.
  intros (res & Hin & Hf). unfold ais.firstFailed.
  destruct (find ais.res_failed results) as [r|] eqn:E; [eauto|].
  pose proof (find_none _ _ E res Hin). congruence.
Qed.

(** C4.  When some node answers the prepare broadcast of [cluSetPrimary] with
    an error, the handler changes nothing on the proxy: whatever it does
    amounts to appending effects to the trace, none of which stores
    [inPrimaryTransition], demotes the metasyncer or broadcasts the commit;
    the Smap of the owner (and with it the primary) is the one of before; and
    once the prepare broadcast has been made the response is the error naming
    a node that failed in the prepare phase. *)
Theorem cluSetPrimary_prepare_failure
        (p : ais.proxyrunner) (env : ais.setPrimaryEnv) (items : list string) :
  (exists res, In res (ais.sp_prepare env) /\ ais.res_failed res = true) ->
  let p' := fst (ais.cluSetPrimary p env items) in
  let resp := snd (ais.cluSetPrimary p env items) in
  exists added,
    p' = fold_left ais.emit added p
    /\ Forall (fun e => after_prepare e = false) added
    /\ ais.smap p' = ais.smap p
    /\ ais.inPrimaryTransition p' = ais.inPrimaryTransition p
    /\ (forall pid, In (ais.Bcast true pid) added ->
          exists node, resp = ais.RespErr (ais.EPrepare node pid)).
Proof.
  intros Hfail. apply firstFailed_Some in Hfail. destruct Hfail as [res Hres].
  cbv zeta. unfold ais.cluSetPrimary. rewrite Hres.
  destruct items as [|proxyid rest].
  { exists []. repeat split; auto. intros pid []. }
  destruct (ais.sp_forwardCP env).
  { exists []. repeat split; auto. intros pid []. }
  destruct (cluster.GetProxy (ais.smap p) proxyid) as [psi|].
  2:{ exists []. repeat split; auto. intros pid []. }
  destruct (String.eqb proxyid (cluster.ID (ais.si p))).
  { exists [ais.Log (ais.WarnSetPrimarySelf proxyid)].
    repeat split; auto. intros pid [H|[]]. discriminate. }
  destruct (ais.PresentInMaint (ais.smap p) psi).
  { exists []. repeat split; auto. intros pid []. }
  destruct (negb (ais.clusterStarted p) || ais.rmd_startup p).
  { exists []. repeat split; auto. intros pid []. }
  destruct (ais.sp_cluMeta env); cbn [negb].
  2:{ exists []. repeat split; auto. intros pid []. }
  exists [ais.Bcast true proxyid]. repeat split; auto.
  intros pid [[= <-]|[]]. eauto.
Qed.

Lemma cluSetPrimary_prepare_failure_witness :
  let env := ais.mkSetPrimaryEnv false true
               [ais.mkCallResult sample.p2 false; ais.mkCallResult sample.t1 true]
               [] in
  ais.cluSetPrimary (sample.primary sample.smap_t1) env ["p2"]
  = (ais.emit (sample.primary sample.smap_t1) (ais.Bcast true "p2"),
     ais.RespErr (ais.EPrepare "t1" "p2")).
Proof.
  intros env.
  destruct (cluSetPrimary_prepare_failure (sample.primary sample.smap_t1) env ["p2"])
    as (added & Hp & Hnone & Hsmap & Htr & Hresp).
  { exists (ais.mkCallResult sample.t1 true). split; [right; left|]; reflexivity. }
  vm_compute. reflexivity.
Defined.

(** The successful path, for comparison: the flag is raised, the primary is
    reassigned, the metasyncer is demoted, the commit is broadcast and the
    flag is cleared again. *)
Example cluSetPrimary_success :
  let env := ais.mkSetPrimaryEnv false true
               [ais.mkCallResult sample.p2 false; ais.mkCallResult sample.t1 false]
               [ais.mkCallResult sample.p2 false; ais.mkCallResult sample.t1 false] in
  let p' := fst (ais.cluSetPrimary (sample.primary sample.smap_t1) env ["p2"]) in
  cluster.Primary (ais.smap p') = Some sample.p2
  /\ ais.trace p' = [ais.Bcast true "p2"; ais.StoreInPrimaryTransition true;
                     ais.BecomeNonPrimary; ais.Bcast false "p2";
                     ais.StoreInPrimaryTransition false].
Proof. vm_compute. split; reflexivity. Qed.

(** ** Joins *)

Section JoinFacts.

Import cluster ais.

Variable staffIC : Smap -> Smap.

Lemma quiet_refl (p : proxyrunner) : quiet p p.
Proof.
  repeat split. exists []. split; [symmetry; apply app_nil_r | constructor].
Qed.

Lemma quiet_emit_log (p p' : proxyrunner) (m : logmsg) :
  quiet p p' -> quiet p (emit p' (Log m)).
Proof.
  intros (Hs & Hr & Hsi & H1 & H2 & H3 & H4 & H5 & logs & Ht & Hl).
  repeat split; cbn; auto.
  exists (logs ++ [Log m]). split.
  - rewrite Ht, app_assoc. reflexivity.
  - apply Forall_app. split; [exact Hl | repeat constructor].
Qed.

Lemma quiet_set_reg_pool (p p' : proxyrunner) (l : list cluMeta) :
  quiet p p' -> quiet p (set_reg_pool p' l).
Proof.
  intros (Hs & Hr & Hsi & H1 & H2 & H3 & H4 & H5 & Hl). repeat split; cbn; auto.
Qed.

Lemma quiet_set_rmd_rebalance (p p' : proxyrunner) (b : bool) :
  quiet p p' -> quiet p (set_rmd_rebalance p' b).
Proof.
  intros (Hs & Hr & Hsi & H1 & H2 & H3 & H4 & H5 & Hl). repeat split; cbn; auto.
Qed.

Lemma quiet_trans (p p' p'' : proxyrunner) :
  quiet p p' -> quiet p' p'' -> quiet p p''.
Proof.
  intros (Hs & Hr & Hsi & H1 & H2 & H3 & H4 & H5 & logs & Ht & Hl)
         (Hs' & Hr' & Hsi' & H1' & H2' & H3' & H4' & H5' & logs' & Ht' & Hl').
  repeat split; try congruence.
  exists (logs ++ logs'). split.
  - rewrite Ht', Ht, app_assoc. reflexivity.
  - apply Forall_app. auto.
Qed.

Create HintDb quiet.
Hint Resolve quiet_refl quiet_emit_log quiet_set_reg_pool
     quiet_set_rmd_rebalance : quiet.

Lemma IsTarget_not_IsProxy (n : Snode) : IsTarget n = true -> IsProxy n = false.
Proof.
  unfold IsTarget, IsProxy. intros H. apply String.eqb_eq in H. rewrite H.
  reflexivity.
Qed.

Lemma unmarshalJoin_selfjoin (p : proxyrunner) (env : joinEnv) (r : joinRequest)
      (regReq : cluMeta) :
  body r = Some regReq ->
  exists p0, unmarshalJoin p env r SelfJoin = (p0, inr (SI regReq, regReq))
             /\ quiet p p0.
Proof.
  intros Hb. unfold unmarshalJoin.
  change (String.eqb SelfJoin AdminJoin) with false.
  change (String.eqb SelfJoin SelfJoin) with true. cbn iota. rewrite Hb.
  eexists. split; [reflexivity|]. destruct (negb (clusterStarted p)); auto with quiet.
Qed.

Lemma parseNonElectable_quiet (p : proxyrunner) (env : joinEnv) (nsi : Snode) :
  quiet p (fst (parseNonElectable p env nsi)).
Proof.
  unfold parseNonElectable.
  destruct (IsProxy nsi); [destruct (env_nonElectable env)|]; cbn [fst];
    auto with quiet.
Qed.

(** A self-join that passes the validations of the handler arrives at the
    check for a duplicate node id with the state [p1] and the descriptor
    [nsi'] (the request's, with the flags of the registered node). *)
Lemma httpclupost_selfjoin (p : proxyrunner) (env : joinEnv) (r : joinRequest)
      (rest : list string) (regReq : cluMeta) :
  apiItems r = SelfJoin :: rest ->
  env_forwardCP env = false ->
  body r = Some regReq ->
  env_nodeValid env = true ->
  (nodeStarted p = true -> env_bmdUUID env = true) ->
  env_hostname env = true ->
  exists p1,
    quiet p p1 /\
    let nsi' := setNodeFlags (smap p) (SI regReq)
                             (snd (parseNonElectable p env (SI regReq))) in
    httpclupost staffIC p env r
    = match checkJoin p1 env (smap p) SelfJoin nsi' with
      | (p2, Some resp) => (p2, resp)
      | (p2, None) => joinLocked staffIC p2 env SelfJoin nsi' regReq
      end.
Proof.
  intros Hitems Hfwd Hbody Hvalid Hbmd Hhost.
  unfold httpclupost. rewrite Hitems, Hfwd.
  change (String.eqb SelfJoin Keepalive) with false. rewrite andb_false_r.
  destruct (unmarshalJoin_selfjoin p env r regReq Hbody) as (p0 & -> & Hq0).
  rewrite Hvalid, Hhost. cbn [negb].
  assert (Hns : nodeStarted p0 = nodeStarted p) by apply Hq0.
  assert (Hb : nodeStarted p0 && negb (env_bmdUUID env) = false).
  { rewrite Hns. destruct (nodeStarted p); [rewrite Hbmd by reflexivity|]; reflexivity. }
  rewrite Hb.
  pose proof (parseNonElectable_quiet p0 env (SI regReq)) as Hq1.
  assert (Hne : snd (parseNonElectable p0 env (SI regReq))
                = snd (parseNonElectable p env (SI regReq))).
  { unfold parseNonElectable. destruct (IsProxy _); [destruct (env_nonElectable _)|];
      reflexivity. }
  destruct (parseNonElectable p0 env (SI regReq)) as [p1 ne]. cbn [fst snd] in *.
  exists p1. split; [eapply quiet_trans; eauto|].
  cbv zeta. subst ne.
  assert (Hs : smap p1 = smap p).
  { transitivity (smap p0); [apply Hq1 | apply Hq0]. }
  rewrite Hs. reflexivity.
Qed.

End JoinFacts.

Section JoinOutcomes.

Import cluster ais.

Variable staffIC : Smap -> Smap.

Lemma _updFinal_state (p : proxyrunner) (env : joinEnv) (nsi : Snode)
      (ctx : smapModifier) (clone : Smap) :
  let p' := fst (_updFinal p env nsi ctx clone) in
  smap p' = smap p /\ rmd p' = rmd p
  /\ exists sent, In (RevSmap clone) sent /\ In (MetasyncSync sent) (trace p').
Proof.
  cbv zeta. unfold _updFinal.
  destruct (env_config env) as [[|]|];
    destruct (env_etl env);
    (destruct (ctx_rmd ctx) as [r|];
     [destruct (IsTarget nsi);
      [destruct (mustRunRebalance _ ctx clone) as [ctx' [|]]|];
      destruct (IsProxy nsi)|]);
    destruct (env_tokens env); cbn [fst smap rmd emit trace];
    (split; [reflexivity|]; split; [reflexivity|]);
    eexists; (split; [|apply in_or_app; left; apply in_or_app; right; left; reflexivity]);
    repeat (apply in_or_app; first [right; left; reflexivity | left]);
    repeat first [left; reflexivity | right].
Qed.

Lemma updateAndDistribute_smap (p : proxyrunner) (env : joinEnv) (nsi : Snode)
      (flags : Z) :
  isPrimary (smap p) (si p) = true ->
  let clone := staffIC (fst (putNode (smap p) nsi flags)) in
  let p' := fst (fst (updateAndDistribute staffIC p env nsi flags)) in
  smap p' = clone
  /\ snd (updateAndDistribute staffIC p env nsi flags) = None
  /\ exists sent, In (RevSmap clone) sent /\ In (MetasyncSync sent) (trace p').
Proof.
  intros Hprim. cbv zeta. unfold updateAndDistribute, _updPre.
  rewrite Hprim. cbn [negb ctx_flags].
  destruct (putNode (smap p) nsi flags) as [clone1 ex]. cbn [fst].
  match goal with
  | |- context [_updPost ?q env nsi ?c ?m] =>
      destruct (_updPost q env nsi c m) as [p2 ctx2]
  end.
  pose proof (_updFinal_state (put_smap p2 (staffIC clone1)) env nsi ctx2
                (staffIC clone1)) as H.
  cbv zeta in H.
  destruct (_updFinal (put_smap p2 (staffIC clone1)) env nsi ctx2 (staffIC clone1))
    as [p4 ctx3].
  cbn [fst snd] in *. destruct H as (Hs & _ & Hsent).
  split; [rewrite Hs; reflexivity|]. split; [reflexivity | exact Hsent].
Qed.

(** Putting a target whose id is in the target map already, while
    rebalance can run, increments the RMD. *)
Lemma updateAndDistribute_exists_rmd (p : proxyrunner) (env : joinEnv)
      (nsi osi : Snode) (flags : Z) :
  isPrimary (smap p) (si p) = true ->
  IsTarget nsi = true ->
  GetTarget (smap p) (ID nsi) = Some osi ->
  canRunRebalance p env = true ->
  env_rmdModify env = true ->
  rmd (fst (fst (updateAndDistribute staffIC p env nsi flags)))
  = rmd_inc (mkRebMD (rmd_Version (rmd p)) [ID nsi]).
Proof.
  intros Hprim Ht Hget Hcan Hmod. unfold updateAndDistribute, _updPre.
  rewrite Hprim. cbn [negb]. unfold putNode.
  rewrite (IsTarget_not_IsProxy _ Ht), Hget, Ht. cbn [fst ctx_flags].
  unfold _updPost. rewrite Ht. cbn [negb].
  assert (Hcan' : forall e, canRunRebalance (emit p e) env = true)
    by (intros e; exact Hcan).
  rewrite Hcan'. cbn [negb set_ctx_exists ctx_exists]. rewrite Hmod.
  match goal with
  | |- context [_updFinal ?q env nsi ?c ?m] =>
      pose proof (_updFinal_state q env nsi c m) as H;
      destruct (_updFinal q env nsi c m) as [p4 ctx3]
  end.
  cbv zeta in H. cbn [fst snd] in *. destruct H as (_ & Hr & _).
  rewrite Hr. reflexivity.
Qed.

End JoinOutcomes.

Section JoinTraces.

Import cluster ais.

Variable staffIC : Smap -> Smap.

Lemma extends_refl (p : proxyrunner) : extends p p.
Proof. exists []. symmetry. apply app_nil_r. Qed.

Lemma extends_trans (p q r : proxyrunner) :
  extends p q -> extends q r -> extends p r.
Proof.
  intros [l Hl] [l' Hl']. exists (l ++ l'). rewrite Hl', Hl, app_assoc. reflexivity.
Qed.

Lemma extends_emit (p q : proxyrunner) (e : effect) :
  extends p q -> extends p (emit q e).
Proof.
  intros [l Hl]. exists (l ++ [e]). cbn. rewrite Hl, app_assoc. reflexivity.
Qed.

Lemma extends_put_smap (p q : proxyrunner) (m : Smap) :
  extends p q -> extends p (put_smap q m).
Proof. intros H. exact H. Qed.

Lemma extends_put_rmd (p q : proxyrunner) (m : rebMD) :
  extends p q -> extends p (put_rmd q m).
Proof. intros H. exact H. Qed.

Lemma extends_set_rmd_rebalance (p q : proxyrunner) (b : bool) :
  extends p q -> extends p (set_rmd_rebalance q b).
Proof. intros H. exact H. Qed.

Lemma extends_In (p q : proxyrunner) (e : effect) :
  extends p q -> In e (trace p) -> In e (trace q).
Proof. intros [l ->] H. apply in_or_app. auto. Qed.

Ltac ext :=
  repeat first [ apply extends_refl
               | apply extends_emit
               | apply extends_put_smap
               | apply extends_put_rmd
               | apply extends_set_rmd_rebalance ].

Lemma addOrUpdateNode_extends (p : proxyrunner) (env : joinEnv)
      (nsi : Snode) (osi : option Snode) (ka : bool) :
  extends p (fst (addOrUpdateNode p env nsi osi ka)).
Proof.
  unfold addOrUpdateNode.
  destruct ka, osi as [o|]; cbn [fst]; try solve [ext].
  - destruct (negb (Equals o nsi)); [destruct (env_duplicate env) as [[|]|]|];
      cbn [fst]; ext.
  - destruct (negb (nodeStarted p)); [|destruct (Equals o nsi)]; cbn [fst]; ext.
Qed.

Lemma handleJoinKalive_extends (p : proxyrunner) (env : joinEnv)
      (nsi : Snode) (apiOp : string) (flags : Z) :
  extends p (fst (fst (handleJoinKalive p env nsi apiOp flags))).
Proof.
  unfold handleJoinKalive.
  destruct (negb (isPrimary (smap p) (si p))); [cbn [fst]; ext|].
  assert (H : extends p
                (fst (if IsProxy nsi
                      then addOrUpdateNode p env nsi (GetProxy (smap p) (ID nsi))
                                           (String.eqb apiOp Keepalive)
                      else if String.eqb apiOp Keepalive
                           then addOrUpdateNode p env nsi (GetTarget (smap p) (ID nsi))
                                                (String.eqb apiOp Keepalive)
                           else (p, true)))).
  { destruct (IsProxy nsi); [apply addOrUpdateNode_extends|].
    destruct (String.eqb apiOp Keepalive); [apply addOrUpdateNode_extends|].
    cbn [fst]. ext. }
  destruct (if IsProxy nsi then _ else _) as [p1 go]. cbn [fst] in H.
  destruct (negb go); [exact H|].
  destruct (negb (env_cie env)); [exact H|].
  destruct (negb (clusterStarted p1)).
  - destruct (putNode (smap p) nsi flags). cbn [fst]. exact H.
  - destruct (env_netDuplicate env); exact H.
Qed.

Lemma _updPost_extends (p : proxyrunner) (env : joinEnv) (nsi : Snode)
      (ctx : smapModifier) (clone : Smap) :
  extends p (fst (_updPost p env nsi ctx clone)).
Proof.
  unfold _updPost.
  destruct (negb (IsTarget nsi)); [cbn [fst]; ext|].
  destruct (negb (canRunRebalance p env)); [cbn [fst]; ext|].
  destruct (if ctx_exists ctx then _ else _) as [ctx1 [|]]; [|cbn [fst]; ext].
  destruct (env_rmdModify env); cbn [fst]; ext.
Qed.

Lemma _updFinal_extends (p : proxyrunner) (env : joinEnv) (nsi : Snode)
      (ctx : smapModifier) (clone : Smap) :
  extends p (fst (_updFinal p env nsi ctx clone)).
Proof.
  unfold _updFinal.
  destruct (env_config env) as [[|]|];
    (destruct (ctx_rmd ctx) as [r|];
     [destruct (IsTarget nsi);
      [destruct (mustRunRebalance _ ctx clone) as [ctx' [|]]|];
      destruct (IsProxy nsi)|]);
    cbn [fst]; ext.
Qed.

Lemma updateAndDistribute_extends (p : proxyrunner) (env : joinEnv)
      (nsi : Snode) (flags : Z) :
  extends p (fst (fst (updateAndDistribute staffIC p env nsi flags))).
Proof.
  unfold updateAndDistribute, _updPre.
  destruct (negb (isPrimary (smap p) (si p))); [cbn [fst]; ext|].
  cbn [ctx_flags]. destruct (putNode (smap p) nsi flags) as [clone1 ex].
  match goal with
  | |- context [_updPost ?q env nsi ?c ?m] =>
      pose proof (_updPost_extends q env nsi c m) as H1;
      destruct (_updPost q env nsi c m) as [p2 ctx2]
  end.
  match goal with
  | |- context [_updFinal ?q env nsi ?c ?m] =>
      pose proof (_updFinal_extends q env nsi c m) as H2;
      destruct (_updFinal q env nsi c m) as [p4 ctx3]
  end.
  cbn [fst] in *.
  eapply extends_trans; [|exact H2]. apply extends_put_smap.
  eapply extends_trans; [|exact H1]. destruct (IsTarget nsi); ext.
Qed.

Lemma joinLocked_extends (p : proxyrunner) (env : joinEnv) (apiOp : string)
      (nsi : Snode) (regReq : cluMeta) :
  extends p (fst (joinLocked staffIC p env apiOp nsi regReq)).
Proof.
  unfold joinLocked.
  pose proof (handleJoinKalive_extends p env nsi apiOp (Flags nsi)) as H.
  destruct (handleJoinKalive p env nsi apiOp (Flags nsi)) as [[p3 upd] e].
  cbn [fst] in H.
  set (p4 := if negb (IsProxy nsi) && nodeStarted p3 then _ else p3).
  assert (H4 : extends p p4).
  { subst p4. destruct (negb (IsProxy nsi) && nodeStarted p3); [|exact H].
    destruct (negb (rmd_rebalance p3)); [|exact H].
    destruct (RebInterrupted regReq); ext; exact H. }
  clearbody p4.
  destruct e; [exact H4|]. destruct (negb upd); [exact H4|].
  pose proof (updateAndDistribute_extends
                (emit p4 (Log (InfoJoin apiOp (ID nsi)))) env nsi (Flags nsi)) as H6.
  destruct (updateAndDistribute staffIC _ env nsi (Flags nsi)) as [[p6 reb] e6].
  cbn [fst] in H6.
  assert (extends p p6) by (eapply extends_trans; [|exact H6]; ext; exact H4).
  destruct (String.eqb apiOp AdminJoin); [destruct e6; assumption|].
  destruct (String.eqb apiOp SelfJoin); [|assumption].
  destruct (negb (env_cluMeta env)); [cbn [fst]; ext; exact H4 | assumption].
Qed.

Lemma joinLocked_response (p : proxyrunner) (env : joinEnv) (apiOp : string)
      (nsi : Snode) (regReq : cluMeta) (id : string) :
  snd (joinLocked staffIC p env apiOp nsi regReq) <> RespErr (EDuplicateNodeID id).
Proof.
  unfold joinLocked.
  assert (He : forall e, snd (handleJoinKalive p env nsi apiOp (Flags nsi)) = Some e ->
                         e <> EDuplicateNodeID id).
  { unfold handleJoinKalive.
    destruct (negb (isPrimary (smap p) (si p))); [intros e [= <-]; discriminate|].
    destruct (if IsProxy nsi then _ else _) as [p1 go].
    destruct (negb go); [discriminate|].
    destruct (negb (env_cie env)); [intros e [= <-]; discriminate|].
    destruct (negb (clusterStarted p1)).
    - destruct (putNode (smap p) nsi (Flags nsi)). discriminate.
    - destruct (env_netDuplicate env); [intros e [= <-]|]; discriminate. }
  destruct (handleJoinKalive p env nsi apiOp (Flags nsi)) as [[p3 upd] e].
  cbn [snd] in He.
  destruct e as [e|]; [cbn [snd]; intros [= H]; exact (He e eq_refl H)|].
  destruct (negb upd); [discriminate|].
  match goal with
  | |- context [updateAndDistribute staffIC ?q env nsi ?f] =>
      assert (He6 : forall e, snd (updateAndDistribute staffIC q env nsi f) = Some e ->
                              e <> EDuplicateNodeID id);
      [|destruct (updateAndDistribute staffIC q env nsi f) as [[p6 reb] e6]]
  end.
  { intros e. unfold updateAndDistribute, _updPre. cbn [smap emit si].
    destruct (negb (isPrimary _ _)); [intros [= <-]; discriminate|].
    cbn [ctx_flags]. destruct (putNode _ nsi (Flags nsi)).
    destruct (_updPost _ _ _ _ _). destruct (_updFinal _ _ _ _ _). discriminate. }
  cbn [snd] in He6.
  destruct (String.eqb apiOp AdminJoin).
  { destruct e6 as [e|]; [cbn [snd]; intros [= H]; exact (He6 e eq_refl H)|discriminate]. }
  destruct (String.eqb apiOp SelfJoin); [|discriminate].
  destruct (negb (env_cluMeta env)); discriminate.
Qed.

End JoinTraces.

Section JoinClaims.

Import cluster ais.

Variable staffIC : Smap -> Smap.

Lemma addOrUpdateNode_join_quiet (p : proxyrunner) (env : joinEnv)
      (nsi : Snode) (osi : option Snode) :
  quiet p (fst (addOrUpdateNode p env nsi osi false)).
Proof.
  unfold addOrUpdateNode. destruct osi as [o|]; [|apply quiet_refl].
  destruct (negb (nodeStarted p)); [apply quiet_refl|].
  destruct (Equals o nsi); cbn [fst]; apply quiet_emit_log, quiet_refl.
Qed.

(** A self-join that is not answered "already registered" goes through on
    the primary of a started cluster: the node is put into the map and the
    cluster-meta is returned. *)
Lemma joinLocked_selfjoin_accepted (p : proxyrunner) (env : joinEnv)
      (nsi : Snode) (regReq : cluMeta) :
  isPrimary (smap p) (si p) = true ->
  clusterStarted p = true ->
  env_cie env = true ->
  env_netDuplicate env = false ->
  env_cluMeta env = true ->
  (IsProxy nsi = true ->
   snd (addOrUpdateNode p env nsi (GetProxy (smap p) (ID nsi)) false) = true) ->
  exists p5,
    quiet p p5
    /\ joinLocked staffIC p env SelfJoin nsi regReq
       = (fst (fst (updateAndDistribute staffIC p5 env nsi (Flags nsi))),
          RespCluMeta).
Proof.
  intros Hprim Hstarted Hcie Hnet Hmeta Hgo.
  unfold joinLocked, handleJoinKalive. rewrite Hprim.
  change (String.eqb SelfJoin Keepalive) with false.
  change (String.eqb SelfJoin AdminJoin) with false.
  change (String.eqb SelfJoin SelfJoin) with true.
  cbn [negb].
  assert (H1 : exists p1,
             quiet p p1 /\
             (if IsProxy nsi
              then addOrUpdateNode p env nsi (GetProxy (smap p) (ID nsi)) false
              else (p, true)) = (p1, true)).
  { destruct (IsProxy nsi).
    - pose proof (addOrUpdateNode_join_quiet p env nsi (GetProxy (smap p) (ID nsi))) as Hq.
      specialize (Hgo eq_refl).
      destruct (addOrUpdateNode p env nsi (GetProxy (smap p) (ID nsi)) false)
        as [p1 go]. cbn [fst snd] in *. subst go. eauto.
    - exists p. split; [apply quiet_refl | reflexivity]. }
  destruct H1 as (p1 & Hq1 & ->). cbn [negb]. rewrite Hcie. cbn [negb].
  assert (Hcs : clusterStarted p1 = true) by (rewrite <- Hstarted; apply Hq1).
  rewrite Hcs, Hnet. cbn [negb].
  set (p4 := if negb (IsProxy nsi) && nodeStarted p1 then _ else p1).
  assert (H4 : quiet p p4).
  { subst p4. destruct (negb (IsProxy nsi) && nodeStarted p1); [|exact Hq1].
    destruct (negb (rmd_rebalance p1)); [|exact Hq1].
    destruct (RebInterrupted regReq).
    - apply quiet_emit_log, quiet_set_rmd_rebalance, Hq1.
    - apply quiet_set_rmd_rebalance, Hq1. }
  clearbody p4. rewrite Hmeta. cbn [negb].
  exists (emit p4 (Log (InfoJoin SelfJoin (ID nsi)))).
  split; [apply quiet_emit_log, H4|].
  destruct (updateAndDistribute staffIC _ env nsi (Flags nsi)) as [[p6 reb] e6].
  reflexivity.
Qed.

(** C7 (as amended).  A self-join request that passes the validations of the
    handler and carries the id of a node that the Smap registers with
    different identity fields is probed for a duplicate.  If the probe finds
    the old node alive, the request is answered with the duplicate-node-ID
    error and nothing happened but logging: the Smap (descriptors and
    version) and the RMD are the ones of before, nothing was metasynced.  If
    the probe itself fails, the request is answered with the
    failed-to-obtain-node-info error, the Smap again untouched.  If the probe
    succeeds and finds no live duplicate, the warning is logged, the response
    is not the duplicate-node-ID error, and on the primary of a started
    cluster (no integrity error, no other node at its address) the join is
    carried out: the new descriptor is put into the map and the cluster-meta
    is returned. *)
Theorem selfjoin_duplicate_id
        (p : proxyrunner) (env : joinEnv) (r : joinRequest)
        (rest : list string) (regReq : cluMeta) (osi : Snode) :
  let nsi := SI regReq in
  let nsi' := setNodeFlags (smap p) nsi (snd (parseNonElectable p env nsi)) in
  let p' := fst (httpclupost staffIC p env r) in
  let resp := snd (httpclupost staffIC p env r) in
  apiItems r = SelfJoin :: rest ->
  env_forwardCP env = false ->
  body r = Some regReq ->
  env_nodeValid env = true ->
  (nodeStarted p = true -> env_bmdUUID env = true) ->
  env_hostname env = true ->
  GetNode (smap p) (ID nsi) = Some osi ->
  Equals osi nsi = false ->
  (env_duplicate env = Some true ->
   resp = RespErr (EDuplicateNodeID (ID nsi)) /\ quiet p p')
  /\ (env_duplicate env = None ->
      resp = RespErr ENodeInfo /\ quiet p p')
  /\ (env_duplicate env = Some false ->
      In (Log (WarnSelfJoinDuplicateID (ID nsi))) (trace p')
      /\ (forall id, resp <> RespErr (EDuplicateNodeID id))
      /\ (isPrimary (smap p) (si p) = true ->
          clusterStarted p = true ->
          env_cie env = true ->
          env_netDuplicate env = false ->
          env_cluMeta env = true ->
          (IsProxy nsi = true -> Tmap (smap p) !! ID nsi = None) ->
          resp = RespCluMeta
          /\ smap p' = staffIC (fst (putNode (smap p) nsi' (Flags nsi'))))).
Proof.
  intros nsi nsi' p' resp Hitems Hfwd Hbody Hvalid Hbmd Hhost Hget Hneq.
  destruct (httpclupost_selfjoin staffIC p env r rest regReq
              Hitems Hfwd Hbody Hvalid Hbmd Hhost) as (p1 & Hq1 & Hpost).
  cbv zeta in Hpost. fold nsi in Hpost. fold nsi' in Hpost.
  subst p' resp. rewrite Hpost. clear Hpost.
  unfold checkJoin.
  change (String.eqb SelfJoin AdminJoin) with false.
  change (String.eqb SelfJoin SelfJoin) with true. cbn iota.
  assert (Hid : ID nsi' = ID nsi) by reflexivity.
  assert (Hneq' : Equals osi nsi' = false) by exact Hneq.
  rewrite Hid, Hget, Hneq'. cbn [negb].
  split; [|split].
  - intros ->. cbn [fst snd]. auto.
  - intros ->. cbn [fst snd]. auto.
  - intros ->.
    pose proof (joinLocked_extends staffIC
                  (emit p1 (Log (WarnSelfJoinDuplicateID (ID nsi))))
                  env SelfJoin nsi' regReq) as Hext.
    split; [|split].
    + eapply extends_In; [exact Hext|]. cbn. apply in_or_app. right. left. reflexivity.
    + intros id. apply joinLocked_response.
    + intros Hprim Hstarted Hcie Hnet Hmeta Hpm.
      set (p2 := emit p1 (Log (WarnSelfJoinDuplicateID (ID nsi)))) in *.
      assert (Hq2 : quiet p p2) by (apply quiet_emit_log, Hq1).
      assert (Hs2 : smap p2 = smap p) by apply Hq2.
      assert (Hsi2 : si p2 = si p) by apply Hq2.
      destruct (joinLocked_selfjoin_accepted p2 env nsi' regReq) as (p5 & Hq5 & ->).
      * rewrite Hs2, Hsi2. exact Hprim.
      * rewrite <- Hstarted. apply Hq2.
      * exact Hcie.
      * exact Hnet.
      * exact Hmeta.
      * intros Hproxy. rewrite Hs2, Hid.
        assert (Hp : GetProxy (smap p) (ID nsi) = Some osi).
        { unfold GetNode, GetTarget in Hget. rewrite (Hpm Hproxy) in Hget. exact Hget. }
        rewrite Hp. unfold addOrUpdateNode.
        destruct (negb (nodeStarted p2)); [reflexivity|].
        rewrite Hneq'. reflexivity.
      * cbn [fst snd]. split; [reflexivity|].
        assert (Hq : quiet p p5) by (eapply quiet_trans; eauto).
        destruct (updateAndDistribute_smap staffIC p5 env nsi' (Flags nsi'))
          as (Hs & _ & _).
        { replace (smap p5) with (smap p) by (symmetry; apply Hq).
          replace (si p5) with (si p) by (symmetry; apply Hq). exact Hprim. }
        rewrite Hs. replace (smap p5) with (smap p) by (symmetry; apply Hq).
        reflexivity.
Qed.


End JoinClaims.

Lemma selfjoin_duplicate_id_witness :
  let p := sample.primary sample.smap_t1t2 in
  let out := ais.httpclupost sample.staffIC p (sample.env_ok (Some true))
                             (sample.selfjoin sample.t2_moved) in
  snd out = ais.RespErr (ais.EDuplicateNodeID "t2")
  /\ ais.smap (fst out) = sample.smap_t1t2.
Proof.
  intros p out.
  destruct (selfjoin_duplicate_id sample.staffIC p (sample.env_ok (Some true))
              (sample.selfjoin sample.t2_moved) []
              (ais.mkCluMeta sample.t2_moved None "bmd-uuid" false) sample.t2
              eq_refl eq_refl eq_refl eq_refl (fun _ => eq_refl) eq_refl
              ltac:(vm_compute; reflexivity) ltac:(vm_compute; reflexivity))
    as [Hdup _].
  destruct (Hdup eq_refl) as [Hresp Hq].
  split; [exact Hresp | apply Hq].
Defined.

(** C7, as stated, fails when the probe gets no answer it can use: the old
    node was not found alive, and yet the join is not permitted; it is
    answered with the failed-to-obtain-node-info error, nothing is logged
    and the Smap stays as it was. *)
Lemma selfjoin_probe_failure_rejects :
  let p := sample.primary sample.smap_t1t2 in
  let out := ais.httpclupost sample.staffIC p (sample.env_ok None)
                             (sample.selfjoin sample.t2_moved) in
  cluster.GetNode (ais.smap p) "t2" = Some sample.t2
  /\ cluster.Equals sample.t2 sample.t2_moved = false
  /\ snd out = ais.RespErr ais.ENodeInfo
  /\ fst out = p.
Proof. vm_compute. repeat split; reflexivity. Qed.



(** ** Notification listeners *)

Section NotifFacts.

Import notifs.

Lemma count_snoc (cbs : list string) (k u : string) :
  count_occ String.string_dec (cbs ++ [k]) u
  = (count_occ String.string_dec cbs u + if decide (k = u) then 1 else 0)%nat.
Proof.
  rewrite count_occ_app. f_equal.
Qed.

Lemma IsFinished_spec (l : listener) :
  IsFinished l = true <-> l_finished l = l_notifiers l \/ l_aborted l = true.
Proof.
  unfold IsFinished. rewrite orb_true_iff, bool_decide_eq_true. reflexivity.
Qed.

Lemma IsFinished_progressed (N : gset string) (l l' : listener) :
  l_notifiers l = N -> l_finished l' ⊆ N -> progressed l l' ->
  IsFinished l = true -> IsFinished l' = true.
Proof.
  intros HN Hsub (Hn & Hf & Ha). rewrite !IsFinished_spec.
  intros [H|H]; [left | right; auto].
  rewrite Hn, HN. apply (anti_symm subseteq); [exact Hsub|].
  rewrite <- HN, <- H. exact Hf.
Qed.

(** *** The effect of [done] *)

Lemma done_other (reg : registry) (l : listener) (u : string) :
  l_uuid l <> u ->
  nls (done reg l) !! u = nls reg !! u
  /\ fin (done reg l) !! u = fin reg !! u
  /\ callbackCount (done reg l) u = callbackCount reg u.
Proof.
  intros Hne. unfold done, callbackCount.
  destruct (nls reg !! l_uuid l); cbn [nls fin callbacks]; [|auto].
  rewrite lookup_delete_ne, lookup_insert_ne, count_snoc by congruence.
  case_decide; [congruence|]. auto with arith.
Qed.

Lemma done_active (reg : registry) (l l0 : listener) :
  nls reg !! l_uuid l = Some l0 ->
  nls (done reg l) !! l_uuid l = None
  /\ fin (done reg l) !! l_uuid l = Some l
  /\ callbackCount (done reg l) (l_uuid l) = S (callbackCount reg (l_uuid l)).
Proof.
  intros H. unfold done, callbackCount. rewrite H. cbn [nls fin callbacks].
  rewrite lookup_delete_eq, lookup_insert_eq, count_snoc.
  case_decide; [|congruence]. split; [reflexivity|]. split; [reflexivity | lia].
Qed.

Lemma done_archived (reg : registry) (l : listener) :
  nls reg !! l_uuid l = None -> done reg l = reg.
Proof. intros H. unfold done. rewrite H. reflexivity. Qed.

Lemma done_filed (reg : registry) (l : listener) : filed reg -> filed (done reg l).
Proof.
  intros [Hn Hf]. unfold done.
  destruct (nls reg !! l_uuid l) eqn:E; [|split; assumption].
  split; cbn [nls fin]; intros k l'.
  - rewrite lookup_delete. case_decide; [discriminate | apply Hn].
  - rewrite lookup_insert. case_decide; [intros [= <-]; congruence | apply Hf].
Qed.

Lemma store_filed (reg : registry) (l : listener) (active : bool) :
  filed reg -> filed (store reg l active).
Proof.
  intros [Hn Hf]. unfold store. destruct active; split; cbn [nls fin];
    intros k l'; try apply Hn; try apply Hf;
    rewrite lookup_insert; case_decide;
    try (intros [= <-]; congruence); try apply Hn; try apply Hf.
Qed.

Lemma store_other (reg : registry) (l : listener) (active : bool) (u : string) :
  l_uuid l <> u ->
  nls (store reg l active) !! u = nls reg !! u
  /\ fin (store reg l active) !! u = fin reg !! u
  /\ callbackCount (store reg l active) u = callbackCount reg u.
Proof.
  intros Hne. unfold store, callbackCount.
  destruct active; cbn [nls fin callbacks];
    rewrite ?lookup_insert_ne by congruence; auto.
Qed.

(** A registry in which the tracked listener lives, seen through the three
    components that concern it. *)
Lemma tracked_same (N : gset string) (u : string) (l0 : listener)
      (reg reg' : registry) :
  tracked N u l0 reg -> filed reg' ->
  nls reg' !! u = nls reg !! u ->
  fin reg' !! u = fin reg !! u ->
  callbackCount reg' u = callbackCount reg u ->
  tracked N u l0 reg'.
Proof.
  intros [_ H] Hf Hn Hfi Hc. split; [exact Hf|].
  rewrite Hn, Hfi, Hc. exact H.
Qed.

Lemma progressed_refl (l : listener) : progressed l l.
Proof. repeat split; auto. Qed.

Lemma progressed_trans (a b c : listener) :
  progressed a b -> progressed b c -> progressed a c.
Proof.
  intros (H1 & H2 & H3) (H1' & H2' & H3'). repeat split.
  - congruence.
  - etransitivity; eassumption.
  - auto.
Qed.

Lemma handleProgress_ok (N : gset string) (l0 l : listener) (m : NotifMsg) :
  listener_ok N l0 l ->
  listener_ok N l0 (handleProgress l m)
  /\ IsFinished (handleProgress l m) = IsFinished l
  /\ l_uuid (handleProgress l m) = l_uuid l.
Proof.
  intros (HN & Hsub & Hp). split; [|split; reflexivity].
  split; [exact HN|]. split; [exact Hsub|].
  eapply progressed_trans; [exact Hp|]. repeat split; auto.
Qed.

Lemma markFinished_ok (N : gset string) (l0 l : listener) (m : NotifMsg) :
  m_sender m ∈ l_notifiers l ->
  listener_ok N l0 l ->
  listener_ok N l0 (markFinished l m)
  /\ (IsFinished l = true -> IsFinished (markFinished l m) = true)
  /\ l_uuid (markFinished l m) = l_uuid l.
Proof.
  intros Hin (HN & Hsub & Hp).
  assert (Hsub' : l_finished (markFinished l m) ⊆ N).
  { cbn. apply union_subseteq. split; [|exact Hsub].
    apply singleton_subseteq_l. rewrite <- HN. exact Hin. }
  assert (Hpr : progressed l (markFinished l m)).
  { repeat split; cbn; [apply union_subseteq_r|]. intros ->. reflexivity. }
  split; [|split; [|reflexivity]].
  - split; [exact HN|]. split; [exact Hsub'|].
    eapply progressed_trans; eassumption.
  - apply (IsFinished_progressed N); auto.
Qed.

Lemma add_tracked (N : gset string) (u : string) (l0 l : listener)
      (reg : registry) :
  tracked N u l0 reg -> tracked N u l0 (fst (add reg l)).
Proof.
  intros Ht. unfold add.
  destruct (nls reg !! l_uuid l) eqn:En; [exact Ht|].
  destruct (fin reg !! l_uuid l) eqn:Ef; [exact Ht|]. cbn [fst].
  assert (Hne : l_uuid l <> u).
  { intros Hu. rewrite Hu in En, Ef. destruct Ht as [_ Ht].
    rewrite En, Ef in Ht. exact Ht. }
  apply (tracked_same N u l0 reg); cbn [nls fin]; auto.
  - destruct Ht as [[Hn Hf] _]. split; cbn [nls fin]; [|exact Hf].
    intros k l'. rewrite lookup_insert. case_decide; [intros [= <-]; congruence | apply Hn].
  - apply lookup_insert_ne. exact Hne.
Qed.

Lemma handler_tracked (N : gset string) (u : string) (l0 : listener)
      (reg : registry) (m : NotifMsg) :
  tracked N u l0 reg -> tracked N u l0 (fst (handler reg m)).
Proof.
  intros Ht. pose proof Ht as [Hfiled Hview]. pose proof Hfiled as [Hfn Hff].
  unfold handler, entry.
  destruct (decide (m_uuid m = u)) as [Hk|Hk].
  - (* a message for the tracked listener *)
    rewrite Hk.
    destruct (nls reg !! u) as [l|] eqn:En; destruct (fin reg !! u) as [lf|] eqn:Ef;
      try contradiction.
    + (* active *)
      destruct Hview as (Hok & Hnf & Hc).
      assert (Hu : l_uuid l = u) by (apply Hfn; exact En).
      case_bool_decide as Hin; [|exact Ht].
      destruct (m_kind m).
      * destruct (handleProgress_ok N l0 l m Hok) as (Hok' & Hfin' & Hu').
        cbn [fst]. split; [apply store_filed; exact Hfiled|].
        unfold store, callbackCount in *. cbn [nls fin callbacks].
        rewrite Hu', Hu, lookup_insert_eq, Ef.
        rewrite Hfin'. auto.
      * destruct (markFinished_ok N l0 l m Hin Hok) as (Hok' & _ & Hu').
        set (l' := markFinished l m) in *.
        assert (Hstored : nls (store reg l' true) !! l_uuid l' = Some l').
        { cbn. apply lookup_insert_eq. }
        destruct (IsFinished l') eqn:Efin; cbn [fst].
        -- split; [apply done_filed, store_filed; exact Hfiled|].
           destruct (done_active _ _ _ Hstored) as (H1 & H2 & H3).
           rewrite Hu', Hu in H1, H2, H3. rewrite H1, H2, H3.
           unfold callbackCount, store in *. cbn [callbacks]. rewrite Hc. auto.
        -- split; [apply store_filed; exact Hfiled|].
           rewrite Hu', Hu in Hstored. rewrite Hstored.
           unfold store. cbn [fin]. rewrite Ef. auto.
    + (* archived *)
      destruct Hview as (Hok & Hfin & Hc).
      assert (Hu : l_uuid lf = u) by (apply Hff; exact Ef).
      case_bool_decide as Hin; [|exact Ht].
      destruct (m_kind m).
      * destruct (handleProgress_ok N l0 lf m Hok) as (Hok' & Hfin' & Hu').
        cbn [fst]. split; [apply store_filed; exact Hfiled|].
        unfold store, callbackCount in *. cbn [nls fin callbacks].
        rewrite Hu', Hu, lookup_insert_eq, En.
        rewrite Hfin'. auto.
      * destruct (markFinished_ok N l0 lf m Hin Hok) as (Hok' & Hfin' & Hu').
        set (l' := markFinished lf m) in *.
        rewrite (Hfin' Hfin). cbn [fst].
        assert (Hn : nls (store reg l' false) !! l_uuid l' = None).
        { unfold store. cbn [nls]. rewrite Hu', Hu. exact En. }
        rewrite (done_archived _ _ Hn).
        split; [apply store_filed; exact Hfiled|].
        unfold store, callbackCount in *. cbn [nls fin callbacks].
        rewrite Hu', Hu, lookup_insert_eq, En. auto.
  - (* a message for another listener *)
    assert (Hother : forall l active,
               l_uuid l = m_uuid m ->
               tracked N u l0
                 (fst (if bool_decide (m_sender m ∈ l_notifiers l)
                       then match m_kind m with
                            | Progress => (store reg (handleProgress l m) active, StatusOK)
                            | Finished =>
                                if IsFinished (markFinished l m)
                                then (done (store reg (markFinished l m) active)
                                           (markFinished l m), StatusOK)
                                else (store reg (markFinished l m) active, StatusOK)
                            end
                       else (reg, StatusOK)))).
    { intros l active Hl. case_bool_decide; [|exact Ht].
      assert (Hne : l_uuid l <> u) by congruence.
      destruct (m_kind m); cbn [fst].
      - destruct (store_other reg (handleProgress l m) active u Hne) as (H1 & H2 & H3).
        apply (tracked_same N u l0 reg); auto. apply store_filed, Hfiled.
      - destruct (store_other reg (markFinished l m) active u Hne) as (H1 & H2 & H3).
        destruct (IsFinished (markFinished l m)); cbn [fst].
        + destruct (done_other (store reg (markFinished l m) active)
                               (markFinished l m) u Hne) as (H1' & H2' & H3').
          apply (tracked_same N u l0 reg); try congruence.
          apply done_filed, store_filed, Hfiled.
        + apply (tracked_same N u l0 reg); auto. apply store_filed, Hfiled. }
    destruct (nls reg !! m_uuid m) as [l|] eqn:En.
    + apply Hother. apply Hfn. exact En.
    + destruct (fin reg !! m_uuid m) as [l|] eqn:Ef; [|exact Ht].
      apply Hother. apply Hff. exact Ef.
Qed.

(** *** The Smap-change listener *)

Lemma ListenSmapChanged_fold (reg : registry) (present : gset string) :
  ListenSmapChanged reg present
  = fold_left (smapChangedStep present) (map_to_list (nls reg)) reg.
Proof. reflexivity. Qed.

Lemma smapChanged_filed (present : gset string) (ls : list (string * listener)) :
  forall reg, filed reg -> filed (fold_left (smapChangedStep present) ls reg).
Proof.
  induction ls as [|[k l] ls IH]; intros reg Hf; [exact Hf|].
  cbn [fold_left]. apply IH. unfold smapChangedStep. cbn [snd].
  destruct (lostNotifier present l); [apply done_filed|]; exact Hf.
Qed.

Lemma smapChanged_other (present : gset string) (u : string)
      (ls : list (string * listener)) :
  forall reg,
    (forall k l, (k, l) ∈ ls -> lostNotifier present l = true -> l_uuid l <> u) ->
    let reg' := fold_left (smapChangedStep present) ls reg in
    nls reg' !! u = nls reg !! u
    /\ fin reg' !! u = fin reg !! u
    /\ callbackCount reg' u = callbackCount reg u.
Proof.
  induction ls as [|[k l] ls IH]; intros reg Hls; [cbn; auto|].
  cbn [fold_left]. cbv zeta.
  destruct (IH (smapChangedStep present reg (k, l))) as (H1 & H2 & H3).
  { intros k' l' Hin. apply (Hls k'). apply elem_of_cons. auto. }
  rewrite H1, H2, H3. unfold smapChangedStep. cbn [snd].
  destruct (lostNotifier present l) eqn:El; [|auto].
  apply done_other. cbn. apply (Hls k l); [apply elem_of_cons; auto | exact El].
Qed.

Lemma smapChanged_hit (present : gset string) (u : string) (l : listener)
      (ls : list (string * listener)) :
  forall reg,
    NoDup ls.*1 ->
    (forall k l', (k, l') ∈ ls -> l_uuid l' = k) ->
    (u, l) ∈ ls ->
    is_Some (nls reg !! u) ->
    lostNotifier present l = true ->
    let reg' := fold_left (smapChangedStep present) ls reg in
    nls reg' !! u = None
    /\ fin reg' !! u = Some (abortListener l)
    /\ callbackCount reg' u = S (callbackCount reg u).
Proof.
  induction ls as [|[k l'] ls IH]; intros reg Hnd Hkeys Hin Hsome Hlost.
  { apply elem_of_nil in Hin. contradiction. }
  cbn [fold_left]. cbv zeta. cbn [fmap list_fmap fst] in Hnd.
  apply NoDup_cons in Hnd. destruct Hnd as [Hk Hnd].
  apply elem_of_cons in Hin. destruct Hin as [[= <- <-]|Hin].
  - (* the tracked listener is visited now, and never again *)
    assert (Hu : l_uuid l = u) by (apply Hkeys; apply elem_of_cons; auto).
    assert (Hs : smapChangedStep present reg (u, l) = done reg (abortListener l))
      by (unfold smapChangedStep; cbn [snd]; rewrite Hlost; reflexivity).
    rewrite Hs.
    destruct Hsome as [lu Hlu].
    assert (Hu' : l_uuid (abortListener l) = u) by exact Hu.
    destruct (done_active reg (abortListener l) lu) as (D1 & D2 & D3).
    { rewrite Hu'. exact Hlu. }
    rewrite Hu' in D1, D2, D3.
    destruct (smapChanged_other present u ls (done reg (abortListener l)))
      as (H1 & H2 & H3).
    { intros k' l'' Hin' _ Heq. apply Hk.
      apply list_elem_of_fmap. exists (k', l''). split; [|exact Hin'].
      cbn. rewrite <- Heq. apply Hkeys. apply elem_of_cons. auto. }
    rewrite H1, H2, H3. auto.
  - (* another listener is visited *)
    assert (Hne : k <> u).
    { intros ->. apply Hk. apply list_elem_of_fmap. exists (u, l). auto. }
    assert (Hk' : l_uuid l' = k) by (apply Hkeys; apply elem_of_cons; auto).
    assert (Hstep : nls (smapChangedStep present reg (k, l')) !! u = nls reg !! u
                    /\ callbackCount (smapChangedStep present reg (k, l')) u
                       = callbackCount reg u).
    { unfold smapChangedStep. cbn [snd].
      destruct (lostNotifier present l'); [|auto].
      destruct (done_other reg (abortListener l') u) as (D1 & _ & D3); [|auto].
      cbn. congruence. }
    destruct Hstep as [S1 S3].
    destruct (IH (smapChangedStep present reg (k, l'))) as (H1 & H2 & H3); auto.
    { intros k' l'' Hin'. apply Hkeys. apply elem_of_cons. auto. }
    { rewrite S1. exact Hsome. }
    rewrite H1, H2, H3, S3. auto.
Qed.

Lemma ListenSmapChanged_tracked (N : gset string) (u : string) (l0 : listener)
      (reg : registry) (present : gset string) :
  tracked N u l0 reg -> tracked N u l0 (ListenSmapChanged reg present).
Proof.
  intros Ht. pose proof Ht as [Hfiled Hview]. pose proof Hfiled as [Hfn Hff].
  rewrite ListenSmapChanged_fold.
  assert (Hkeys : forall k l', (k, l') ∈ map_to_list (nls reg) -> l_uuid l' = k).
  { intros k l' Hin. apply Hfn. apply elem_of_map_to_list. exact Hin. }
  assert (Hf' : filed (fold_left (smapChangedStep present) (map_to_list (nls reg)) reg))
    by (apply smapChanged_filed; exact Hfiled).
  assert (Hunchanged :
            (forall l, nls reg !! u = Some l -> lostNotifier present l = false) ->
            tracked N u l0
              (fold_left (smapChangedStep present) (map_to_list (nls reg)) reg)).
  { intros Hnl.
    destruct (smapChanged_other present u (map_to_list (nls reg)) reg)
      as (H1 & H2 & H3).
    { intros k l' Hin Hlost Heq.
      assert (k = u) by (rewrite <- Heq; symmetry; apply Hkeys; exact Hin). subst k.
      apply elem_of_map_to_list in Hin. rewrite (Hnl _ Hin) in Hlost. discriminate. }
    apply (tracked_same N u l0 reg); auto. }
  destruct (nls reg !! u) as [l|] eqn:En; destruct (fin reg !! u) as [lf|] eqn:Ef;
    try contradiction.
  - destruct (lostNotifier present l) eqn:El.
    + destruct Hview as ((HN & Hsub & Hp) & Hnf & Hc).
      destruct (smapChanged_hit present u l (map_to_list (nls reg)) reg
                  (NoDup_fst_map_to_list _) Hkeys
                  (proj2 (elem_of_map_to_list _ _ _) En)
                  (mk_is_Some _ _ En) El)
        as (H1 & H2 & H3).
      split; [exact Hf'|]. rewrite H1, H2, H3, Hc.
      split; [|split; [apply orb_true_r | reflexivity]].
      split; [exact HN|]. split; [exact Hsub|].
      eapply progressed_trans; [exact Hp|]. repeat split; auto.
    + apply Hunchanged. intros l' [= <-]. exact El.
  - apply Hunchanged. discriminate.
Qed.

Lemma step_tracked (N : gset string) (u : string) (l0 : listener)
      (reg : registry) (e : event) :
  tracked N u l0 reg -> tracked N u l0 (step reg e).
Proof.
  destruct e; cbn [step].
  - apply add_tracked.
  - apply handler_tracked.
  - apply ListenSmapChanged_tracked.
Qed.

Lemma run_tracked (N : gset string) (u : string) (l0 : listener)
      (evs : list event) :
  forall reg, tracked N u l0 reg -> tracked N u l0 (run reg evs).
Proof.
  induction evs as [|e evs IH]; intros reg Ht; [exact Ht|].
  cbn [run fold_left]. apply IH. apply step_tracked. exact Ht.
Qed.

(** What [tracked] says through the accessors of the registry. *)
Lemma tracked_listener (N : gset string) (u : string) (l0 : listener)
      (reg : registry) :
  tracked N u l0 reg ->
  exists l, listenerOf reg u = Some l
            /\ listener_ok N l0 l
            /\ callbackCount reg u = (if IsFinished l then 1 else 0)%nat
            /\ (is_Some (fin reg !! u) <-> IsFinished l = true).
Proof.
  intros [_ H]. unfold listenerOf, entry.
  destruct (nls reg !! u) as [l|]; destruct (fin reg !! u) as [lf|];
    try contradiction.
  - destruct H as (Hok & Hfin & Hc). exists l. rewrite Hfin, Hc.
    split; [reflexivity|]. split; [exact Hok|]. split; [reflexivity|].
    split; [intros [? ?]; discriminate | discriminate].
  - destruct H as (Hok & Hfin & Hc). exists lf. rewrite Hfin, Hc.
    split; [reflexivity|]. split; [exact Hok|]. split; [reflexivity|].
    split; eauto.
Qed.

Lemma tracked_rebase (N : gset string) (u : string) (l0 l : listener)
      (reg : registry) :
  tracked N u l0 reg -> listenerOf reg u = Some l -> tracked N u l reg.
Proof.
  intros [Hf H] Hl. split; [exact Hf|]. unfold listenerOf, entry in Hl.
  destruct (nls reg !! u) as [l1|]; destruct (fin reg !! u) as [l2|];
    try contradiction; cbn in Hl; injection Hl as <-;
    destruct H as ((HN & Hsub & _) & H2 & H3);
    (split; [split; [exact HN|]; split; [exact Hsub | apply progressed_refl]|]);
    auto.
Qed.

Lemma add_fresh_tracked (N : gset string) (u : string) (reg0 : registry) :
  N <> ∅ -> filed reg0 -> listenerOf reg0 u = None -> callbackCount reg0 u = 0%nat ->
  tracked N u (newListener u N) (fst (add reg0 (newListener u N))).
Proof.
  intros HN [Hfn Hff] Hnone Hc. unfold listenerOf, entry in Hnone.
  destruct (nls reg0 !! u) eqn:En; [discriminate|].
  destruct (fin reg0 !! u) eqn:Ef; [discriminate|].
  unfold add. cbn [l_uuid newListener]. rewrite En, Ef. cbn [fst].
  split.
  - split; cbn [nls fin]; [|exact Hff]. intros k l.
    rewrite lookup_insert. case_decide; [intros [= <-]; auto | apply Hfn].
  - cbn [nls fin]. rewrite lookup_insert_eq, Ef.
    split; [|split; [|exact Hc]].
    + split; [reflexivity|]. split; [apply empty_subseteq | apply progressed_refl].
    + unfold IsFinished. cbn. rewrite orb_false_r. apply bool_decide_eq_false.
      congruence.
Qed.

(** *** The listener through a run of events *)

Lemma listenerOf_unfold (reg : registry) (u : string) :
  listenerOf reg u
  = match nls reg !! u with Some l => Some l | None => fin reg !! u end.
Proof.
  unfold listenerOf, entry. destruct (nls reg !! u); [reflexivity|].
  destruct (fin reg !! u); reflexivity.
Qed.

Lemma listenerOf_same (reg reg' : registry) (u : string) :
  nls reg' !! u = nls reg !! u -> fin reg' !! u = fin reg !! u ->
  listenerOf reg' u = listenerOf reg u.
Proof. intros H1 H2. rewrite !listenerOf_unfold, H1, H2. reflexivity. Qed.

Lemma tracked_view (N : gset string) (u : string) (l0 l : listener)
      (reg : registry) :
  tracked N u l0 reg -> listenerOf reg u = Some l ->
  l_uuid l = u /\ l_notifiers l = N
  /\ ((nls reg !! u = Some l /\ fin reg !! u = None /\ IsFinished l = false)
      \/ (nls reg !! u = None /\ fin reg !! u = Some l /\ IsFinished l = true)).
Proof.
  intros [[Hfn Hff] H] Hl. rewrite listenerOf_unfold in Hl.
  destruct (nls reg !! u) as [l1|] eqn:En; destruct (fin reg !! u) as [l2|] eqn:Ef;
    try contradiction; injection Hl as <-;
    destruct H as ((HN & _) & Hfin & _).
  - split; [apply Hfn; exact En|]. split; [exact HN|]. left. auto.
  - split; [apply Hff; exact Ef|]. split; [exact HN|]. right. auto.
Qed.

Lemma add_listener (N : gset string) (u : string) (l0 l1 : listener)
      (reg : registry) :
  tracked N u l0 reg -> listenerOf (fst (add reg l1)) u = listenerOf reg u.
Proof.
  intros Ht. unfold add.
  destruct (nls reg !! l_uuid l1) eqn:En; [reflexivity|].
  destruct (fin reg !! l_uuid l1) eqn:Ef; [reflexivity|]. cbn [fst].
  assert (Hne : l_uuid l1 <> u).
  { intros Hu. rewrite Hu in En, Ef. destruct Ht as [_ Ht].
    rewrite En, Ef in Ht. exact Ht. }
  apply listenerOf_same; cbn [nls fin]; [|reflexivity].
  apply lookup_insert_ne. exact Hne.
Qed.

Lemma store_listener (reg : registry) (l : listener) (active : bool) (u : string) :
  l_uuid l = u ->
  (if active then fin reg !! u = None else nls reg !! u = None) ->
  listenerOf (store reg l active) u = Some l
  /\ (if active then nls (store reg l active) !! u = Some l
      else nls (store reg l active) !! u = None).
Proof.
  intros Hu H. rewrite listenerOf_unfold. unfold store.
  destruct active; cbn [nls fin]; rewrite ?Hu.
  - rewrite lookup_insert_eq. auto.
  - rewrite H, lookup_insert_eq. auto.
Qed.

Lemma handler_listener (N : gset string) (u : string) (l0 l : listener)
      (reg : registry) (m : NotifMsg) :
  tracked N u l0 reg -> listenerOf reg u = Some l ->
  listenerOf (fst (handler reg m)) u = Some (stepListener u l (EvMsg m)).
Proof.
  intros Ht Hl. pose proof Ht as [[Hfn Hff] _].
  destruct (tracked_view N u l0 l reg Ht Hl) as (Hu & HN & Hview).
  cbn [stepListener]. unfold handler.
  destruct (String.eqb_spec (m_uuid m) u) as [Hk|Hk]; cbn [andb].
  - (* a message for the listener *)
    rewrite Hk.
    assert (He : exists active,
               entry reg u = Some (l, active)
               /\ (if active then fin reg !! u = None else nls reg !! u = None)).
    { unfold entry.
      destruct Hview as [(H1 & H2 & _)|(H1 & H2 & _)]; rewrite H1, ?H2;
        [exists true | exists false]; auto. }
    destruct He as (active & -> & Hact).
    case_bool_decide as Hin; [|exact Hl].
    destruct (m_kind m); cbn [fst].
    + apply store_listener; auto.
    + set (l' := markFinished l m).
      assert (Hu' : l_uuid l' = u) by exact Hu.
      destruct (store_listener reg l' active u Hu' Hact) as [Hs Hn].
      destruct (IsFinished l'); cbn [fst]; [|exact Hs].
      destruct active.
      * destruct (done_active (store reg l' true) l' l') as (D1 & D2 & _).
        { rewrite Hu'. exact Hn. }
        rewrite Hu' in D1, D2. rewrite listenerOf_unfold, D1, D2. reflexivity.
      * rewrite done_archived by (rewrite Hu'; exact Hn). exact Hs.
  - (* a message for another listener *)
    rewrite <- Hl.
    assert (Hother : forall lx active,
               l_uuid lx = m_uuid m ->
               listenerOf
                 (fst (if bool_decide (m_sender m ∈ l_notifiers lx)
                       then match m_kind m with
                            | Progress => (store reg (handleProgress lx m) active, StatusOK)
                            | Finished =>
                                if IsFinished (markFinished lx m)
                                then (done (store reg (markFinished lx m) active)
                                           (markFinished lx m), StatusOK)
                                else (store reg (markFinished lx m) active, StatusOK)
                            end
                       else (reg, StatusOK))) u
               = listenerOf reg u).
    { intros lx active Hlx. case_bool_decide; [|reflexivity].
      assert (Hne : l_uuid lx <> u) by congruence.
      destruct (m_kind m); cbn [fst].
      - destruct (store_other reg (handleProgress lx m) active u Hne) as (H1 & H2 & _).
        apply listenerOf_same; auto.
      - destruct (store_other reg (markFinished lx m) active u Hne) as (H1 & H2 & _).
        destruct (IsFinished (markFinished lx m)); cbn [fst].
        + destruct (done_other (store reg (markFinished lx m) active)
                               (markFinished lx m) u Hne) as (H1' & H2' & _).
          apply listenerOf_same; congruence.
        + apply listenerOf_same; auto. }
    unfold entry.
    destruct (nls reg !! m_uuid m) as [lx|] eqn:En.
    + apply Hother. apply Hfn. exact En.
    + destruct (fin reg !! m_uuid m) as [lx|] eqn:Ef; [|reflexivity].
      apply Hother. apply Hff. exact Ef.
Qed.

Lemma ListenSmapChanged_listener (N : gset string) (u : string) (l0 l : listener)
      (reg : registry) (present : gset string) :
  tracked N u l0 reg -> listenerOf reg u = Some l ->
  listenerOf (ListenSmapChanged reg present) u
  = Some (stepListener u l (EvSmap present)).
Proof.
  intros Ht Hl. pose proof Ht as [[Hfn Hff] _].
  destruct (tracked_view N u l0 l reg Ht Hl) as (Hu & HN & Hview).
  cbn [stepListener]. rewrite ListenSmapChanged_fold.
  assert (Hkeys : forall k l', (k, l') ∈ map_to_list (nls reg) -> l_uuid l' = k).
  { intros k l' Hin. apply Hfn. apply elem_of_map_to_list. exact Hin. }
  assert (Hunchanged :
            (forall lx, nls reg !! u = Some lx -> lostNotifier present lx = false) ->
            listenerOf (fold_left (smapChangedStep present) (map_to_list (nls reg)) reg) u
            = Some l).
  { intros Hnl. rewrite <- Hl.
    destruct (smapChanged_other present u (map_to_list (nls reg)) reg)
      as (H1 & H2 & _).
    { intros k l' Hin Hlost Heq.
      assert (k = u) by (rewrite <- Heq; symmetry; apply Hkeys; exact Hin). subst k.
      apply elem_of_map_to_list in Hin. rewrite (Hnl _ Hin) in Hlost. discriminate. }
    apply listenerOf_same; auto. }
  destruct Hview as [(En & Ef & Hfin)|(En & Ef & Hfin)]; rewrite Hfin; cbn [negb andb].
  - destruct (lostNotifier present l) eqn:El.
    + destruct (smapChanged_hit present u l (map_to_list (nls reg)) reg
                  (NoDup_fst_map_to_list _) Hkeys
                  (proj2 (elem_of_map_to_list _ _ _) En)
                  (mk_is_Some _ _ En) El)
        as (H1 & H2 & _).
      rewrite listenerOf_unfold, H1, H2. reflexivity.
    + apply Hunchanged. intros lx Hlx. rewrite En in Hlx. injection Hlx as <-. exact El.
  - apply Hunchanged. intros lx Hlx. rewrite En in Hlx. discriminate.
Qed.

Lemma run_listener (N : gset string) (u : string) (l0 : listener)
      (evs : list event) :
  forall reg l,
    tracked N u l0 reg -> listenerOf reg u = Some l ->
    listenerOf (run reg evs) u = Some (runListener u l evs).
Proof.
  induction evs as [|e evs IH]; intros reg l Ht Hl; [exact Hl|].
  cbn [run runListener fold_left].
  apply (IH (step reg e)); [apply step_tracked; exact Ht|].
  destruct e as [l1|m|present]; cbn [step].
  - rewrite (add_listener N u l0 l1 reg Ht). exact Hl.
  - apply (handler_listener N u l0); assumption.
  - apply (ListenSmapChanged_listener N u l0); assumption.
Qed.

(** *** What the events say about the listener *)

Lemma stepListener_notifiers (u : string) (l : listener) (e : event) :
  l_notifiers (stepListener u l e) = l_notifiers l.
Proof.
  destruct e as [l1|m|present]; cbn [stepListener]; [reflexivity| |].
  - destruct (_ && _); [destruct (m_kind m)|]; reflexivity.
  - destruct (_ && _); reflexivity.
Qed.

Lemma delivered_cons (u : string) (e : event) (evs : list event) (n : string) :
  delivered u (e :: evs) n <-> delivered u [e] n \/ delivered u evs n.
Proof.
  unfold delivered. split.
  - intros (m & [Hm|Hm] & H); [left | right]; exists m; split; auto.
    left. exact Hm.
  - intros [(m & [Hm|[]] & H)|(m & Hm & H)]; exists m; split; auto;
      [left | right]; assumption.
Qed.

Lemma abortSent_cons (u : string) (N : gset string) (e : event) (evs : list event) :
  abortSent u N (e :: evs) <-> abortSent u N [e] \/ abortSent u N evs.
Proof.
  unfold abortSent. split.
  - intros (m & [Hm|Hm] & H); [left | right]; exists m; split; auto.
    left. exact Hm.
  - intros [(m & [Hm|[]] & H)|(m & Hm & H)]; exists m; split; auto;
      [left | right]; assumption.
Qed.

Lemma nodeLost_cons (N : gset string) (e : event) (evs : list event) :
  nodeLost N (e :: evs) <-> nodeLost N [e] \/ nodeLost N evs.
Proof.
  unfold nodeLost. split.
  - intros (m & [Hm|Hm] & H); [left | right]; exists m; split; auto.
    left. exact Hm.
  - intros [(m & [Hm|[]] & H)|(m & Hm & H)]; exists m; split; auto;
      [left | right]; assumption.
Qed.

Lemma stepListener_finished (u : string) (l : listener) (e : event) (n : string) :
  n ∈ l_finished (stepListener u l e)
  <-> n ∈ l_finished l \/ (n ∈ l_notifiers l /\ delivered u [e] n).
Proof.
  unfold delivered.
  destruct e as [l1|m|present]; cbn [stepListener].
  - split; [auto|]. intros [H|[_ (m & [Hm|[]] & _)]]; [exact H | discriminate Hm].
  - destruct (String.eqb_spec (m_uuid m) u) as [Hu|Hu]; cbn [andb].
    + case_bool_decide as Hin.
      * destruct (m_kind m) eqn:Ek.
        -- cbn [handleProgress l_finished]. split; [auto|].
           intros [H|[_ (m' & [Hm|[]] & _ & Hk & _)]]; [exact H|].
           injection Hm as <-. congruence.
        -- cbn [markFinished l_finished].
           rewrite elem_of_union, elem_of_singleton. split.
           ++ intros [->|H]; [right | left; exact H]. split; [exact Hin|].
              exists m. split; [left; reflexivity | auto].
           ++ intros [H|[_ (m' & [Hm|[]] & _ & _ & Hs)]]; [right; exact H|].
              injection Hm as <-. left. symmetry. exact Hs.
      * split; [auto|].
        intros [H|[Hn (m' & [Hm|[]] & _ & _ & Hs)]]; [exact H|].
        injection Hm as <-. subst n. contradiction.
    + split; [auto|].
      intros [H|[_ (m' & [Hm|[]] & Hu' & _)]]; [exact H|].
      injection Hm as <-. contradiction.
  - assert (H : l_finished (if negb (IsFinished l) && lostNotifier present l
                            then abortListener l else l) = l_finished l)
      by (destruct (_ && _); reflexivity).
    rewrite H. split; [auto|].
    intros [H'|[_ (m & [Hm|[]] & _)]]; [exact H' | discriminate Hm].
Qed.

Lemma runListener_notifiers (u : string) (evs : list event) :
  forall l, l_notifiers (runListener u l evs) = l_notifiers l.
Proof.
  induction evs as [|e evs IH]; intros l; [reflexivity|].
  cbn [runListener fold_left]. change (fold_left _ evs ?x) with (runListener u x evs).
  rewrite IH. apply stepListener_notifiers.
Qed.

Lemma runListener_finished (u : string) (n : string) (evs : list event) :
  forall l,
    n ∈ l_finished (runListener u l evs)
    <-> n ∈ l_finished l \/ (n ∈ l_notifiers l /\ delivered u evs n).
Proof.
  induction evs as [|e evs IH]; intros l.
  - cbn. split; [auto|]. intros [H|[_ (m & [] & _)]]. exact H.
  - cbn [runListener fold_left]. change (fold_left _ evs ?x) with (runListener u x evs).
    rewrite IH, stepListener_finished, stepListener_notifiers,
      (delivered_cons u e evs n).
    tauto.
Qed.

Lemma stepListener_aborted (u : string) (l : listener) (e : event) :
  (l_aborted l = true \/ abortSent u (l_notifiers l) [e] ->
   l_aborted (stepListener u l e) = true)
  /\ (l_aborted (stepListener u l e) = true ->
      l_aborted l = true \/ abortSent u (l_notifiers l) [e]
      \/ nodeLost (l_notifiers l) [e]).
Proof.
  unfold abortSent, nodeLost.
  destruct e as [l1|m|present]; cbn [stepListener].
  - split; [|auto]. intros [H|(m & [Hm|[]] & _)]; [exact H | discriminate Hm].
  - destruct (String.eqb_spec (m_uuid m) u) as [Hu|Hu]; cbn [andb].
    + case_bool_decide as Hin.
      * destruct (m_kind m) eqn:Ek.
        -- cbn [handleProgress l_aborted]. split; [|auto].
           intros [H|(m' & [Hm|[]] & _ & Hk & _)]; [exact H|].
           injection Hm as <-. congruence.
        -- cbn [markFinished l_aborted]. rewrite orb_true_iff. split.
           ++ intros [H|(m' & [Hm|[]] & _ & _ & _ & Ha)]; [left; exact H|].
              injection Hm as <-. right. exact Ha.
           ++ intros [H|H]; [left; exact H|]. right. left.
              exists m. split; [left; reflexivity | auto].
      * split; [|auto].
        intros [H|(m' & [Hm|[]] & _ & _ & Hs & _)]; [exact H|].
        injection Hm as <-. contradiction.
    + split; [|auto].
      intros [H|(m' & [Hm|[]] & Hu' & _)]; [exact H|].
      injection Hm as <-. contradiction.
  - destruct (negb (IsFinished l) && lostNotifier present l) eqn:E.
    + split; [reflexivity|]. intros _. right. right.
      apply andb_true_iff in E as [_ E]. unfold lostNotifier in E.
      apply negb_true_iff, bool_decide_eq_false in E.
      exists present. split; [left; reflexivity | exact E].
    + split; [|auto]. intros [H|(m & [Hm|[]] & _)]; [exact H | discriminate Hm].
Qed.

Lemma stepListener_IsFinished (u : string) (l : listener) (e : event) :
  IsFinished l = true \/ nodeLost (l_notifiers l) [e] ->
  IsFinished (stepListener u l e) = true.
Proof.
  intros H.
  destruct (IsFinished l) eqn:Efin.
  - (* finished stays finished *)
    clear H. apply IsFinished_spec in Efin. apply IsFinished_spec.
    rewrite stepListener_notifiers.
    destruct Efin as [Hf|Ha];
      [|right; apply (proj1 (stepListener_aborted u l e)); left; exact Ha].
    left. apply set_eq. intros n. rewrite stepListener_finished, Hf.
    split; [intros [H|[H _]]; exact H | auto].
  - destruct H as [H|(present & [He|[]] & Hlost)]; [discriminate|]. subst e.
    cbn [stepListener]. rewrite Efin. cbn [negb andb].
    assert (Hl : lostNotifier present l = true).
    { unfold lostNotifier. apply negb_true_iff, bool_decide_eq_false. exact Hlost. }
    rewrite Hl. unfold IsFinished. cbn. apply orb_true_r.
Qed.

Lemma runListener_IsFinished (u : string) (evs : list event) :
  forall l,
    IsFinished l = true \/ nodeLost (l_notifiers l) evs ->
    IsFinished (runListener u l evs) = true.
Proof.
  induction evs as [|e evs IH]; intros l H.
  - destruct H as [H|(present & [] & _)]. exact H.
  - cbn [runListener fold_left]. change (fold_left _ evs ?x) with (runListener u x evs).
    apply IH. rewrite stepListener_notifiers.
    rewrite (nodeLost_cons _ e evs) in H.
    destruct H as [H|[H|H]]; [| |right; exact H];
      left; apply stepListener_IsFinished; auto.
Qed.

Lemma runListener_aborted (u : string) (evs : list event) :
  forall l,
    (l_aborted l = true \/ abortSent u (l_notifiers l) evs ->
     l_aborted (runListener u l evs) = true)
    /\ (l_aborted (runListener u l evs) = true ->
        l_aborted l = true \/ abortSent u (l_notifiers l) evs
        \/ nodeLost (l_notifiers l) evs).
Proof.
  induction evs as [|e evs IH]; intros l.
  - cbn. split; [|auto]. intros [H|(m & [] & _)]. exact H.
  - cbn [runListener fold_left]. change (fold_left _ evs ?x) with (runListener u x evs).
    destruct (IH (stepListener u l e)) as [IH1 IH2].
    destruct (stepListener_aborted u l e) as [S1 S2].
    rewrite stepListener_notifiers in IH1, IH2.
    rewrite (abortSent_cons u _ e evs), (nodeLost_cons _ e evs). split.
    + intros [H|[H|H]]; apply IH1; auto.
    + intros H. destruct (IH2 H) as [H'|[H'|H']]; [|tauto|tauto].
      destruct (S2 H') as [H''|[H''|H'']]; tauto.
Qed.

(** The listener registered for [N], after the events [evs]. *)
Lemma listener_log (reg0 : registry) (u : string) (N : gset string)
      (evs : list event) :
  N <> ∅ -> filed reg0 -> listenerOf reg0 u = None ->
  callbackCount reg0 u = 0%nat ->
  let reg := run (fst (add reg0 (newListener u N))) evs in
  exists l,
    listenerOf reg u = Some l
    /\ (forall n, n ∈ l_finished l <-> n ∈ N /\ delivered u evs n)
    /\ (abortSent u N evs -> l_aborted l = true)
    /\ (l_aborted l = true -> abortSent u N evs \/ nodeLost N evs)
    /\ (callbackCount reg u = 1%nat
        <-> (forall n, n ∈ N -> delivered u evs n)
            \/ abortSent u N evs \/ nodeLost N evs).
Proof.
  intros HN Hfiled Hnone Hc reg.
  pose proof (add_fresh_tracked N u reg0 HN Hfiled Hnone Hc) as H1.
  assert (Hl0 : listenerOf (fst (add reg0 (newListener u N))) u
                = Some (newListener u N)).
  { rewrite listenerOf_unfold in Hnone. rewrite listenerOf_unfold. unfold add.
    cbn [l_uuid newListener].
    destruct (nls reg0 !! u) eqn:En; [discriminate|]. rewrite Hnone.
    cbn [fst nls]. rewrite lookup_insert_eq. reflexivity. }
  pose proof (run_listener N u _ evs _ _ H1 Hl0) as Hl. fold reg in Hl.
  pose proof (run_tracked N u _ evs _ H1) as H2. fold reg in H2.
  destruct (tracked_listener N u _ reg H2) as (l & Hl' & _ & Hcount & _).
  rewrite Hl in Hl'. injection Hl' as Hl'.
  set (l1 := runListener u (newListener u N) evs) in *. subst l.
  assert (HlN : l_notifiers l1 = N) by apply runListener_notifiers.
  assert (Hfin : forall n, n ∈ l_finished l1 <-> n ∈ N /\ delivered u evs n).
  { intros n. unfold l1. rewrite runListener_finished. cbn [newListener l_finished l_notifiers].
    split; [intros [H|H]; [|exact H] | auto].
    exfalso. exact (not_elem_of_empty _ H). }
  destruct (runListener_aborted u evs (newListener u N)) as [Ha1 Ha2].
  cbn [newListener l_aborted l_notifiers] in Ha1, Ha2. fold l1 in Ha1, Ha2.
  exists l1. split; [exact Hl|]. split; [exact Hfin|].
  split; [intros H; apply Ha1; right; exact H|].
  assert (Hab : l_aborted l1 = true -> abortSent u N evs \/ nodeLost N evs).
  { intros H. destruct (Ha2 H) as [H'|H']; [discriminate | exact H']. }
  split; [exact Hab|].
  rewrite Hcount. split.
  - destruct (IsFinished l1) eqn:E; [intros _ | discriminate].
    apply IsFinished_spec in E. destruct E as [E|E]; [left | right; auto].
    intros n Hn. apply (Hfin n). rewrite E, HlN. exact Hn.
  - intros H.
    assert (E : IsFinished l1 = true); [|rewrite E; reflexivity].
    destruct H as [H|[H|H]].
    + apply IsFinished_spec. left. rewrite HlN. apply set_eq. intros n.
      rewrite Hfin. split; [tauto | auto].
    + apply IsFinished_spec. right. apply Ha1. right. exact H.
    + apply runListener_IsFinished. right. exact H.
Qed.

End NotifFacts.

(** C9.  Register a listener for the non-empty notifier set [N] in a
    registry that does not know its uuid, and let any notifications, Smap
    changes and registrations follow ([evs], and later [evs']).  At every
    moment the listener is [Finished()] exactly when all of [N] have
    delivered a Finished notification or it is aborted, and its completion
    callback has been invoked once if it is finished and not at all
    otherwise: never before, and never a second time.  Whatever happens
    later, an aborted listener stays aborted and a finished one stays
    finished with its callback count at one.  In terms of what was
    received: the finished set holds exactly the notifiers of [N] whose
    Finished notification for this uuid is among the events so far; the
    listener is aborted when one of these notifications indicates abort,
    and only when one does or a new Smap lacks one of [N]; and the callback
    has been invoked (once) exactly when every notifier of [N] has
    delivered its Finished notification, or one of them indicated abort,
    or a new Smap lacked one of [N]. *)
Theorem listener_callback_exactly_once
        (reg0 : notifs.registry) (u : string) (N : gset string)
        (evs evs' : list notifs.event) :
  N <> ∅ ->
  filed reg0 ->
  notifs.listenerOf reg0 u = None ->
  notifs.callbackCount reg0 u = 0%nat ->
  let reg := notifs.run (fst (notifs.add reg0 (notifs.newListener u N))) evs in
  let reg' := notifs.run reg evs' in
  exists l l',
    notifs.listenerOf reg u = Some l
    /\ notifs.listenerOf reg' u = Some l'
    /\ notifs.l_notifiers l = N
    /\ notifs.l_finished l ⊆ N
    /\ (notifs.IsFinished l = true
        <-> notifs.l_finished l = N \/ notifs.l_aborted l = true)
    /\ notifs.callbackCount reg u = (if notifs.IsFinished l then 1 else 0)%nat
    /\ notifs.callbackCount reg' u = (if notifs.IsFinished l' then 1 else 0)%nat
    /\ notifs.l_finished l ⊆ notifs.l_finished l'
    /\ (notifs.l_aborted l = true -> notifs.l_aborted l' = true)
    /\ (notifs.IsFinished l = true ->
        notifs.IsFinished l' = true /\ notifs.callbackCount reg' u = 1%nat)
    /\ (forall n, n ∈ notifs.l_finished l <-> n ∈ N /\ delivered u evs n)
    /\ (abortSent u N evs -> notifs.l_aborted l = true)
    /\ (notifs.l_aborted l = true -> abortSent u N evs \/ nodeLost N evs)
    /\ (notifs.callbackCount reg u = 1%nat
        <-> (forall n, n ∈ N -> delivered u evs n)
            \/ abortSent u N evs \/ nodeLost N evs)
    /\ (notifs.callbackCount reg' u = 1%nat
        <-> (forall n, n ∈ N -> delivered u (evs ++ evs') n)
            \/ abortSent u N (evs ++ evs') \/ nodeLost N (evs ++ evs')).
Proof.
  intros HN Hfiled Hnone Hc reg reg'.
  pose proof (add_fresh_tracked N u reg0 HN Hfiled Hnone Hc) as H1.
  pose proof (run_tracked N u _ evs _ H1) as H2. fold reg in H2.
  destruct (tracked_listener N u _ reg H2) as (l & Hl & (HlN & Hlsub & _) & Hlc & _).
  pose proof (tracked_rebase N u _ l reg H2 Hl) as H3.
  pose proof (run_tracked N u _ evs' _ H3) as H4. fold reg' in H4.
  destruct (tracked_listener N u _ reg' H4)
    as (l' & Hl' & (Hl'N & Hl'sub & Hprog) & Hl'c & _).
  exists l, l'.
  assert (Hmono : notifs.IsFinished l = true -> notifs.IsFinished l' = true)
    by (apply (IsFinished_progressed N); auto).
  destruct (listener_log reg0 u N evs HN Hfiled Hnone Hc)
    as (l1 & Hl1 & Hfin & Hab1 & Hab2 & Hcb).
  fold reg in Hl1, Hcb. rewrite Hl in Hl1. injection Hl1 as <-.
  destruct (listener_log reg0 u N (evs ++ evs') HN Hfiled Hnone Hc)
    as (_ & _ & _ & _ & _ & Hcb').
  assert (Hrun : notifs.run (fst (notifs.add reg0 (notifs.newListener u N)))
                            (evs ++ evs') = reg')
    by (unfold reg', reg, notifs.run; apply fold_left_app).
  rewrite Hrun in Hcb'.
  split; [exact Hl|]. split; [exact Hl'|]. split; [exact HlN|].
  split; [exact Hlsub|].
  split; [rewrite IsFinished_spec, HlN; reflexivity|].
  split; [exact Hlc|]. split; [exact Hl'c|].
  split; [apply Hprog|]. split; [apply Hprog|].
  split; [intros H; split; [auto | rewrite Hl'c, Hmono; auto]|].
  split; [exact Hfin|]. split; [exact Hab1|]. split; [exact Hab2|].
  split; [exact Hcb | exact Hcb'].
Qed.

Lemma listener_callback_exactly_once_witness :
  let evs := [sample.notif notifs.Finished "target1" false;
              sample.notif notifs.Progress "target2" false;
              sample.notif notifs.Finished "target2" false] in
  let reg := notifs.run (fst (notifs.add notifs.emptyRegistry sample.nl)) evs in
  let reg' := notifs.run reg [sample.notif notifs.Finished "target2" false;
                              notifs.EvSmap {["target1"]}] in
  notifs.callbackCount reg sample.xactID = 1%nat
  /\ notifs.callbackCount reg' sample.xactID = 1%nat
  /\ notifs.callbackCount
       (notifs.run (fst (notifs.add notifs.emptyRegistry sample.nl))
                   [sample.notif notifs.Finished "target1" false;
                    sample.notif notifs.Progress "target2" false])
       sample.xactID = 0%nat.
Proof.
  intros evs reg reg'.
  destruct (listener_callback_exactly_once notifs.emptyRegistry sample.xactID
              {["target1"; "target2"]} evs
              [sample.notif notifs.Finished "target2" false;
               notifs.EvSmap {["target1"]}])
    as (l & l' & Hl & Hl' & _ & _ & _ & Hc & _ & _ & _ & Hfin & _ & _ & _ & Hcb & _).
  - intros H. assert (Hin : "target1" ∈ ({["target1"; "target2"]} : gset string))
      by (apply elem_of_union_l, elem_of_singleton; reflexivity).
    rewrite H in Hin. exact (not_elem_of_empty _ Hin).
  - split; intros k l0; cbn; rewrite lookup_empty; discriminate.
  - reflexivity.
  - reflexivity.
  - fold reg in Hl, Hc, Hfin, Hcb. fold reg' in Hfin.
    assert (Hone : notifs.callbackCount reg sample.xactID = 1%nat).
    { apply Hcb. left. intros n Hn.
      apply elem_of_union in Hn. rewrite !elem_of_singleton in Hn.
      destruct Hn as [-> | ->].
      - exists (notifs.mkNotifMsg sample.xactID notifs.Finished "target1" 0 false None).
        split; [left; reflexivity | repeat split].
      - exists (notifs.mkNotifMsg sample.xactID notifs.Finished "target2" 0 false None).
        split; [right; right; left; reflexivity | repeat split]. }
    assert (Hf : notifs.IsFinished l = true).
    { destruct (notifs.IsFinished l); [reflexivity|].
      assert (H10 : 1%nat = 0%nat)
        by (etransitivity; [symmetry; exact Hone | exact Hc]).
      discriminate H10. }
    split; [exact Hone|]. split; [apply Hfin; exact Hf|].
    vm_compute. reflexivity.
Defined.

(** * Further properties of the code *)

(** ** The rebalance trigger, continued *)

Lemma bool_eq_of_iff (a b : bool) : (a = true <-> b = true) -> a = b.
Proof.
  destruct a, b; intros [H1 H2]; auto.
  - symmetry. auto.
Qed.

(** X1.  [mustRunRebalance] does not tell joining from leaving: with nothing
    cached in [_mustReb], the transition from [prev] to [cur] requires a
    rebalance exactly when the transition from [cur] to [prev] does. *)
Theorem mustRunRebalance_symmetric
        (rebEnabled : bool) (ctx ctx' : ais.smapModifier) :
  ais._mustReb ctx = false ->
  ais._mustReb ctx' = false ->
  snd (ais.mustRunRebalance rebEnabled ctx (ais.ctx_smap ctx'))
  = snd (ais.mustRunRebalance rebEnabled ctx' (ais.ctx_smap ctx)).
Proof.
  intros H H'. destruct rebEnabled.
  - apply bool_eq_of_iff.
    rewrite (proj1 (mustRunRebalance_enabled ctx (ais.ctx_smap ctx') H)).
    rewrite (proj1 (mustRunRebalance_enabled ctx' (ais.ctx_smap ctx) H')).
    unfold ais.spec_mustRunRebalance. tauto.
  - unfold ais.mustRunRebalance. rewrite H, H'. reflexivity.
Qed.

Lemma mustRunRebalance_symmetric_witness :
  snd (ais.mustRunRebalance true (sample.ctx_of sample.smap_t1t2 false)
         (ais.ctx_smap (sample.ctx_of sample.smap_t1 false)))
  = snd (ais.mustRunRebalance true (sample.ctx_of sample.smap_t1 false)
           (ais.ctx_smap (sample.ctx_of sample.smap_t1t2 false))).
Proof.
  apply (mustRunRebalance_symmetric true
           (sample.ctx_of sample.smap_t1t2 false)
           (sample.ctx_of sample.smap_t1 false)); reflexivity.
Defined.

(** X2.  A modification that leaves the target map as it was (a proxy joins
    or leaves, the primary changes) never requires a rebalance, whatever the
    configuration, as long as nothing is cached in [_mustReb] and the targets
    are filed under their ids. *)
Theorem mustRunRebalance_same_targets
        (rebEnabled : bool) (ctx : ais.smapModifier) (cur : cluster.Smap) :
  ais._mustReb ctx = false ->
  keyed (ais.ctx_smap ctx) ->
  cluster.Tmap cur = cluster.Tmap (ais.ctx_smap ctx) ->
  ais.mustRunRebalance rebEnabled ctx cur = (ais.set_mustReb ctx false, false)
  \/ ais.mustRunRebalance rebEnabled ctx cur = (ctx, false).
Proof.
  intros Hm Hkeyed HT. destruct rebEnabled.
  - left.
    destruct (mustRunRebalance_enabled ctx cur Hm) as [Hiff Hfst].
    assert (Hno : forall a b : cluster.Smap,
               cluster.Tmap a = cluster.Tmap (ais.ctx_smap ctx) ->
               cluster.Tmap b = cluster.Tmap (ais.ctx_smap ctx) ->
               ~ exists t, ais.active_target_in a t
                           /\ ais.absent_or_maintenance b (cluster.ID t)).
    { intros a b Ha Hb (t & ((key & Hk) & _ & Hact) & Habs).
      rewrite Ha in Hk. pose proof (Hkeyed _ _ Hk) as Hid.
      assert (Hg : cluster.GetNode b (cluster.ID t) = Some t).
      { unfold cluster.GetNode, cluster.GetTarget. rewrite Hb, Hid, Hk. reflexivity. }
      destruct Habs as [Habs|(n & Hn & Hmaint)]; [congruence|].
      rewrite Hg in Hn. injection Hn as <-.
      unfold cluster.InMaintenance in Hmaint. congruence. }
    assert (Hfalse : snd (ais.mustRunRebalance true ctx cur) = false).
    { destruct (snd (ais.mustRunRebalance true ctx cur)) eqn:E; [|reflexivity].
      exfalso. destruct (proj1 Hiff eq_refl) as [[H|H] _].
      - exact (Hno cur (ais.ctx_smap ctx) HT eq_refl H).
      - exact (Hno (ais.ctx_smap ctx) cur eq_refl HT H). }
    rewrite Hfalse in Hfst.
    destruct (ais.mustRunRebalance true ctx cur) as [c b]. cbn [fst snd] in *.
    congruence.
  - right. unfold ais.mustRunRebalance. rewrite Hm. reflexivity.
Qed.

Lemma mustRunRebalance_same_targets_witness :
  snd (ais.mustRunRebalance true (sample.ctx_of sample.smap_t1t2 false)
         (cluster.mkSmap (cluster.Tmap sample.smap_t1t2) {["p1" := sample.p1]}
                         (Some sample.p1) 7 "cluster-uuid")) = false.
Proof.
  destruct (mustRunRebalance_same_targets true
              (sample.ctx_of sample.smap_t1t2 false)
              (cluster.mkSmap (cluster.Tmap sample.smap_t1t2) {["p1" := sample.p1]}
                              (Some sample.p1) 7 "cluster-uuid") eq_refl)
    as [H|H]; try (rewrite H; reflexivity); try reflexivity.
  intros k t.
  apply (map_Forall_lookup_1 (fun k t => cluster.ID t = k)).
  apply map_Forall_to_list. vm_compute. repeat constructor.
Defined.

(** ** The round-trip estimator, continued *)

(** X3.  One update of the estimator moves the smoothed round-trip time
    towards the sample and never past it, and the variation stays between
    zero and the larger of its old value and the distance of the sample:
    [min srtt d <= srtt' <= max srtt d] and
    [0 <= rttvar' <= max rttvar |srtt - d|]. *)
Theorem updateStats_smoothing (maxKA d : Z) (ts : Keepalive.timeoutStats) :
  0 <= d <= exact_bound ->
  0 <= Keepalive.srtt ts <= exact_bound ->
  0 <= Keepalive.rttvar ts <= exact_bound ->
  0 <= maxKA <= exact_bound ->
  let ts' := Keepalive.updateStats maxKA ts d in
  Z.min (Keepalive.srtt ts) d <= Keepalive.srtt ts' <= Z.max (Keepalive.srtt ts) d
  /\ 0 <= Keepalive.rttvar ts'
     <= Z.max (Keepalive.rttvar ts) (Z.abs (Keepalive.srtt ts - d)).
Proof.
  intros Hd Hs Hv Hm. cbv zeta.
  rewrite updateStats_exact by assumption.
  unfold Keepalive.spec_update. cbn [Keepalive.srtt Keepalive.rttvar].
  change (1000 - 125) with 875. change (1000 - 250) with 750.
  split; apply round_div_1000_between; lia.
Qed.

Lemma updateStats_smoothing_witness :
  let ts' := Keepalive.updateStats 2000000000
               (Keepalive.mkTimeoutStats 2000000000 1000000000 2000000000)
               400000000 in
  400000000 <= Keepalive.srtt ts' <= 2000000000
  /\ 0 <= Keepalive.rttvar ts' <= 1600000000.
Proof.
  apply (updateStats_smoothing 2000000000 400000000
           (Keepalive.mkTimeoutStats 2000000000 1000000000 2000000000));
    unfold exact_bound; cbn; lia.
Defined.

(** ** The commit phase of [cluSetPrimary] *)

Lemma fold_emit_fields (l : list ais.effect) (p : ais.proxyrunner) :
  let p' := fold_left ais.emit l p in
  ais.smap p' = ais.smap p
  /\ ais.rmd p' = ais.rmd p
  /\ ais.inPrimaryTransition p' = ais.inPrimaryTransition p
  /\ ais.trace p' = ais.trace p ++ l.
Proof.
  revert p. induction l as [|e l IH]; intros p; cbn [fold_left].
  - rewrite app_nil_r. auto.
  - cbv zeta in IH. destruct (IH (ais.emit p e)) as (H1 & H2 & H3 & H4).
    rewrite H1, H2, H3, H4. cbn. rewrite <- app_assoc. auto.
Qed.

Lemma fold_emit_more (l : list ais.effect) (p : ais.proxyrunner) :
  let p' := fold_left ais.emit l p in
  ais.si p' = ais.si p
  /\ ais.clusterStarted p' = ais.clusterStarted p
  /\ ais.nodeStarted p' = ais.nodeStarted p
  /\ ais.reg_pool p' = ais.reg_pool p.
Proof.
  revert p. induction l as [|e l IH]; intros p; cbn [fold_left].
  - auto.
  - cbv zeta in IH. destruct (IH (ais.emit p e)) as (H1 & H2 & H3 & H4).
    rewrite H1, H2, H3, H4. cbn. auto.
Qed.

Lemma commitLoop_result (proxyid : string) (results : list ais.callResult) :
  forall p, exists logs,
    Forall (fun e => is_log e = true) logs
    /\ ais.commitLoop p proxyid results
       = (fold_left ais.emit
            (logs ++ if candidateFailed proxyid results
                     then [ais.Exit proxyid] else []) p,
          candidateFailed proxyid results).
Proof.
  induction results as [|res rest IH]; intros p; cbn [ais.commitLoop candidateFailed existsb].
  - exists []. split; [constructor | reflexivity].
  - destruct (ais.res_failed res); cbn [negb andb orb].
    + destruct (String.eqb (cluster.ID (ais.res_si res)) proxyid); cbn [orb].
      * exists []. split; [constructor | reflexivity].
      * destruct (IH (ais.emit p (ais.Log (ais.ErrCommitFailure (cluster.ID (ais.res_si res))))))
          as (logs & Hl & He).
        exists (ais.Log (ais.ErrCommitFailure (cluster.ID (ais.res_si res))) :: logs).
        split; [constructor; [reflexivity | exact Hl] | exact He].
    + exact (IH p).
Qed.

(** X4.  Once every node has accepted the prepare phase, [cluSetPrimary]
    always reassigns the primary in the local Smap (proxies and targets
    stay as they are).  A failure of another node in the commit phase is
    only logged.  If the candidate itself fails to commit, the process
    exits with the primary-transition flag still raised and the request is
    not answered; otherwise the flag is cleared as the last step and the
    answer is 200. *)
Theorem cluSetPrimary_commit
        (p : ais.proxyrunner) (env : ais.setPrimaryEnv)
        (proxyid : string) (rest : list string) (psi : cluster.Snode) :
  ais.sp_forwardCP env = false ->
  cluster.GetProxy (ais.smap p) proxyid = Some psi ->
  String.eqb proxyid (cluster.ID (ais.si p)) = false ->
  ais.PresentInMaint (ais.smap p) psi = false ->
  ais.clusterStarted p = true ->
  ais.rmd_startup p = false ->
  ais.sp_cluMeta env = true ->
  Forall (fun res => ais.res_failed res = false) (ais.sp_prepare env) ->
  let p' := fst (ais.cluSetPrimary p env (proxyid :: rest)) in
  let failed := candidateFailed proxyid (ais.sp_commit env) in
  snd (ais.cluSetPrimary p env (proxyid :: rest))
  = (if failed then ais.RespExited else ais.RespOK)
  /\ cluster.Primary (ais.smap p') = Some psi
  /\ cluster.Tmap (ais.smap p') = cluster.Tmap (ais.smap p)
  /\ cluster.Pmap (ais.smap p') = cluster.Pmap (ais.smap p)
  /\ ais.inPrimaryTransition p' = failed
  /\ exists logs,
       Forall (fun e => is_log e = true) logs
       /\ ais.trace p'
          = ais.trace p
            ++ [ais.Bcast true proxyid; ais.StoreInPrimaryTransition true;
                ais.BecomeNonPrimary; ais.Bcast false proxyid]
            ++ logs
            ++ [if failed then ais.Exit proxyid
                else ais.StoreInPrimaryTransition false].
Proof.
  intros Hfwd Hpsi Hself Hmaint Hcs Hrs Hcm Hprep. cbv zeta.
  unfold ais.cluSetPrimary.
  rewrite Hfwd, Hpsi, Hself, Hmaint, Hcs, Hrs, Hcm. cbn [negb orb].
  assert (Hff : ais.firstFailed (ais.sp_prepare env) = None).
  { unfold ais.firstFailed.
    induction Hprep as [|res l Hres _ IH]; cbn [find]; [reflexivity|].
    rewrite Hres. exact IH. }
  rewrite Hff.
  match goal with |- context [ais.commitLoop ?q proxyid ?l] =>
    destruct (commitLoop_result proxyid l q) as (logs & Hlogs & He); rewrite He
  end.
  clear He.
  match goal with |- context [fold_left ais.emit ?l ?q] =>
    pose proof (fold_emit_fields l q) as Hf; cbv zeta in Hf;
    destruct Hf as (Hs & _ & Ht & Htr)
  end.
  destruct (candidateFailed proxyid (ais.sp_commit env)); cbn [fst snd].
  - rewrite Hs, Ht, Htr. cbn.
    repeat split; auto. exists logs. split; [exact Hlogs|].
    rewrite <- !app_assoc. reflexivity.
  - cbn. rewrite Hs, Htr. cbn.
    repeat split; auto. exists logs. split; [exact Hlogs|].
    rewrite app_nil_r, <- !app_assoc. reflexivity.
Qed.

Lemma cluSetPrimary_commit_witness :
  let env := ais.mkSetPrimaryEnv false true
               [ais.mkCallResult sample.p2 false; ais.mkCallResult sample.t1 false]
               [ais.mkCallResult sample.t1 true; ais.mkCallResult sample.p2 true] in
  let p' := fst (ais.cluSetPrimary (sample.primary sample.smap_t1) env ["p2"]) in
  snd (ais.cluSetPrimary (sample.primary sample.smap_t1) env ["p2"])
  = ais.RespExited
  /\ cluster.Primary (ais.smap p') = Some sample.p2
  /\ ais.inPrimaryTransition p' = true.
Proof.
  intros env p'.
  destruct (cluSetPrimary_commit (sample.primary sample.smap_t1) env "p2" []
              sample.p2) as (H0 & H1 & _ & _ & H2 & _);
    try reflexivity.
  - repeat constructor.
  - split; [exact H0|]. split; [exact H1 | exact H2].
Defined.

(** ** Keepalives and joins during startup *)

Ltac trace_eq := rewrite ?app_nil_r; rewrite <- ?app_assoc; reflexivity.

Section JoinMore.

Import cluster ais.

Variable staffIC : Smap -> Smap.

Lemma setNodeFlags_Equals (m : Smap) (osi nsi : Snode) (ne : bool) :
  Equals osi (setNodeFlags m nsi ne) = Equals osi nsi.
Proof. reflexivity. Qed.

Lemma setNodeFlags_IsProxy (m : Smap) (nsi : Snode) (ne : bool) :
  IsProxy (setNodeFlags m nsi ne) = IsProxy nsi.
Proof. reflexivity. Qed.

Lemma setNodeFlags_ID (m : Smap) (nsi : Snode) (ne : bool) :
  ID (setNodeFlags m nsi ne) = ID nsi.
Proof. reflexivity. Qed.

(** A keepalive that passes the validations of the handler arrives at
    [handleJoinKalive] with the state [p1] and the descriptor [nsi']. *)
Lemma httpclupost_keepalive (p : proxyrunner) (env : joinEnv) (r : joinRequest)
      (rest : list string) (regReq : cluMeta) :
  apiItems r = Keepalive :: rest ->
  inPrimaryTransition p = false ->
  env_forwardCP env = false ->
  body r = Some regReq ->
  env_nodeValid env = true ->
  (nodeStarted p = true -> env_bmdUUID env = true) ->
  env_hostname env = true ->
  let nsi' := setNodeFlags (smap p) (SI regReq)
                           (snd (parseNonElectable p env (SI regReq))) in
  httpclupost staffIC p env r
  = joinLocked staffIC (fst (parseNonElectable p env (SI regReq)))
               env Keepalive nsi' regReq.
Proof.
  intros Hitems Htr Hfwd Hbody Hvalid Hbmd Hhost. cbv zeta.
  unfold httpclupost. rewrite Hitems, Htr, Hfwd. cbn [andb].
  unfold unmarshalJoin.
  change (String.eqb Keepalive AdminJoin) with false.
  change (String.eqb Keepalive SelfJoin) with false.
  change (String.eqb Keepalive Keepalive) with true. cbn iota.
  rewrite Hbody, Hvalid, Hhost. cbn [negb].
  assert (Hb : nodeStarted p && negb (env_bmdUUID env) = false).
  { destruct (nodeStarted p); [rewrite Hbmd by reflexivity|]; reflexivity. }
  rewrite Hb.
  assert (Hs : smap (fst (parseNonElectable p env (SI regReq))) = smap p)
    by apply parseNonElectable_quiet.
  destruct (parseNonElectable p env (SI regReq)) as [p1 ne]. cbn [fst snd] in *.
  rewrite Hs. unfold checkJoin.
  change (String.eqb Keepalive AdminJoin) with false.
  change (String.eqb Keepalive SelfJoin) with false. cbn iota.
  reflexivity.
Qed.

(** X5.  A keepalive from a node that the primary has in its Smap is answered
    200 and changes neither the Smap nor the RMD, unless the node's identity
    fields changed and the probe found no live duplicate.  With unchanged
    identity the only effect besides logging is one [heardFrom] for the
    node; with changed identity and a live duplicate, or a failed probe, the
    keepalive is dropped with a log entry and not even [heardFrom] is
    recorded. *)
Theorem keepalive_of_registered_node
        (p : proxyrunner) (env : joinEnv) (r : joinRequest)
        (rest : list string) (regReq : cluMeta) (osi : Snode) :
  let nsi := SI regReq in
  let p' := fst (httpclupost staffIC p env r) in
  let resp := snd (httpclupost staffIC p env r) in
  apiItems r = Keepalive :: rest ->
  inPrimaryTransition p = false ->
  env_forwardCP env = false ->
  body r = Some regReq ->
  env_nodeValid env = true ->
  (nodeStarted p = true -> env_bmdUUID env = true) ->
  env_hostname env = true ->
  isPrimary (smap p) (si p) = true ->
  (if IsProxy nsi then GetProxy (smap p) (ID nsi)
   else GetTarget (smap p) (ID nsi)) = Some osi ->
  (Equals osi nsi = false -> env_duplicate env <> Some false) ->
  resp = RespOK /\ smap p' = smap p /\ rmd p' = rmd p
  /\ exists pre post,
       trace p' = trace p ++ pre ++ post
       /\ Forall (fun e => is_log e = true) post
       /\ if Equals osi nsi
          then exists logs, pre = logs ++ [HeardFrom (ID nsi) false]
                            /\ Forall (fun e => is_log e = true) logs
          else Forall (fun e => is_log e = true) pre.
Proof.
  intros nsi p' resp Hitems Htr Hfwd Hbody Hvalid Hbmd Hhost Hprim Hosi Hdup.
  subst p' resp.
  rewrite (httpclupost_keepalive p env r rest regReq
             Hitems Htr Hfwd Hbody Hvalid Hbmd Hhost).
  cbv zeta. fold nsi.
  set (ne := snd (parseNonElectable p env nsi)).
  set (nsi' := setNodeFlags (smap p) nsi ne).
  pose proof (parseNonElectable_quiet p env nsi) as Hq.
  set (p1 := fst (parseNonElectable p env nsi)) in *.
  destruct Hq as (Hs & Hr & Hsi & _ & _ & _ & Hns & _ & (l1 & Ht1 & Hl1)).
  unfold joinLocked, handleJoinKalive.
  change (String.eqb Keepalive Keepalive) with true.
  rewrite Hs, Hsi, Hprim. cbn [negb].
  rewrite (setNodeFlags_IsProxy (smap p) nsi ne : IsProxy nsi' = IsProxy nsi).
  rewrite (setNodeFlags_ID (smap p) nsi ne : ID nsi' = ID nsi).
  assert (Hadd : (if IsProxy nsi
                  then addOrUpdateNode p1 env nsi' (GetProxy (smap p) (ID nsi)) true
                  else addOrUpdateNode p1 env nsi' (GetTarget (smap p) (ID nsi)) true)
                 = addOrUpdateNode p1 env nsi' (Some osi) true).
  { destruct (IsProxy nsi); rewrite Hosi; reflexivity. }
  rewrite Hadd. clear Hadd.
  unfold addOrUpdateNode.
  rewrite (setNodeFlags_Equals (smap p) osi nsi ne : Equals osi nsi' = Equals osi nsi).
  rewrite (setNodeFlags_ID (smap p) nsi ne : ID nsi' = ID nsi).
  destruct (Equals osi nsi) eqn:Heq; cbn [negb].
  - (* unchanged identity *)
    destruct (negb (IsProxy nsi) && nodeStarted (emit p1 (HeardFrom (ID nsi) false)));
      [destruct (negb (rmd_rebalance (emit p1 (HeardFrom (ID nsi) false))));
       [destruct (RebInterrupted regReq)|]|];
      cbn [fst snd trace emit set_rmd_rebalance smap rmd];
      (split; [reflexivity|]); (split; [exact Hs|]); (split; [exact Hr|]);
      rewrite Ht1.
    + exists (l1 ++ [HeardFrom (ID nsi) false]), [Log (ErrRebInterrupted (ID nsi))].
      split; [trace_eq|].
      split; [repeat constructor|]. exists l1. auto.
    + exists (l1 ++ [HeardFrom (ID nsi) false]), [].
      split; [trace_eq|].
      split; [constructor|]. exists l1. auto.
    + exists (l1 ++ [HeardFrom (ID nsi) false]), [].
      split; [trace_eq|].
      split; [constructor|]. exists l1. auto.
    + exists (l1 ++ [HeardFrom (ID nsi) false]), [].
      split; [trace_eq|].
      split; [constructor|]. exists l1. auto.
  - (* changed identity *)
    specialize (Hdup eq_refl).
    destruct (env_duplicate env) as [[|]|]; [| congruence |];
      cbn [negb];
      match goal with
      | |- context [emit p1 (Log ?m)] => set (q := emit p1 (Log m))
      end;
      (destruct (negb (IsProxy nsi) && nodeStarted q);
       [destruct (negb (rmd_rebalance q)); [destruct (RebInterrupted regReq)|]|]);
      subst q;
      cbn [fst snd trace emit set_rmd_rebalance smap rmd];
      (split; [reflexivity|]); (split; [exact Hs|]); (split; [exact Hr|]);
      rewrite Ht1;
      match goal with
      | |- context [((trace p ++ l1) ++ [?a]) ++ [?b]] =>
          exists (l1 ++ [a]), [b];
          split; [trace_eq|]; split; [repeat constructor|];
          apply Forall_app; split; [exact Hl1 | repeat constructor]
      | |- context [(trace p ++ l1) ++ [?a]] =>
          exists (l1 ++ [a]), [];
          split; [trace_eq|]; split; [constructor|];
          apply Forall_app; split; [exact Hl1 | repeat constructor]
      end.
Qed.

End JoinMore.

Lemma keepalive_of_registered_node_witness :
  let r := ais.mkJoinRequest [ais.Keepalive]
             (Some (ais.mkCluMeta sample.t2 None "bmd-uuid" false)) in
  let p := sample.primary sample.smap_t1t2 in
  snd (ais.httpclupost sample.staffIC p (sample.env_ok None) r) = ais.RespOK
  /\ ais.smap (fst (ais.httpclupost sample.staffIC p (sample.env_ok None) r))
     = ais.smap p.
Proof.
  intros r p.
  destruct (keepalive_of_registered_node sample.staffIC p (sample.env_ok None)
              r [] (ais.mkCluMeta sample.t2 None "bmd-uuid" false) sample.t2)
    as (H1 & H2 & _); try reflexivity.
  - intros H. vm_compute in H. discriminate H.
  - split; [exact H1 | exact H2].
Defined.

Section JoinStartup.

Import cluster ais.

Variable staffIC : Smap -> Smap.

(** X6.  While the cluster is starting up, the primary takes a self-join of
    a node that is not in its Smap by putting the node into the Smap
    directly: the joining node is added to the pool of joins to be replayed,
    the answer is 200 with an empty body (no cluster-meta), and nothing is
    metasynced; the RMD stays as it is. *)
Theorem selfjoin_during_startup
        (p : proxyrunner) (env : joinEnv) (r : joinRequest)
        (rest : list string) (regReq : cluMeta) :
  let nsi := SI regReq in
  let nsi' := setNodeFlags (smap p) nsi (snd (parseNonElectable p env nsi)) in
  let p' := fst (httpclupost staffIC p env r) in
  let resp := snd (httpclupost staffIC p env r) in
  apiItems r = SelfJoin :: rest ->
  env_forwardCP env = false ->
  body r = Some regReq ->
  env_nodeValid env = true ->
  (nodeStarted p = true -> env_bmdUUID env = true) ->
  env_hostname env = true ->
  clusterStarted p = false ->
  isPrimary (smap p) (si p) = true ->
  GetNode (smap p) (ID nsi) = None ->
  env_cie env = true ->
  resp = RespOK
  /\ smap p' = fst (putNode (smap p) nsi' (Flags nsi'))
  /\ rmd p' = rmd p
  /\ reg_pool p' = reg_pool p ++ [regReq]
  /\ exists logs, trace p' = trace p ++ logs
                  /\ Forall (fun e => is_log e = true) logs.
Proof.
  intros nsi nsi' p' resp Hitems Hfwd Hbody Hvalid Hbmd Hhost Hcs Hprim Hget Hcie.
  assert (Hgp : GetProxy (smap p) (ID nsi) = None /\ GetTarget (smap p) (ID nsi) = None).
  { unfold GetNode in Hget. destruct (GetTarget (smap p) (ID nsi)); [discriminate|].
    auto. }
  destruct Hgp as [Hgp Hgt].
  subst p' resp. unfold httpclupost. rewrite Hitems, Hfwd.
  change (String.eqb SelfJoin Keepalive) with false. rewrite andb_false_r.
  unfold unmarshalJoin.
  change (String.eqb SelfJoin AdminJoin) with false.
  change (String.eqb SelfJoin SelfJoin) with true. cbn iota.
  rewrite Hbody, Hcs, Hvalid, Hhost. cbn [negb].
  set (p0 := set_reg_pool p (reg_pool p ++ [regReq])).
  assert (Hb : nodeStarted p0 && negb (env_bmdUUID env) = false).
  { change (nodeStarted p0) with (nodeStarted p).
    destruct (nodeStarted p); [rewrite Hbmd by reflexivity|]; reflexivity. }
  rewrite Hb.
  assert (Hne : snd (parseNonElectable p0 env nsi) = snd (parseNonElectable p env nsi)).
  { unfold parseNonElectable. destruct (IsProxy _); [destruct (env_nonElectable _)|];
      reflexivity. }
  assert (Hp1 : exists l1, Forall (fun e => is_log e = true) l1
                 /\ fst (parseNonElectable p0 env nsi) = fold_left emit l1 p0).
  { unfold parseNonElectable. destruct (IsProxy _); [destruct (env_nonElectable _)|].
    - exists []. split; [constructor | reflexivity].
    - exists [Log ErrNonElectableParse]. split; [repeat constructor | reflexivity].
    - exists []. split; [constructor | reflexivity]. }
  destruct Hp1 as (l1 & Hl1 & Hp1).
  fold nsi.
  destruct (parseNonElectable p0 env nsi) as [p1 ne]. cbn [fst snd] in *.
  subst ne p1.
  set (p1 := fold_left emit l1 p0).
  assert (Hf : smap p1 = smap p /\ rmd p1 = rmd p /\ trace p1 = trace p ++ l1
               /\ si p1 = si p /\ clusterStarted p1 = false
               /\ reg_pool p1 = reg_pool p ++ [regReq]).
  { subst p1.
    destruct (fold_emit_fields l1 p0) as (A & B & _ & C).
    destruct (fold_emit_more l1 p0) as (D & E & _ & F).
    rewrite A, B, C, D, E. subst p0. cbn [smap rmd trace si clusterStarted reg_pool set_reg_pool]. repeat split; auto. }
  destruct Hf as (Hs1 & Hr1 & Ht1 & Hsi1 & Hcs1 & Hpool1).
  rewrite Hs1. fold nsi'.
  unfold checkJoin.
  change (String.eqb SelfJoin AdminJoin) with false.
  change (String.eqb SelfJoin SelfJoin) with true. cbn iota.
  change (ID nsi') with (ID nsi). rewrite Hget.
  unfold joinLocked, handleJoinKalive.
  change (String.eqb SelfJoin Keepalive) with false.
  rewrite Hs1, Hsi1, Hprim. cbn [negb].
  change (ID nsi') with (ID nsi). rewrite Hgp.
  assert (Hgo : (if IsProxy nsi' then addOrUpdateNode p1 env nsi' None false
                 else (p1, true)) = (p1, true)).
  { destruct (IsProxy nsi'); reflexivity. }
  rewrite Hgo. cbn [negb]. rewrite Hcie, Hcs1. cbn [negb].
  destruct (putNode (smap p) nsi' (Flags nsi')) as [clone ex] eqn:Hput.
  cbn [fst snd].
  destruct (negb (IsProxy nsi') && nodeStarted (put_smap p1 clone));
    [destruct (negb (rmd_rebalance (put_smap p1 clone)));
     [destruct (RebInterrupted regReq)|]|];
    cbn [fst snd negb smap rmd reg_pool trace emit set_rmd_rebalance put_smap];
    rewrite ?Hr1, ?Hpool1, ?Ht1;
    (split; [reflexivity|]); (split; [reflexivity|]); (split; [reflexivity|]);
    (split; [reflexivity|]).
  - exists (l1 ++ [Log (ErrRebInterrupted (ID nsi'))]).
    split; [trace_eq|]. apply Forall_app. split; [exact Hl1 | repeat constructor].
  - exists l1. auto.
  - exists l1. auto.
  - exists l1. auto.
Qed.

End JoinStartup.

Lemma selfjoin_during_startup_witness :
  let p := ais.mkProxy sample.p1 sample.smap_t1 (ais.mkRebMD 0 []) true false
                       false false true [] true [] in
  let p' := fst (ais.httpclupost sample.staffIC p (sample.env_ok None)
                                 (sample.selfjoin sample.t2)) in
  snd (ais.httpclupost sample.staffIC p (sample.env_ok None)
                       (sample.selfjoin sample.t2)) = ais.RespOK
  /\ cluster.GetTarget (ais.smap p') "t2" = Some sample.t2
  /\ ais.trace p' = [].
Proof.
  intros p p'.
  destruct (selfjoin_during_startup sample.staffIC p (sample.env_ok None)
              (sample.selfjoin sample.t2) []
              (ais.mkCluMeta sample.t2 None "bmd-uuid" false))
    as (H1 & H2 & _); try reflexivity.
  split; [exact H1|]. subst p'. rewrite H2. vm_compute. auto.
Defined.

(** ** The keepalive trackers *)

Section TrackerFacts.

Import Keepalive KeepaliveTracker.

Lemma monotonic_bounds (hs : list heard) :
  forall lo hi, monotonic lo hi hs ->
    lo <= hi /\ forall h, In h hs -> lo <= h_now h <= hi.
Proof.
  induction hs as [|h hs IH]; intros lo hi H; cbn [monotonic] in H.
  - split; [exact H | intros h []].
  - destruct H as [H1 H2]. destruct (IH _ _ H2) as [H3 H4].
    split; [lia|]. intros h' [<-|Hin]; [lia|].
    specialize (H4 _ Hin). lia.
Qed.

Lemma HB_heardAll_interval (hs : list heard) :
  forall hb, hb_interval (HB_heardAll hb hs) = hb_interval hb.
Proof.
  induction hs as [|h hs IH]; intros hb; [reflexivity|].
  cbn [HB_heardAll fold_left]. exact (IH _).
Qed.

Lemma sub_exact (a b : Z) :
  0 <= b <= a -> I64.in_range a -> I64.sub a b = a - b.
Proof.
  intros H Hr. unfold I64.sub. apply wrap_in_range, in_range_bounds.
  apply (proj1 (in_range_bounds _)) in Hr. lia.
Qed.

Lemma HB_heardAll_TimedOut (now : Z) (id : string) (hs : list heard) :
  I64.in_range now ->
  forall lo hb, 0 <= lo -> monotonic lo now hs ->
    HB_TimedOut now (HB_heardAll hb hs) id = true
    <-> (forall h, In h hs -> h_id h = id -> now - h_now h > hb_interval hb)
        /\ ((exists h, In h hs /\ h_id h = id) \/ HB_TimedOut now hb id = true).
Proof.
  intros Hr. induction hs as [|h hs IH]; intros lo hb Hlo Hm.
  - cbn [HB_heardAll fold_left]. split.
    + intros H. split; [intros h []|right; exact H].
    + intros [_ [(h & [] & _)|H]]. exact H.
  - cbn [monotonic] in Hm. destruct Hm as [Hlh Hm].
    cbn [HB_heardAll fold_left].
    change (fold_left _ hs ?x) with (HB_heardAll x hs).
    rewrite (IH (h_now h) _ ltac:(lia) Hm). cbn [HB_HeardFrom hb_interval].
    destruct (monotonic_bounds _ _ _ Hm) as [Hle Hall].
    destruct (decide (h_id h = id)) as [Heq|Hne].
    + assert (Ht : HB_TimedOut now (HB_HeardFrom (h_now h) hb (h_id h) (h_reset h)) id
                   = (now - h_now h >? hb_interval hb)).
      { unfold HB_TimedOut, HB_HeardFrom. cbn [hb_last hb_interval].
        rewrite Heq, lookup_insert_eq. rewrite sub_exact by (auto; lia). reflexivity. }
      rewrite Ht. split.
      * intros [Hs Hor]. split.
        -- intros h' [<-|Hin] Hid; [|auto].
           destruct Hor as [(h2 & Hin2 & Hid2)|Hgt].
           ++ specialize (Hs _ Hin2 Hid2). specialize (Hall _ Hin2). lia.
           ++ apply Z.gtb_lt in Hgt. lia.
        -- left. exists h. split; [left; reflexivity | exact Heq].
      * intros [Hs _]. split.
        -- intros h' Hin Hid. apply Hs; [right; exact Hin | exact Hid].
        -- right. apply Z.gtb_lt. specialize (Hs h (or_introl eq_refl) Heq). lia.
    + assert (Ht : HB_TimedOut now (HB_HeardFrom (h_now h) hb (h_id h) (h_reset h)) id
                   = HB_TimedOut now hb id).
      { unfold HB_TimedOut, HB_HeardFrom. cbn [hb_last hb_interval].
        rewrite lookup_insert_ne by exact Hne. reflexivity. }
      rewrite Ht. split.
      * intros [Hs Hor]. split.
        -- intros h' [<-|Hin] Hid; [contradiction | auto].
        -- destruct Hor as [(h2 & Hin2 & Hid2)|Hgt]; [|right; exact Hgt].
           left. exists h2. split; [right; exact Hin2 | exact Hid2].
      * intros [Hs Hor]. split.
        -- intros h' Hin Hid. apply Hs; [right; exact Hin | exact Hid].
        -- destruct Hor as [(h2 & [<-|Hin2] & Hid2)|Hgt];
             [contradiction | left; eauto | right; exact Hgt].
Qed.

End TrackerFacts.

(** X7.  Under a monotonic clock, a heartbeat tracker that started empty
    reports a node as timed out at [now] exactly when no message from that
    node was recorded within the last [interval]: every recorded message of
    the node is older than [interval] (in particular when there is none). *)
Theorem HBTracker_TimedOut_iff
        (interval now : Z) (id : string) (hs : list Keepalive.heard) :
  I64.in_range now ->
  monotonic 0 now hs ->
  KeepaliveTracker.HB_TimedOut now
    (KeepaliveTracker.HB_heardAll (KeepaliveTracker.newHBTracker interval) hs) id
  = true
  <-> forall h, In h hs -> Keepalive.h_id h = id ->
                now - Keepalive.h_now h > interval.
Proof.
  intros Hr Hm.
  rewrite (HB_heardAll_TimedOut now id hs Hr 0 _ ltac:(lia) Hm).
  cbn [KeepaliveTracker.newHBTracker KeepaliveTracker.hb_interval].
  split; [intros [H _]; exact H|].
  intros H. split; [exact H|]. right. reflexivity.
Qed.

Lemma HBTracker_TimedOut_iff_witness :
  KeepaliveTracker.HB_TimedOut 9000
    (KeepaliveTracker.HB_heardAll (KeepaliveTracker.newHBTracker 1000)
       [Keepalive.mkHeard 100 "t1" false; Keepalive.mkHeard 7000 "t2" false;
        Keepalive.mkHeard 8500 "t1" false]) "t2" = true.
Proof.
  apply (HBTracker_TimedOut_iff 1000 9000 "t2").
  - vm_compute. split; intros H; discriminate H.
  - cbn. lia.
  - intros h [<-|[<-|[<-|[]]]] Hid; cbn in *; try discriminate Hid; lia.
Defined.

Section AvgSane.

Import Keepalive KeepaliveTracker.

Lemma quot_exact_nonneg (a b : Z) :
  0 <= a -> 0 < b -> I64.in_range a ->
  I64.quot a b = a / b /\ 0 <= a / b <= a.
Proof.
  intros Ha Hb Hr. unfold I64.quot. rewrite Z.quot_div_nonneg by lia.
  assert (H : 0 <= a / b <= a).
  { split; [apply Z.div_pos; lia|]. apply Z.div_le_upper_bound; nia. }
  split; [|exact H].
  apply wrap_in_range, in_range_bounds.
  apply (proj1 (in_range_bounds _)) in Hr. lia.
Qed.

Lemma HeardFrom_sane (n T t : Z) (a : AvgTracker) (id : string) (reset : bool) :
  0 <= n -> n + 1 < 2 ^ 63 -> 0 <= T <= t -> I64.in_range t ->
  avg_sane n T a -> avg_sane (n + 1) t (HeardFrom t a id reset).
Proof.
  intros Hn Hlt HT Hr Ha id' r'.
  pose proof (proj1 (in_range_bounds _) Hr) as Hr'.
  unfold HeardFrom.
  destruct (rec a !! id) as [r|] eqn:E; [destruct reset|]; cbn [rec];
    rewrite lookup_insert; case_decide; subst;
    try (intros [= <-]; cbn [count last totalMS]; lia);
    try (intros H'; specialize (Ha _ _ H'); lia).
  intros [= <-]. cbn [count last totalMS].
  destruct (Ha _ _ E) as (Hc & Hl & Hm & Hml).
  unfold Millisecond in *.
  rewrite sub_exact by (auto; lia).
  destruct (quot_exact_nonneg (t - last r) 1000000) as [Hq Hqb];
    [lia | lia | apply in_range_bounds; lia |].
  rewrite Hq.
  assert (Hd : (t - last r) / 1000000 * 1000000 <= t - last r).
  { pose proof (Z.mul_div_le (t - last r) 1000000 ltac:(lia)). lia. }
  unfold I64.add.
  rewrite !wrap_in_range by (apply in_range_bounds; lia).
  lia.
Qed.

Lemma heardAll_sane (hi : Z) (hs : list heard) :
  I64.in_range hi ->
  forall (n lo : Z) (a : AvgTracker),
    0 <= n -> 0 <= lo -> n + Z.of_nat (length hs) < 2 ^ 63 ->
    monotonic lo hi hs ->
    avg_sane n lo a -> avg_sane (n + Z.of_nat (length hs)) hi (heardAll a hs).
Proof.
  intros Hr. induction hs as [|h hs IH]; intros n lo a Hn Hlo Hlt Hm Ha.
  - cbn [heardAll fold_left length monotonic] in *.
    replace (n + Z.of_nat 0) with n by lia.
    intros id r Hrec. specialize (Ha _ _ Hrec). lia.
  - cbn [heardAll fold_left length monotonic] in *.
    destruct Hm as [Hlh Hm].
    destruct (monotonic_bounds _ _ _ Hm) as [Hle _].
    replace (n + Z.of_nat (S (length hs))) with ((n + 1) + Z.of_nat (length hs)) by lia.
    apply (IH (n + 1) (h_now h)); [lia | lia | lia | exact Hm |].
    apply (HeardFrom_sane n lo); auto; try lia.
    apply in_range_bounds. apply (proj1 (in_range_bounds _)) in Hr. lia.
Qed.

Lemma HeardFrom_last (t : Z) (a : AvgTracker) (id : string) (reset : bool) :
  exists r, rec (HeardFrom t a id reset) !! id = Some r /\ last r = t.
Proof.
  unfold HeardFrom.
  destruct (rec a !! id) as [r|]; [destruct reset|]; cbn [rec];
    rewrite lookup_insert_eq; eexists; split; reflexivity.
Qed.

Lemma sane_just_heard (n now : Z) (a : AvgTracker) (id : string)
      (r : avgTrackerRec) :
  avg_sane n now a -> I64.in_range now -> 0 <= factor a <= 255 ->
  rec a !! id = Some r -> last r = now ->
  TimedOut now a id = Some false.
Proof.
  intros Ha Hr Hf Hrec Hlast.
  pose proof (proj1 (in_range_bounds _) Hr) as Hr'.
  destruct (Ha _ _ Hrec) as (Hc & Hl & Hm & Hml).
  unfold TimedOut, avg. rewrite Hrec.
  destruct (Z.eqb_spec (count r) 0) as [|Hne]; [reflexivity|].
  f_equal. rewrite Hlast.
  unfold Millisecond in *.
  rewrite sub_exact by (auto; lia).
  replace (now - now) with 0 by lia.
  change (I64.quot 0 1000000) with 0.
  unfold I64.quot at 1. rewrite Z.quot_div_nonneg by lia.
  assert (Hq : 0 <= totalMS r / count r <= totalMS r).
  { split; [apply Z.div_pos; lia|]. apply Z.div_le_upper_bound; nia. }
  rewrite wrap_in_range by (apply in_range_bounds; lia).
  unfold I64.mul. rewrite wrap_in_range by (apply in_range_bounds; nia).
  rewrite Z.gtb_ltb. apply Z.ltb_ge. nia.
Qed.

Lemma kt_heardAll_HB (hb : HBTracker) (hs : list heard) :
  kt_heardAll (HB hb) hs = HB (HB_heardAll hb hs).
Proof.
  revert hb. induction hs as [|h hs IH]; intros hb; [reflexivity|].
  cbn [kt_heardAll HB_heardAll fold_left kt_HeardFrom]. exact (IH _).
Qed.

Lemma kt_heardAll_Avg (a : AvgTracker) (hs : list heard) :
  kt_heardAll (Avg a) hs = Avg (heardAll a hs).
Proof.
  revert a. induction hs as [|h hs IH]; intros a; [reflexivity|].
  cbn [kt_heardAll heardAll fold_left kt_HeardFrom]. exact (IH _).
Qed.

Lemma heardAll_factor (hs : list heard) :
  forall a, factor (heardAll a hs) = factor a.
Proof.
  induction hs as [|h hs IH]; intros a; [reflexivity|].
  cbn [heardAll fold_left]. change (fold_left _ hs ?x) with (heardAll x hs).
  rewrite IH. unfold HeardFrom.
  destruct (rec a !! h_id h); [destruct (h_reset h)|]; reflexivity.
Qed.

End AvgSane.

(** X8.  A node that was heard from just now does not count as timed out,
    with either tracker: on a tracker made by [newKeepaliveTracker] for a
    configuration with a non-negative interval, under a monotonic clock,
    [TimedOut(id)] right after [HeardFrom(id, reset)] returns false,
    whatever was recorded before (and it returns: the average is computed
    for a positive count only).  When the tracker is an average tracker,
    it has a record of [id] written at [now], and in each of its records
    the count lies between 0 and the number of calls, the time of the last
    message between 0 and [now], and the total (in ms) between 0 and the
    time of the last message. *)
Theorem just_heard_not_timed_out
        (cfg : KeepaliveTracker.KeepaliveTrackerConf)
        (kt0 : KeepaliveTracker.tracker) (hs : list Keepalive.heard)
        (now : Z) (id : string) (reset : bool) :
  KeepaliveTracker.newKeepaliveTracker cfg = Some kt0 ->
  0 <= KeepaliveTracker.Interval cfg ->
  0 <= KeepaliveTracker.Factor cfg <= 255 ->
  I64.in_range now ->
  monotonic 0 now hs ->
  Z.of_nat (length hs) + 1 < 2 ^ 63 ->
  let kt := KeepaliveTracker.kt_HeardFrom now (kt_heardAll kt0 hs) id reset in
  KeepaliveTracker.kt_TimedOut now kt id = Some false
  /\ forall a, kt = KeepaliveTracker.Avg a ->
       avg_sane (Z.of_nat (length hs) + 1) now a
       /\ exists r, Keepalive.rec a !! id = Some r /\ Keepalive.last r = now.
Proof.
  intros Hnew Hi Hf Hr Hm Hlen. cbv zeta.
  pose proof (proj1 (in_range_bounds _) Hr) as Hr'.
  destruct (monotonic_bounds _ _ _ Hm) as [Hnow _].
  unfold KeepaliveTracker.newKeepaliveTracker in Hnew.
  destruct (String.eqb _ KeepaliveTracker.KeepaliveHeartbeatType);
    [|destruct (String.eqb _ KeepaliveTracker.KeepaliveAverageType)];
    inversion Hnew; subst kt0; clear Hnew.
  - rewrite kt_heardAll_HB.
    cbn [KeepaliveTracker.kt_HeardFrom KeepaliveTracker.kt_TimedOut].
    split; [|intros a Ha; discriminate Ha].
    f_equal. unfold KeepaliveTracker.HB_TimedOut, KeepaliveTracker.HB_HeardFrom.
    cbn [KeepaliveTracker.hb_last KeepaliveTracker.hb_interval].
    rewrite lookup_insert_eq, HB_heardAll_interval.
    cbn [KeepaliveTracker.newHBTracker KeepaliveTracker.hb_interval].
    rewrite sub_exact by (auto; lia).
    rewrite Z.gtb_ltb. apply Z.ltb_ge. lia.
  - rewrite kt_heardAll_Avg.
    cbn [KeepaliveTracker.kt_HeardFrom KeepaliveTracker.kt_TimedOut].
    set (a := Keepalive.heardAll _ hs).
    assert (Ha : avg_sane (0 + Z.of_nat (length hs)) now a).
    { apply (heardAll_sane now hs Hr 0 0); try lia; [exact Hm|].
      intros i r. cbn. rewrite lookup_empty. discriminate. }
    assert (Ha' : avg_sane (Z.of_nat (length hs) + 1) now
                           (Keepalive.HeardFrom now a id reset)).
    { replace (Z.of_nat (length hs) + 1) with (0 + Z.of_nat (length hs) + 1) by lia.
      apply (HeardFrom_sane _ now); auto; lia. }
    destruct (HeardFrom_last now a id reset) as (r & Hrec & Hlast).
    split; [|intros a' [= <-]; split; [exact Ha' | eauto]].
    apply (sane_just_heard _ now _ id r Ha' Hr); auto.
    assert (Hfa : Keepalive.factor (Keepalive.HeardFrom now a id reset)
                  = KeepaliveTracker.Factor cfg).
    { transitivity (Keepalive.factor a).
      - unfold Keepalive.HeardFrom.
        destruct (Keepalive.rec a !! id); [destruct reset|]; reflexivity.
      - subst a. rewrite heardAll_factor. reflexivity. }
    rewrite Hfa. exact Hf.
Qed.

Lemma just_heard_not_timed_out_witness :
  let a := Keepalive.HeardFrom 9000000000
             (Keepalive.heardAll (Keepalive.newAvgTracker 3)
                [Keepalive.mkHeard 1000000000 "t1" false;
                 Keepalive.mkHeard 4000000000 "t1" false])
             "t1" false in
  Keepalive.TimedOut 9000000000 a "t1" = Some false
  /\ avg_sane 3 9000000000 a.
Proof.
  intros a.
  destruct (just_heard_not_timed_out
              (KeepaliveTracker.mkKeepaliveTrackerConf "average" 10000000000 3)
              (KeepaliveTracker.Avg (Keepalive.newAvgTracker 3))
              [Keepalive.mkHeard 1000000000 "t1" false;
               Keepalive.mkHeard 4000000000 "t1" false]
              9000000000 "t1" false) as [H1 H2].
  - reflexivity.
  - cbn. lia.
  - cbn. lia.
  - apply in_range_bounds. lia.
  - cbn. lia.
  - cbn. lia.
  - split; [exact H1|]. exact (proj1 (H2 a eq_refl)).
Defined.

(** ** [configUpdate] *)

(** X9.  [configUpdate] always adopts the configured [maxKeepalive] and keeps
    the timeout statistics; from then on every updated timeout lies in the
    new range, whatever the statistics were.  The tracker of heartbeats is
    kept, with all it recorded, as long as its own parameter is unchanged
    (the interval for a heartbeat tracker, the factor for an average
    tracker), even when the configuration names the other kind of tracker;
    when the parameter changed the tracker is replaced by a new one of the
    configured kind, for which every node counts as timed out. *)
Theorem configUpdate_effect
        (k : KeepaliveTracker.keepaliver) (t : KeepaliveTracker.tracker)
        (mk : Z) (cfg : KeepaliveTracker.KeepaliveTrackerConf) :
  KeepaliveTracker.kt k = Some t ->
  exists k',
    KeepaliveTracker.configUpdate k mk cfg = Some k'
    /\ Keepalive.maxKeepalive (KeepaliveTracker.ka k') = mk
    /\ Keepalive.tt (KeepaliveTracker.ka k') = Keepalive.tt (KeepaliveTracker.ka k)
    /\ (0 < mk -> I64.in_range mk ->
        forall sid d,
          mk / 2 <= snd (Keepalive.updateTimeoutForDaemon
                           (KeepaliveTracker.ka k') sid d) <= mk)
    /\ (match t with
        | KeepaliveTracker.HB hb =>
            KeepaliveTracker.hb_interval hb = KeepaliveTracker.Interval cfg
        | KeepaliveTracker.Avg a =>
            Keepalive.factor a = KeepaliveTracker.Factor cfg
        end ->
        KeepaliveTracker.kt k' = Some t
        /\ KeepaliveTracker.interval k' = KeepaliveTracker.interval k)
    /\ (match t with
        | KeepaliveTracker.HB hb =>
            KeepaliveTracker.hb_interval hb <> KeepaliveTracker.Interval cfg
        | KeepaliveTracker.Avg a =>
            Keepalive.factor a <> KeepaliveTracker.Factor cfg
        end ->
        KeepaliveTracker.kt k' = KeepaliveTracker.newKeepaliveTracker cfg
        /\ KeepaliveTracker.interval k' = KeepaliveTracker.Interval cfg
        /\ forall t' now id,
             KeepaliveTracker.kt k' = Some t' ->
             KeepaliveTracker.kt_TimedOut now t' id = Some true).
Proof.
  intros Hkt. unfold KeepaliveTracker.configUpdate. rewrite Hkt.
  assert (Hnew : forall t' now id,
             KeepaliveTracker.newKeepaliveTracker cfg = Some t' ->
             KeepaliveTracker.kt_TimedOut now t' id = Some true).
  { intros t' now id. unfold KeepaliveTracker.newKeepaliveTracker.
    destruct (String.eqb _ KeepaliveTracker.KeepaliveHeartbeatType);
      [|destruct (String.eqb _ KeepaliveTracker.KeepaliveAverageType)];
      intros [= <-]; reflexivity. }
  assert (Hb : forall k1,
             Keepalive.maxKeepalive k1 = mk -> 0 < mk -> I64.in_range mk ->
             forall sid d,
               mk / 2 <= snd (Keepalive.updateTimeoutForDaemon k1 sid d) <= mk).
  { intros k1 Hmk Hpos Hr sid d. rewrite updateTimeoutForDaemon_unfold.
    cbv zeta. cbn [snd]. rewrite Hmk.
    apply updateStats_timeout_bounds; assumption. }
  assert (Hc : KeepaliveTracker.kt_changed t (KeepaliveTracker.Factor cfg)
                 (KeepaliveTracker.Interval cfg) = false
               <-> match t with
                   | KeepaliveTracker.HB hb =>
                       KeepaliveTracker.hb_interval hb = KeepaliveTracker.Interval cfg
                   | KeepaliveTracker.Avg a =>
                       Keepalive.factor a = KeepaliveTracker.Factor cfg
                   end).
  { destruct t as [hb|a]; cbn [KeepaliveTracker.kt_changed];
      unfold KeepaliveTracker.HB_changed, KeepaliveTracker.Avg_changed;
      rewrite negb_false_iff; apply Z.eqb_eq. }
  destruct (KeepaliveTracker.kt_changed t _ _) eqn:E; cbn [negb];
    eexists; (split; [reflexivity|]);
    cbn [KeepaliveTracker.ka KeepaliveTracker.kt KeepaliveTracker.interval
         Keepalive.maxKeepalive Keepalive.tt];
    (split; [reflexivity|]); (split; [reflexivity|]);
    (split; [intros Hpos Hr; apply Hb; [reflexivity | assumption | assumption]|]).
  - split.
    + intros H. apply Hc in H. discriminate H.
    + intros _. split; [reflexivity|]. split; [reflexivity|].
      intros t' now id. apply Hnew.
  - split.
    + intros _. split; reflexivity.
    + intros H. exfalso. destruct t; apply H, Hc; reflexivity.
Qed.

Lemma configUpdate_effect_witness :
  let k := KeepaliveTracker.mkKeepaliver (Keepalive.newKeepalive 4000000000)
             (Some (KeepaliveTracker.HB (KeepaliveTracker.newHBTracker 10000000000)))
             10000000000 in
  let cfg := KeepaliveTracker.mkKeepaliveTrackerConf "average" 10000000000 5 in
  exists k', KeepaliveTracker.configUpdate k 2000000000 cfg = Some k'
             /\ KeepaliveTracker.kt k' = KeepaliveTracker.kt k.
Proof.
  intros k cfg.
  destruct (configUpdate_effect k
              (KeepaliveTracker.HB (KeepaliveTracker.newHBTracker 10000000000))
              2000000000 cfg eq_refl)
    as (k' & H1 & _ & _ & _ & H2 & _).
  exists k'. split; [exact H1|]. apply H2. reflexivity.
Defined.

(** ** The primary's probe of one node *)

Section ProbeFacts.

Import cluster Keepalive ProxyKeepalive.

Variable error : Type.
Variable IsUnreachable : option error -> Z -> bool.

Local Abbreviation retryIter := (retryIter error IsUnreachable).
Local Abbreviation retryFrom := (retryFrom error IsUnreachable).
Local Abbreviation retry := (retry error IsUnreachable).
Local Abbreviation _pingRetry := (_pingRetry error IsUnreachable).

Lemma retryIter_outcome (sid : string) (st : retryState) (ev : pevent error) :
  counting st ->
  let st' := fst (retryIter sid st ev) in
  match snd (retryIter sid st ev) with
  | Done true stopped => stopped = false /\ (r_calls st' <= 3)%nat
  | Done false true => r_calls st' = r_calls st
  | Done false false => r_calls st' = 3%nat
  | Again => counting st'
             /\ (match ev with
                 | PTick _ => r_calls st' = S (r_calls st)
                 | _ => st' = st
                 end)
  end.
Proof.
  unfold counting, kaNumRetries. intros [Hi Hr]. cbv zeta.
  destruct ev as [|health|msg]; cbn [ProxyKeepalive.retryIter].
  - cbn [fst snd]. split; [reflexivity | lia].
  - destruct (updateTimeoutForDaemon _ _ _) as [k' t'].
    assert (Hadd : I64.add (r_i st) 1 = r_i st + 1).
    { unfold I64.add. apply wrap_in_range, in_range_bounds. lia. }
    rewrite Hadd.
    destruct (err (health (r_timeout st))); cbn [fst snd r_calls];
      [|split; [reflexivity | lia]].
    unfold kaNumRetries.
    destruct (Z.eqb_spec (r_i st + 1) 3); cbn [fst snd r_calls]; [lia|].
    destruct (IsUnreachable _ _); cbn [fst snd r_calls r_i];
      (split; [split; lia | reflexivity]).
  - destruct (String.eqb msg kaStopMsg); cbn [fst snd]; auto.
Qed.

Lemma retryFrom_result (sid : string) (evs : list (pevent error)) :
  forall st st' ok stopped,
    counting st ->
    retryFrom sid evs st = Some (st', ok, stopped) ->
    (r_calls st' <= 3)%nat
    /\ (stopped = true -> ok = false)
    /\ (ok = false -> stopped = false -> r_calls st' = 3%nat).
Proof.
  induction evs as [|ev evs IH]; intros st st' ok stopped Hc H;
    cbn [ProxyKeepalive.retryFrom] in H; [discriminate|].
  pose proof (retryIter_outcome sid st ev Hc) as Ho. cbv zeta in Ho.
  destruct (retryIter sid st ev) as [st1 [ok1 stopped1|]]; cbn [fst snd] in Ho.
  - injection H as <- <- <-.
    destruct ok1; [destruct Ho as [-> Hle]; repeat split; auto; discriminate|].
    destruct stopped1.
    + unfold counting, kaNumRetries in Hc. repeat split; auto; try discriminate. lia.
    + repeat split; auto; try discriminate. lia.
  - destruct Ho as [Hc1 _]. exact (IH _ _ _ _ Hc1 H).
Qed.

Lemma retryFrom_returns (sid : string) (evs : list (pevent error)) :
  forall st,
    counting st ->
    (3 <= r_calls st + pticks evs)%nat ->
    is_Some (retryFrom sid evs st).
Proof.
  induction evs as [|ev evs IH]; intros st Hc Hn.
  - exfalso. unfold counting, kaNumRetries in Hc. cbn in Hn. lia.
  - cbn [ProxyKeepalive.retryFrom].
    pose proof (retryIter_outcome sid st ev Hc) as Ho. cbv zeta in Ho.
    destruct (retryIter sid st ev) as [st1 [ok1 stopped1|]]; cbn [fst snd] in Ho;
      [eauto|].
    destruct Ho as [Hc1 Hev]. apply IH; [exact Hc1|].
    destruct ev; unfold pticks in *; cbn [List.filter length] in *.
    + subst st1. exact Hn.
    + lia.
    + subst st1. exact Hn.
Qed.

Lemma pingRetry_gaveUp (k : keepalive) (to : Snode)
      (health0 : Z -> sendResult error) (evs : list (pevent error))
      (r : pingResult) :
  _pingRetry k to health0 evs = Some r ->
  pr_ok r = false -> pr_stopped r = false -> pr_calls r = 4%nat.
Proof.
  unfold ProxyKeepalive._pingRetry, ProxyKeepalive.retry.
  destruct (timeoutStatsForDaemon k (ID to)) as [k0 ts].
  destruct (updateTimeoutForDaemon k0 (ID to) _) as [k1 t1].
  destruct (err (health0 (timeout ts))) as [e|]; [|intros [= <-]; discriminate].
  destruct (timeoutStatsForDaemon k1 (ID to)) as [k2 ts2].
  match goal with |- context [retryFrom _ _ ?s] => set (st0 := s) end.
  assert (Hc : counting st0) by (unfold counting, kaNumRetries; cbn; lia).
  destruct (retryFrom (ID to) evs st0) as [[[st' ok] stopped]|] eqn:E;
    [|discriminate].
  intros [= <-]. cbn [pr_calls pr_ok pr_stopped]. intros Hok Hst.
  destruct (retryFrom_result _ _ _ _ _ _ Hc E) as (_ & _ & H3).
  rewrite (H3 Hok Hst). reflexivity.
Qed.


End ProbeFacts.


(** ** The primary's sweep *)

Section SweepFacts.

Import cluster Keepalive ProxyKeepalive.

Variable error : Type.
Variable IsUnreachable : option error -> Z -> bool.
Variable staffIC : Smap -> Smap.

Local Abbreviation _pingRetry := (_pingRetry error IsUnreachable).
Local Abbreviation do := (do error IsUnreachable).
Local Abbreviation sweep := (sweep error IsUnreachable).
Local Abbreviation drain := (drain staffIC).
Local Abbreviation _pre := (_pre staffIC).
Local Abbreviation updateSmap := (updateSmap error IsUnreachable staffIC).

Lemma do_channels (k : keepalive) (ch : channels) (si : Snode)
      (g : goroutine error) (k' : keepalive) (ch' : channels) :
  do k ch si g = Some (k', ch') ->
  (stoppedCh ch <= stoppedCh ch')%nat
  /\ (toRemoveCh ch' = toRemoveCh ch
      \/ (toRemoveCh ch' = toRemoveCh ch ++ [ID si]
          /\ g_stopSeen g = false
          /\ exists r, _pingRetry k si (g_health0 g) (g_evs g) = Some r
                       /\ pr_ok r = false
                       /\ (stoppedCh ch' = stoppedCh ch -> pr_stopped r = false))).
Proof.
  unfold ProxyKeepalive.do.
  destruct (g_stopSeen g) eqn:Es.
  { intros [= <- <-]. auto. }
  destruct (_pingRetry k si (g_health0 g) (g_evs g)) as [r|] eqn:E; [|discriminate].
  unfold sendStopped, sendToRemove.
  destruct (pr_stopped r) eqn:Est, (pr_ok r) eqn:Eok; cbn [negb].
  - destruct (stoppedCh ch <? ch_cap ch)%nat; [|discriminate].
    intros [= <- <-]. cbn [stoppedCh toRemoveCh]. split; [lia | left; reflexivity].
  - destruct (stoppedCh ch <? ch_cap ch)%nat; [|discriminate].
    cbn [stoppedCh toRemoveCh ch_cap].
    destruct (length (toRemoveCh ch) <? ch_cap ch)%nat; [|discriminate].
    intros [= <- <-]. cbn [stoppedCh toRemoveCh]. split; [lia|]. right.
    repeat split; auto. exists r. repeat split; auto. lia.
  - intros [= <- <-]. split; [lia | left; reflexivity].
  - destruct (length (toRemoveCh ch) <? ch_cap ch)%nat; [|discriminate].
    intros [= <- <-]. cbn [stoppedCh toRemoveCh]. split; [lia|]. right.
    repeat split; auto. exists r. repeat split; auto.
Qed.

Lemma sweep_channels (sched : list (Snode * goroutine error)) :
  forall k ch k' ch',
    sweep k ch sched = Some (k', ch') ->
    (stoppedCh ch <= stoppedCh ch')%nat
    /\ exists added,
         toRemoveCh ch' = toRemoveCh ch ++ added
         /\ forall sid, In sid added ->
              exists si g,
                In (si, g) sched /\ ID si = sid /\ g_stopSeen g = false
                /\ exists k0 r,
                     _pingRetry k0 si (g_health0 g) (g_evs g) = Some r
                     /\ pr_ok r = false
                     /\ (stoppedCh ch' = stoppedCh ch -> pr_stopped r = false).
Proof.
  induction sched as [|[si g] rest IH]; intros k ch k' ch' H;
    cbn [ProxyKeepalive.sweep] in H.
  - injection H as <- <-. split; [lia|]. exists [].
    rewrite app_nil_r. split; [reflexivity | intros sid []].
  - destruct (do k ch si g) as [[k1 ch1]|] eqn:Ed; [|discriminate].
    destruct (do_channels _ _ _ _ _ _ Ed) as [Hs1 Hr1].
    destruct (IH _ _ _ _ H) as (Hs2 & added & Hadd & Hall).
    split; [lia|].
    assert (Hrest : forall sid, In sid added ->
              exists si0 g0,
                In (si0, g0) ((si, g) :: rest) /\ ID si0 = sid
                /\ g_stopSeen g0 = false
                /\ exists k0 r,
                     _pingRetry k0 si0 (g_health0 g0) (g_evs g0) = Some r
                     /\ pr_ok r = false
                     /\ (stoppedCh ch' = stoppedCh ch -> pr_stopped r = false)).
    { intros sid Hin.
      destruct (Hall sid Hin) as (si0 & g0 & Hin0 & Hid & Hss & k0 & r & Hp & Hok & Hst).
      exists si0, g0. repeat split; auto; [right; exact Hin0|].
      exists k0, r. repeat split; auto. intros Heq. apply Hst. lia. }
    destruct Hr1 as [Heq|(Heq & Hss & r & Hp & Hok & Hst)].
    + exists added. rewrite Hadd, Heq. split; [reflexivity | exact Hrest].
    + exists (ID si :: added). rewrite Hadd, Heq, <- app_assoc.
      split; [reflexivity|].
      intros sid [<-|Hin]; [|exact (Hrest sid Hin)].
      exists si, g. repeat split; auto; [left; reflexivity|].
      exists k, r. repeat split; auto. intros Heq'. apply Hst. lia.
Qed.

Lemma pinged_selected (self : Snode) (isTimeToPing : string -> bool)
      (smap : Smap) (si : Snode) :
  In si (pinged self isTimeToPing smap) ->
  exists key,
    (Tmap smap !! key = Some si \/ Pmap smap !! key = Some si)
    /\ key <> ID self
    /\ isTimeToPing key = true
    /\ IsAnySet si NodeFlagsMaintDecomm = false.
Proof.
  unfold pinged. intros H. apply in_app_or in H.
  assert (G : forall m : gmap string Snode,
             In si (map snd (List.filter
                    (fun e : string * Snode =>
                       negb (String.eqb (fst e) (ID self))
                       && isTimeToPing (fst e)
                       && negb (IsAnySet (snd e) NodeFlagsMaintDecomm))
                    (map_to_list m))) ->
             exists key, m !! key = Some si /\ key <> ID self
                         /\ isTimeToPing key = true
                         /\ IsAnySet si NodeFlagsMaintDecomm = false).
  { intros m Hin. apply in_map_iff in Hin. destruct Hin as ([key v] & Hv & Hin).
    cbn [snd] in Hv. subst v. apply filter_In in Hin. destruct Hin as [Hin Hsel].
    cbn [fst snd] in Hsel.
    apply andb_true_iff in Hsel. destruct Hsel as [Hsel Hm].
    apply andb_true_iff in Hsel. destruct Hsel as [Hs Ht].
    exists key. repeat split.
    - apply elem_of_map_to_list, list_elem_of_In. exact Hin.
    - apply negb_true_iff, String.eqb_neq in Hs. exact Hs.
    - exact Ht.
    - apply negb_true_iff in Hm. exact Hm. }
  destruct H as [H|H]; destruct (G _ H) as (key & Hk & Hrest);
    exists key; split; auto.
Qed.

Lemma drain_keeps (toRemove : list string) (sid : string) :
  keeps_nodes staffIC ->
  ~ In sid toRemove ->
  forall clone metaction cnt unknown,
    let clone' := fst (fst (fst (drain toRemove clone metaction cnt unknown))) in
    Tmap clone' !! sid = Tmap clone !! sid
    /\ (Pmap clone' !! sid = None -> Pmap clone !! sid = None).
Proof.
  intros Hk. induction toRemove as [|s rest IH]; intros Hnin clone metaction cnt unknown;
    cbn [ProxyKeepalive.drain].
  - cbn [fst]. auto.
  - assert (Hne : s <> sid) by (intros ->; apply Hnin; left; reflexivity).
    assert (Hnin' : ~ In sid rest) by (intros Hin; apply Hnin; right; exact Hin).
    destruct (GetProxy clone s) as [px|].
    + match goal with |- context [ProxyKeepalive.drain staffIC rest ?c ?m ?n ?u] =>
        destruct (IH Hnin' c m n u) as [HT HP]
      end.
      cbv zeta in *. split.
      * rewrite HT. rewrite (proj1 (Hk _)). reflexivity.
      * intros H. apply HP in H. apply (proj2 (Hk _)) in H.
        cbn [smapx.delProxy Pmap] in H.
        rewrite lookup_delete_ne in H by exact Hne. exact H.
    + destruct (GetTarget clone s) as [tx|].
      * match goal with |- context [ProxyKeepalive.drain staffIC rest ?c ?m ?n ?u] =>
          destruct (IH Hnin' c m n u) as [HT HP]
        end.
        cbv zeta in *. split.
        -- rewrite HT. cbn [smapx.delTarget Tmap].
           rewrite lookup_delete_ne by exact Hne. reflexivity.
        -- intros H. apply HP in H. exact H.
      * match goal with |- context [ProxyKeepalive.drain staffIC rest ?c ?m ?n ?u] =>
          destruct (IH Hnin' c m n u) as [HT HP]
        end.
        cbv zeta in *. split; [exact HT | exact HP].
Qed.

Lemma evicted_same (m : Smap) (sid : string) : ~ evicted m m sid.
Proof.
  intros [[[x Hx] Hn]|[[x Hx] Hn]]; congruence.
Qed.

Lemma openCh_empty (prev : option channels) (daemonCnt : nat) (ch0 : channels) :
  openCh prev daemonCnt = Some ch0 ->
  stoppedCh ch0 = 0%nat /\ toRemoveCh ch0 = [].
Proof.
  unfold openCh. cbv zeta.
  match goal with |- context [stoppedCh ?c] => generalize c end.
  intros ch.
  destruct (Nat.eqb_spec (stoppedCh ch) 0) as [Hs|]; [|discriminate].
  destruct (Nat.eqb_spec (length (toRemoveCh ch)) 0) as [Hr|]; [|discriminate].
  cbn [negb]. intros [= <-]. split; [exact Hs|].
  destruct (toRemoveCh ch); [reflexivity | discriminate].
Qed.

Lemma openCh_no_carry_over (prev : option channels) (daemonCnt : nat) :
  no_carry_over prev ->
  exists ch0, openCh prev daemonCnt = Some ch0
              /\ (daemonCnt <= ch_cap ch0)%nat.
Proof.
  intros H. unfold openCh. cbv zeta. destruct prev as [ch|].
  - destruct (Nat.ltb_spec (ch_cap ch) daemonCnt).
    + cbn. eexists. split; [reflexivity|]. cbn. lia.
    + destruct (H ch eq_refl) as [-> ->]. cbn. eauto.
  - cbn. eexists. split; [reflexivity|]. cbn. lia.
Qed.


End SweepFacts.


Section PreFacts.

Import cluster Keepalive ProxyKeepalive.

Variable staffIC : Smap -> Smap.

Local Abbreviation drain := (drain staffIC).
Local Abbreviation _pre := (_pre staffIC).

Lemma GetNode_None (m : Smap) (sid : string) :
  GetNode m sid = None <-> GetProxy m sid = None /\ GetTarget m sid = None.
Proof.
  unfold GetNode. destruct (GetTarget m sid), (GetProxy m sid); split;
    try intros [? ?]; try discriminate; auto.
Qed.

Lemma drain_count (toRemove : list string) :
  forall clone metaction cnt unknown,
    0 <= cnt -> cnt + Z.of_nat (length toRemove) < 2 ^ 63 ->
    let r := drain toRemove clone metaction cnt unknown in
    cnt <= snd (fst r) <= cnt + Z.of_nat (length toRemove)
    /\ ((forall sid, In sid toRemove -> GetNode clone sid = None) ->
        fst (fst (fst r)) = clone /\ snd (fst r) = cnt
        /\ snd r = unknown ++ toRemove)
    /\ ((exists sid, In sid toRemove /\ GetNode clone sid <> None) ->
        cnt < snd (fst r)).
Proof.
  induction toRemove as [|s rest IH]; intros clone metaction cnt unknown Hc Hb;
    cbn [ProxyKeepalive.drain length] in *.
  - cbn [fst snd]. rewrite app_nil_r. repeat split; auto; try lia.
    intros (sid & [] & _).
  - assert (Hadd : I64.add cnt 1 = cnt + 1).
    { unfold I64.add. apply wrap_in_range, in_range_bounds. lia. }
    destruct (GetProxy clone s) as [px|] eqn:Ep;
      [|destruct (GetTarget clone s) as [tx|] eqn:Et];
      match goal with |- context [ProxyKeepalive.drain staffIC rest ?c ?m ?n ?u] =>
        pose proof (IH c m n u) as H; cbv zeta in H;
        destruct (ProxyKeepalive.drain staffIC rest c m n u) as [[[c' m'] n'] u']
      end; cbn [fst snd] in *; rewrite ?Hadd in H.
    + destruct H as (H1 & _ & _); [lia | lia |].
      split; [lia|]. split; [|intros _; lia].
      intros Hall. specialize (Hall s (or_introl eq_refl)).
      apply GetNode_None in Hall. destruct Hall; congruence.
    + destruct H as (H1 & _ & _); [lia | lia |].
      split; [lia|]. split; [|intros _; lia].
      intros Hall. specialize (Hall s (or_introl eq_refl)).
      apply GetNode_None in Hall. destruct Hall; congruence.
    + destruct H as (H1 & H2 & H3); [lia | lia |].
      split; [lia|]. split.
      * intros Hall. destruct H2 as (A & B & C);
          [intros sid Hin; apply Hall; right; exact Hin|].
        rewrite <- app_assoc in C. auto.
      * intros (sid & [<-|Hin] & Hkn).
        -- exfalso. apply Hkn. apply GetNode_None. auto.
        -- apply H3. eauto.
Qed.

(** X12.  On the primary, the [_pre] hook of the sweep fails with "nothing
    to do" exactly when none of the ids it drains from [toRemoveCh] is in
    the Smap any more; then the clone is the unchanged map and every drained
    id was reported as unknown.  Whether it fails or not, it empties the
    channel and deletes the reverse-proxy entry of every drained id. *)
Theorem pre_nothing_to_do
        (p : ais.proxyrunner) (toRemove : list string) (clone : Smap) :
  ais.isPrimary (ais.smap p) (ais.si p) = true ->
  Z.of_nat (length toRemove) < 2 ^ 63 ->
  let r := _pre p toRemove clone in
  (pre_err r <> None
   <-> forall sid, In sid toRemove -> GetNode clone sid = None)
  /\ (pre_err r <> None ->
      pre_clone r = clone /\ pre_unknown r = toRemove /\ pre_msg r = None
      /\ exists metaction, pre_err r = Some (ErrNothingToDo metaction))
  /\ pre_rproxyDeleted r = toRemove
  /\ pre_left r = [].
Proof.
  intros Hprim Hlen. cbv zeta. unfold ProxyKeepalive._pre. rewrite Hprim.
  cbn [negb].
  pose proof (drain_count toRemove clone "keepalive: removing [" 0 []
                ltac:(lia) ltac:(lia)) as H.
  cbv zeta in H.
  destruct (drain toRemove clone "keepalive: removing [" 0 [])
    as [[[clone' metaction] cnt] unknown].
  cbn [fst snd] in H. destruct H as (Hb & Hnone & Hsome).
  assert (Hdec : (forall sid, In sid toRemove -> GetNode clone sid = None)
                 \/ exists sid, In sid toRemove /\ GetNode clone sid <> None).
  { clear. induction toRemove as [|s rest IH].
    - left. intros sid [].
    - destruct (GetNode clone s) eqn:E.
      + right. exists s. split; [left; reflexivity | congruence].
      + destruct IH as [IH|(sid & Hin & Hk)].
        * left. intros sid [<-|Hin]; auto.
        * right. exists sid. split; [right; exact Hin | exact Hk]. }
  destruct (Z.eqb_spec cnt 0) as [Hz|Hnz];
    cbn [pre_err pre_clone pre_unknown pre_msg pre_rproxyDeleted pre_left].
  - assert (Hall : forall sid, In sid toRemove -> GetNode clone sid = None).
    { destruct Hdec as [Hall|Hex]; [exact Hall|]. specialize (Hsome Hex). lia. }
    destruct (Hnone Hall) as (A & B & C).
    split; [split; [intros _; exact Hall | discriminate]|].
    split; [|split; reflexivity].
    intros _. repeat split; auto. eauto.
  - split; [|split; [congruence | split; reflexivity]].
    split; [congruence|].
    intros Hall. exfalso. destruct (Hnone Hall) as (_ & B & _). lia.
Qed.

End PreFacts.

Lemma pre_nothing_to_do_witness :
  let r := ProxyKeepalive._pre sample.staffIC (sample.primary sample.smap_t1)
             ["t7"; "t8"] sample.smap_t1 in
  ProxyKeepalive.pre_clone r = sample.smap_t1
  /\ ProxyKeepalive.pre_unknown r = ["t7"; "t8"].
Proof.
  intros r.
  destruct (pre_nothing_to_do sample.staffIC (sample.primary sample.smap_t1)
              ["t7"; "t8"] sample.smap_t1 eq_refl)
    as (H1 & H2 & _).
  - cbn. lia.
  - destruct H2 as (A & B & _).
    + apply H1. intros sid [<-|[<-|[]]]; reflexivity.
    + split; [exact A | exact B].
Defined.

(** ** Nodes leaving the cluster *)

Section RmFacts.

Import cluster ais ais_rm.

Variable staffIC : Smap -> Smap.

Local Abbreviation _unregNodePre := (_unregNodePre staffIC).
Local Abbreviation unregNode := (unregNode staffIC).
Local Abbreviation callRmSelf := (callRmSelf staffIC).
Local Abbreviation httpcludel := (httpcludel staffIC).
Local Abbreviation removeAfterRebalance := (removeAfterRebalance staffIC).
Local Abbreviation rebalanceAndRmSelf := (rebalanceAndRmSelf staffIC).

Lemma same_targets_no_rebalance (rebEnabled : bool) (c : smapModifier)
      (cur : Smap) :
  _mustReb c = false ->
  keyed (ctx_smap c) ->
  Tmap cur = Tmap (ctx_smap c) ->
  snd (mustRunRebalance rebEnabled c cur) = false.
Proof.
  intros Hm Hkeyed HT. destruct rebEnabled.
  2:{ unfold mustRunRebalance. rewrite Hm. reflexivity. }
  destruct (mustRunRebalance_enabled c cur Hm) as [Hiff _].
  destruct (snd (mustRunRebalance true c cur)) eqn:E; [|reflexivity].
  exfalso.
  assert (Hno : forall a b : Smap,
             Tmap a = Tmap (ctx_smap c) -> Tmap b = Tmap (ctx_smap c) ->
             ~ exists t, active_target_in a t /\ absent_or_maintenance b (ID t)).
  { intros a b Ha Hb (t & ((key & Hk) & _ & Hact) & Habs).
    rewrite Ha in Hk. pose proof (Hkeyed _ _ Hk) as Hid.
    assert (Hg : GetNode b (ID t) = Some t).
    { unfold GetNode, GetTarget. rewrite Hb, Hid, Hk. reflexivity. }
    destruct Habs as [Habs|(n & Hn & Hmaint)]; [congruence|].
    rewrite Hg in Hn. injection Hn as <-.
    unfold InMaintenance in Hmaint. congruence. }
  destruct (proj1 Hiff eq_refl) as [[H|H] _].
  - exact (Hno cur (ctx_smap c) HT eq_refl H).
  - exact (Hno (ctx_smap c) cur eq_refl HT H).
Qed.

(** What a removed target says about the rebalance trigger. *)
Lemma delTarget_rebalance (prev : Smap) (sid : string) (c : smapModifier) :
  restaffs staffIC -> keyed prev ->
  ctx_smap c = prev -> _mustReb c = false ->
  let clone := staffIC (smapx.delTarget prev sid) in
  snd (mustRunRebalance true c clone) = true ->
  (exists node, Tmap prev !! sid = Some node /\ InMaintenance node = false)
  /\ has_active_target clone.
Proof.
  intros Hst Hkeyed Hprev Hm clone Hmust.
  destruct (mustRunRebalance_enabled c clone Hm) as [Hiff _].
  apply Hiff in Hmust. rewrite Hprev in Hmust.
  destruct Hmust as (Hchg & _ & Hcur). split; [|exact Hcur].
  assert (HT : Tmap clone = delete sid (Tmap prev)).
  { subst clone. rewrite (proj1 (Hst _)). reflexivity. }
  destruct Hchg as [(t & ((key & Hk) & _ & Hact) & Habs)
                   |(t & ((key & Hk) & _ & Hact) & Habs)].
  - exfalso. rewrite HT in Hk.
    apply lookup_delete_Some in Hk. destruct Hk as [Hne Hk].
    pose proof (Hkeyed _ _ Hk) as Hid.
    assert (Hg : GetNode prev (ID t) = Some t).
    { unfold GetNode, GetTarget. rewrite Hid, Hk. reflexivity. }
    destruct Habs as [Habs|(n & Hn & Hmaint)]; [congruence|].
    rewrite Hg in Hn. injection Hn as <-.
    unfold InMaintenance in Hmaint. congruence.
  - pose proof (Hkeyed _ _ Hk) as Hid.
    destruct (decide (key = sid)) as [->|Hne].
    + exists t. split; [exact Hk | exact Hact].
    + exfalso.
      assert (Hg : GetNode clone (ID t) = Some t).
      { unfold GetNode, GetTarget. rewrite HT, Hid.
        rewrite lookup_delete_ne by congruence. rewrite Hk. reflexivity. }
      destruct Habs as [Habs|(n & Hn & Hmaint)]; [congruence|].
      rewrite Hg in Hn. injection Hn as <-.
      unfold InMaintenance in Hmaint. congruence.
Qed.

(** X13.  Removing a node increments the RMD only when all of this holds:
    the caller did not ask to skip the rebalance, rebalance is enabled in
    the configuration, the removed node was registered as a target that was
    neither in maintenance nor being decommissioned, and an active target
    remains in the new Smap.  Then the RMD is the old one incremented once
    and [unregNode] reports no error.  In particular the removal of a
    proxy, of a target in maintenance, or of the last active target never
    starts a rebalance. *)
Theorem unregNode_rmd_change
        (p : proxyrunner) (env : rmEnv) (si_ : Snode) (skipReb : bool) :
  restaffs staffIC ->
  keyed (smap p) ->
  let r := unregNode p env si_ skipReb in
  let p' := fst (fst (fst r)) in
  rmd p' <> rmd p ->
  skipReb = false
  /\ rebalanceEnabled p = true
  /\ env_rmdModify env = true
  /\ (exists node, Tmap (smap p) !! ID si_ = Some node
                   /\ InMaintenance node = false)
  /\ has_active_target (smap p')
  /\ snd r = None
  /\ rmd p' = rmd_inc (rmd p).
Proof.
  intros Hst Hkeyed. cbv zeta.
  unfold ais_rm.unregNode, ais_rm._unregNodePre. cbn [ctx_sid ctx ctx_skipReb ctx_status].
  destruct (negb (isPrimary (smap p) (si p))); [cbn; congruence|].
  destruct (GetNode (smap p) (ID si_)) as [node|]; [|cbn; congruence].
  set (c0 := mkSmapModifier (smap p) None None 0 false false).
  assert (Hsame : forall clone status,
             Tmap clone = Tmap (smap p) ->
             rmd (fst (fst (_newRebRMD p env
                              (mkRmModifier c0 (ID si_) skipReb status) clone)))
             = rmd p).
  { intros clone status HT. unfold _newRebRMD. cbn [ctx_skipReb ctx].
    destruct skipReb; [reflexivity|].
    pose proof (same_targets_no_rebalance (rebalanceEnabled p) c0 clone
                  eq_refl Hkeyed HT) as Hs.
    destruct (mustRunRebalance (rebalanceEnabled p) c0 clone) as [c1 must].
    cbn [snd] in Hs. subst must. reflexivity. }
  destruct (negb (nodeStarted p)).
  { specialize (Hsame (smap p) StatusServiceUnavailable eq_refl).
    destruct (_newRebRMD p env _ (smap p)) as [[p2 c2] effs2].
    cbn [fst snd] in *. intros H. exfalso. apply H. exact Hsame. }
  destruct (IsProxy node).
  { specialize (Hsame (staffIC (smapx.delProxy (smap p) (ID si_))) 0
                      (proj1 (Hst _))).
    destruct (_newRebRMD p env _ _) as [[p2 c2] effs2].
    cbn [fst snd] in *. intros H. exfalso. apply H. exact Hsame. }
  destruct (negb (clusterStarted p) || rmd_startup p); [cbn; congruence|].
  clear Hsame. unfold _newRebRMD. cbn [ctx_skipReb ctx ctx_sid ctx_status].
  destruct skipReb; [cbn; congruence|].
  destruct (rebalanceEnabled p) eqn:Ereb.
  2:{ unfold mustRunRebalance. cbn [_mustReb c0 negb]. cbn. congruence. }
  pose proof (delTarget_rebalance (smap p) (ID si_) c0 Hst Hkeyed eq_refl eq_refl)
    as Hdel. cbv zeta in Hdel.
  destruct (mustRunRebalance true c0 (staffIC (smapx.delTarget (smap p) (ID si_))))
    as [c1 must].
  cbn [snd] in Hdel. destruct must; [|cbn; congruence].
  destruct (env_rmdModify env); [|cbn; congruence].
  cbn [fst snd rmd smap put_smap put_rmd]. intros _.
  destruct (Hdel eq_refl) as [Hnode Hact].
  repeat split; auto.
Qed.

(** X14.  On the primary of a started cluster with rebalance enabled,
    removing an active target while another active target remains (the
    caller did not ask to skip the rebalance, and no proxy is registered
    under the target's id) publishes the Smap without the target,
    increments the RMD by one, registers a rebalance listener for
    the new RMD version, and metasyncs the new Smap together with the new
    RMD, waiting for the metasync to complete. *)
Theorem unregNode_target_rebalance
        (p : proxyrunner) (env : rmEnv) (si_ node other : Snode)
        (key : string) :
  restaffs staffIC ->
  keyed (smap p) ->
  isPrimary (smap p) (si p) = true ->
  nodeStarted p = true ->
  clusterStarted p = true ->
  rmd_startup p = false ->
  rebalanceEnabled p = true ->
  env_rmdModify env = true ->
  Tmap (smap p) !! ID si_ = Some node ->
  Pmap (smap p) !! ID si_ = None ->
  IsProxy node = false ->
  InMaintenance node = false ->
  Tmap (smap p) !! key = Some other ->
  key <> ID si_ ->
  InMaintenance other = false ->
  let clone := staffIC (smapx.delTarget (smap p) (ID si_)) in
  let rmd' := rmd_inc (rmd p) in
  unregNode p env si_ false
  = (put_smap (put_rmd p rmd') clone,
     [RproxyDelete (ID si_);
      NotifsAdd (rmd_Version rmd') None;
      MetasyncSync [RevSmap clone; RevRMD rmd'] true],
     0, None).
Proof.
  intros Hst Hkeyed Hprim Hns Hcs Hrs Hreb Hmod Hnode Hnop Hproxy Hact Hother Hne Hoact.
  cbv zeta.
  unfold ais_rm.unregNode, ais_rm._unregNodePre. cbn [ctx_sid ctx ctx_skipReb ctx_status].
  rewrite Hprim. cbn [negb].
  assert (Hg : GetNode (smap p) (ID si_) = Some node).
  { unfold GetNode, GetTarget. rewrite Hnode. reflexivity. }
  rewrite Hg, Hns, Hproxy, Hcs, Hrs. cbn [negb orb].
  unfold _newRebRMD. cbn [ctx_skipReb ctx ctx_sid ctx_status]. rewrite Hreb.
  set (c0 := mkSmapModifier (smap p) None None 0 false false).
  set (clone := staffIC (smapx.delTarget (smap p) (ID si_))).
  destruct (mustRunRebalance_enabled c0 clone eq_refl) as [Hiff Hfst].
  assert (HT : Tmap clone = delete (ID si_) (Tmap (smap p))).
  { subst clone. rewrite (proj1 (Hst _)). reflexivity. }
  assert (Hmust : snd (mustRunRebalance true c0 clone) = true).
  { apply Hiff. split; [|split].
    - right. exists node. split.
      + split; [exists (ID si_); exact Hnode|]. split; [exact Hproxy | exact Hact].
      + left. pose proof (Hkeyed _ _ Hnode) as Hid. rewrite Hid.
        unfold GetNode, GetTarget, GetProxy. rewrite HT, lookup_delete_eq.
        subst clone. apply (proj2 (proj2 (Hst _))).
        cbn [smapx.delTarget Pmap]. exact Hnop.
    - exists (ID si_), node. split; [exact Hnode | exact Hact].
    - exists key, other. split; [|exact Hoact].
      rewrite HT, lookup_delete_ne by congruence. exact Hother. }
  rewrite Hmust in Hfst.
  destruct (mustRunRebalance true c0 clone) as [c1 must].
  cbn [fst snd] in *. subst must c1. rewrite Hmod.
  cbn [_syncFinal ctx ctx_rmd set_ctx_rmd set_mustReb _mustReb ctx_status app].
  reflexivity.
Qed.

Lemma unregNode_error (p : proxyrunner) (env : rmEnv) (si_ : Snode)
      (skipReb : bool) (e : rmErr) :
  snd (unregNode p env si_ skipReb) = Some e ->
  fst (fst (unregNode p env si_ skipReb)) = (p, []).
Proof.
  unfold ais_rm.unregNode, ais_rm._unregNodePre.
  cbn [ctx_sid ctx ctx_skipReb ctx_status].
  destruct (negb (isPrimary (smap p) (si p))); [reflexivity|].
  destruct (GetNode (smap p) (ID si_)) as [node|]; [|reflexivity].
  destruct (negb (nodeStarted p)).
  { destruct (_newRebRMD p env _ (smap p)) as [[p2 c2] effs2]. discriminate. }
  destruct (IsProxy node).
  { destruct (_newRebRMD p env _ _) as [[p2 c2] effs2]. discriminate. }
  destruct (negb (clusterStarted p) || rmd_startup p); [reflexivity|].
  destruct (_newRebRMD p env _ _) as [[p2 c2] effs2]. discriminate.
Qed.

Lemma unregNode_smap (p : proxyrunner) (env : rmEnv) (si_ : Snode)
      (skipReb : bool) :
  let p' := fst (fst (fst (unregNode p env si_ skipReb))) in
  smap p' = smap p
  \/ (exists node, GetNode (smap p) (ID si_) = Some node
                   /\ isPrimary (smap p) (si p) = true
                   /\ (smap p' = staffIC (smapx.delProxy (smap p) (ID si_))
                       \/ smap p' = staffIC (smapx.delTarget (smap p) (ID si_)))).
Proof.
  cbv zeta. unfold ais_rm.unregNode, ais_rm._unregNodePre.
  cbn [ctx_sid ctx ctx_skipReb ctx_status].
  destruct (isPrimary (smap p) (si p)) eqn:Ep; cbn [negb]; [|left; reflexivity].
  destruct (GetNode (smap p) (ID si_)) as [node|]; [|left; reflexivity].
  destruct (negb (nodeStarted p)).
  { destruct (_newRebRMD p env _ (smap p)) as [[p2 c2] effs2]. left. reflexivity. }
  destruct (IsProxy node).
  { destruct (_newRebRMD p env _ _) as [[p2 c2] effs2]. right.
    exists node. repeat split; auto. }
  destruct (negb (clusterStarted p) || rmd_startup p); [left; reflexivity|].
  destruct (_newRebRMD p env _ _) as [[p2 c2] effs2]. right.
  exists node. repeat split; auto.
Qed.

Lemma callRmSelf_smap (p : proxyrunner) (env : rmEnv) (msg : ActionMsg)
      (si_ : Snode) (skipReb : bool) :
  let p' := fst (fst (fst (callRmSelf p env msg si_ skipReb))) in
  p' = p \/ p' = fst (fst (fst (unregNode p env si_ skipReb))).
Proof.
  cbv zeta. unfold ais_rm.callRmSelf.
  destruct (GetNode (smap p) (ID si_)) as [node|]; [|left; reflexivity].
  destruct (String.eqb (Action msg) ActShutdownNode) eqn:E1.
  - destruct (String.eqb (Action msg) ActDecommissionNode
              || String.eqb (Action msg) ActCallbackRmFromSmap);
      [|left; reflexivity].
    destruct (ais_rm.unregNode staffIC p env si_ skipReb) as [[[p' effs'] c] e].
    right. reflexivity.
  - destruct (String.eqb (Action msg) ActStartMaintenance
              || String.eqb (Action msg) ActDecommissionNode
              || String.eqb (Action msg) ActCallbackRmFromSmap);
      [|left; reflexivity].
    destruct (String.eqb (Action msg) ActDecommissionNode
              || String.eqb (Action msg) ActCallbackRmFromSmap);
      [|left; reflexivity].
    destruct (ais_rm.unregNode staffIC p env si_ skipReb) as [[[p' effs'] c] e].
    right. reflexivity.
Qed.

(** X15.  [DELETE /v1/cluster/daemon/<sid>] never removes the primary:
    whatever the request and whatever the node answers, the Smap after the
    handler names the same primary and still has a proxy registered under
    the primary's id. *)
Theorem httpcludel_keeps_primary
        (p : proxyrunner) (env : rmEnv) (r : delRequest) (pr : Snode) :
  restaffs staffIC ->
  Primary (smap p) = Some pr ->
  is_Some (Pmap (smap p) !! ID pr) ->
  let p' := fst (fst (httpcludel p env r)) in
  Primary (smap p') = Some pr /\ is_Some (Pmap (smap p') !! ID pr).
Proof.
  intros Hst Hpr Hreg. cbv zeta.
  assert (Hdel : forall sid node q,
             GetNode (smap p) sid = Some node ->
             isPrimary (smap p) node = false ->
             q = fst (fst (fst (unregNode p env node false))) ->
             Primary (smap q) = Some pr /\ is_Some (Pmap (smap q) !! ID pr)).
  { intros sid node q Hg Hnp ->.
    assert (Hne : ID node <> ID pr).
    { unfold isPrimary in Hnp. rewrite Hpr in Hnp.
      apply String.eqb_neq in Hnp. congruence. }
    destruct (unregNode_smap p env node false) as [->|(n & _ & _ & [->| ->])].
    - auto.
    - destruct (Hst (smapx.delProxy (smap p) (ID node))) as (_ & HP & HM).
      rewrite HP. split; [exact Hpr|].
      destruct (Pmap (staffIC _) !! ID pr) eqn:E; [eauto|].
      apply HM in E. cbn [smapx.delProxy Pmap] in E.
      rewrite lookup_delete_ne in E by exact Hne.
      destruct Hreg as [x Hx]. congruence.
    - destruct (Hst (smapx.delTarget (smap p) (ID node))) as (_ & HP & HM).
      rewrite HP. split; [exact Hpr|].
      destruct (Pmap (staffIC _) !! ID pr) eqn:E; [eauto|].
      apply HM in E. cbn [smapx.delTarget Pmap] in E.
      destruct Hreg as [x Hx]. congruence. }
  unfold ais_rm.httpcludel.
  destruct (del_items r) as [|sid rest]; [cbn; auto|].
  destruct (GetNode (smap p) sid) as [node|] eqn:Eg; [|cbn; auto].
  destruct (isPrimary (smap p) node) eqn:Enp; [cbn; auto|].
  destruct (env_forwardCP env); [cbn; auto|].
  destruct (del_intra r).
  - destruct (String.eqb (del_callerID r) sid).
    + specialize (Hdel sid node _ Eg Enp eq_refl).
      destruct (ais_rm.unregNode staffIC p env node false) as [[[p' effs] c] [e|]];
        exact Hdel.
    + cbn. auto.
  - pose proof (callRmSelf_smap p env (mkActionMsg ActCallbackRmFromSmap None)
                  node false) as Hc. cbv zeta in Hc.
    specialize (Hdel sid node _ Eg Enp eq_refl).
    destruct (ais_rm.callRmSelf staffIC p env _ node false) as [[[p' effs] c] e].
    cbn [fst] in Hc.
    assert (Hp' : Primary (smap p') = Some pr /\ is_Some (Pmap (smap p') !! ID pr)).
    { destruct Hc as [->| ->]; [auto | exact Hdel]. }
    destruct e; exact Hp'.
Qed.

(** X16.  While the primary's own node has not started, a request to
    remove a registered node other than the primary is answered 200 and the
    Smap keeps the node: [_unregNodePre] sets the status 503 but returns no
    error, so the unchanged map is published and metasynced, the RMD stays
    as it is, and the handler writes no error.  A request that does not
    come from the node itself still asks the node to remove itself. *)
Theorem httpcludel_before_node_started
        (p : proxyrunner) (env : rmEnv) (r : delRequest)
        (sid : string) (rest : list string) (node : Snode) :
  keyed (smap p) ->
  nodeStarted p = false ->
  isPrimary (smap p) (si p) = true ->
  del_items r = sid :: rest ->
  GetNode (smap p) sid = Some node ->
  ID node = sid ->
  isPrimary (smap p) node = false ->
  env_forwardCP env = false ->
  (del_intra r = true -> del_callerID r = sid) ->
  httpcludel p env r
  = (p,
     (if del_intra r then []
      else Call node (ReqRmSelf (mkActionMsg ActCallbackRmFromSmap None))
           :: (if env_callFails env then [WarnNoResponse sid] else []))
     ++ [MetasyncSync [RevSmap (smap p)] false],
     ReplyOK).
Proof.
  intros Hkeyed Hns Hprim Hitems Hg Hid Hnp Hfwd Hself. subst sid.
  assert (Hun : forall skipReb,
             ais_rm.unregNode staffIC p env node skipReb
             = (p, [MetasyncSync [RevSmap (smap p)] false],
                StatusServiceUnavailable, None)).
  { intros skipReb. unfold ais_rm.unregNode, ais_rm._unregNodePre.
    cbn [ctx_sid ctx ctx_skipReb ctx_status].
    rewrite Hprim, Hg, Hns. cbn [negb].
    unfold _newRebRMD. cbn [ctx_skipReb ctx ctx_sid ctx_status].
    assert (Hp : put_smap p (smap p) = p) by (destruct p; reflexivity).
    destruct skipReb.
    - cbn [_syncFinal ctx ctx_rmd _mustReb app ctx_status]. rewrite Hp. reflexivity.
    - set (c0 := mkSmapModifier (smap p) None None 0 false false).
      pose proof (same_targets_no_rebalance (rebalanceEnabled p) c0 (smap p)
                    eq_refl Hkeyed eq_refl) as Hs.
      assert (Hf : fst (mustRunRebalance (rebalanceEnabled p) c0 (smap p)) = c0).
      { destruct (rebalanceEnabled p) eqn:Er.
        - destruct (mustRunRebalance_enabled c0 (smap p) eq_refl) as [_ Hfst].
          rewrite Hfst, Hs. reflexivity.
        - reflexivity. }
      destruct (mustRunRebalance (rebalanceEnabled p) c0 (smap p)) as [c1 must].
      cbn [fst snd] in *. subst must c1.
      cbn [_syncFinal ctx ctx_rmd _mustReb app ctx_status c0]. rewrite Hp.
      reflexivity. }
  unfold ais_rm.httpcludel. rewrite Hitems, Hg, Hnp, Hfwd.
  destruct (del_intra r).
  - rewrite (Hself eq_refl), String.eqb_refl, Hun. reflexivity.
  - unfold ais_rm.callRmSelf. rewrite Hg.
    change (String.eqb (Action (mkActionMsg ActCallbackRmFromSmap None))
                       ActShutdownNode) with false.
    change (String.eqb (Action (mkActionMsg ActCallbackRmFromSmap None))
                       ActStartMaintenance) with false.
    change (String.eqb (Action (mkActionMsg ActCallbackRmFromSmap None))
                       ActDecommissionNode) with false.
    change (String.eqb (Action (mkActionMsg ActCallbackRmFromSmap None))
                       ActCallbackRmFromSmap) with true.
    cbn [orb]. rewrite Hun. cbn [Action Value].
    destruct (env_callFails env); reflexivity.
Qed.

Lemma unregNode_skipReb (p : proxyrunner) (env : rmEnv) (si_ : Snode) :
  let r := unregNode p env si_ true in
  rmd (fst (fst (fst r))) = rmd p
  /\ Forall (fun e => starts_rebalance e = false) (snd (fst (fst r))).
Proof.
  cbv zeta. unfold ais_rm.unregNode, ais_rm._unregNodePre.
  cbn [ctx_sid ctx ctx_skipReb ctx_status].
  destruct (negb (isPrimary (smap p) (si p))); [cbn; auto|].
  destruct (GetNode (smap p) (ID si_)) as [node|]; [|cbn; auto].
  destruct (negb (nodeStarted p)); [cbn; split; [reflexivity|repeat constructor]|].
  destruct (IsProxy node); [cbn; split; [reflexivity|repeat constructor]|].
  destruct (negb (clusterStarted p) || rmd_startup p); [cbn; auto|].
  cbn; split; [reflexivity|repeat constructor].
Qed.

Lemma callRmSelf_skipReb (p : proxyrunner) (env : rmEnv) (msg : ActionMsg)
      (si_ : Snode) :
  let r := callRmSelf p env msg si_ true in
  rmd (fst (fst (fst r))) = rmd p
  /\ Forall (fun e => starts_rebalance e = false) (snd (fst (fst r)))
  /\ (String.eqb (Action msg) ActDecommissionNode
      || String.eqb (Action msg) ActCallbackRmFromSmap = false ->
      fst (fst (fst r)) = p).
Proof.
  cbv zeta. unfold ais_rm.callRmSelf.
  destruct (GetNode (smap p) (ID si_)) as [node|]; [|cbn; auto].
  pose proof (unregNode_skipReb p env si_) as Hu. cbv zeta in Hu.
  assert (Hcall : Forall (fun e => starts_rebalance e = false)
                    (if env_callFails env then [WarnNoResponse (ID node)] else []))
    by (destruct (env_callFails env); repeat constructor).
  destruct (if String.eqb (Action msg) ActShutdownNode then _ else _) as [req|];
    [|cbn; auto].
  destruct (String.eqb (Action msg) ActDecommissionNode
            || String.eqb (Action msg) ActCallbackRmFromSmap).
  - destruct (ais_rm.unregNode staffIC p env si_ true) as [[[p' effs'] c] e].
    cbn [fst snd] in *. destruct Hu as [Hr Hf].
    split; [exact Hr|]. split; [|discriminate].
    constructor; [reflexivity|]. apply Forall_app. split; assumption.
  - cbn [fst snd]. split; [reflexivity|]. split; [|reflexivity].
    constructor; [reflexivity | exact Hcall].
Qed.

(** X17.  The callback that runs when the rebalance of a decommission or
    shutdown has ended never starts another rebalance: it leaves the RMD
    alone and registers no listener.  When the rebalance ended with an
    error or was aborted it does nothing at all but log: the node is
    neither called nor removed.  And it removes the node from the Smap only
    for a decommission; for any other action the proxy is left as it was. *)
Theorem removeAfterRebalance_effect
        (p : proxyrunner) (env : rmEnv) (nl : notifs.listener)
        (msg : ActionMsg) (si_ : Snode) :
  let p' := fst (removeAfterRebalance p env nl msg si_) in
  let effs := snd (removeAfterRebalance p env nl msg si_) in
  rmd p' = rmd p
  /\ Forall (fun e => starts_rebalance e = false) effs
  /\ (notifs.l_err nl <> None \/ notifs.Aborted nl = true ->
      p' = p /\ effs = [ErrRebalanceNotFinished (notifs.l_uuid nl)])
  /\ (String.eqb (Action msg) ActDecommissionNode
      || String.eqb (Action msg) ActCallbackRmFromSmap = false ->
      p' = p).
Proof.
  cbv zeta. unfold ais_rm.removeAfterRebalance.
  destruct (notifs.l_err nl) as [e|].
  { cbn. repeat split; auto; repeat constructor. }
  destruct (notifs.Aborted nl).
  { cbn. repeat split; auto; repeat constructor. }
  pose proof (callRmSelf_skipReb p env msg si_) as Hc. cbv zeta in Hc.
  destruct (ais_rm.callRmSelf staffIC p env msg si_ true) as [[[p' effs] c] e].
  cbn [fst snd] in Hc. destruct Hc as (Hr & Hf & Hp).
  destruct e; cbn [fst snd]; (split; [exact Hr|]); (split; [|split]); auto.
  - apply Forall_app. split; [exact Hf | repeat constructor].
  - intros [H|H]; [congruence | discriminate].
  - intros [H|H]; [congruence | discriminate].
Qed.

(** X18.  [rebalanceAndRmSelf] with fewer than two active targets starts
    no rebalance: the RMD stays as it is and no listener is registered (the
    node is asked to remove itself, and is unregistered only for a
    decommission).  With two or more active targets it increments the RMD
    once, metasyncs it and waits, and registers the listener of the new
    version; the Smap is not touched at this point: the removal of the node
    is left to the callback of the listener, which is set for a decommission
    or shutdown only. *)
Theorem rebalanceAndRmSelf_effect
        (p : proxyrunner) (env : rmEnv) (msg : ActionMsg) (si_ : Snode) :
  let r := rebalanceAndRmSelf p env msg si_ in
  let p' := fst (fst (fst r)) in
  let effs := snd (fst (fst r)) in
  (CountActiveTargets (smap p) < 2 ->
   rmd p' = rmd p
   /\ Forall (fun e => starts_rebalance e = false) effs
   /\ snd (fst r) = None)
  /\ (2 <= CountActiveTargets (smap p) -> env_rmdModify env = true ->
      let rmd' := rmd_inc (rmd p) in
      r = (put_rmd p rmd',
           [MetasyncSync [RevRMD rmd'] true;
            NotifsAdd (rmd_Version rmd')
              (if String.eqb (Action msg) ActDecommissionNode
                  || String.eqb (Action msg) ActShutdownNode
               then Some (msg, si_) else None)],
           Some (rmd_Version rmd'), None)
      /\ smap p' = smap p).
Proof.
  cbv zeta. unfold ais_rm.rebalanceAndRmSelf. split.
  - intros Hlt. apply Z.ltb_lt in Hlt. rewrite Hlt.
    pose proof (callRmSelf_skipReb p env msg si_) as Hc. cbv zeta in Hc.
    destruct (ais_rm.callRmSelf staffIC p env msg si_ true) as [[[p' effs] c] e].
    cbn [fst snd] in *. destruct Hc as (Hr & Hf & _). auto.
  - intros Hge Hmod. apply Z.ltb_ge in Hge. rewrite Hge, Hmod.
    unfold metasyncRMD. split; reflexivity.
Qed.

(** X19.  A rebalance requested by the user runs even when rebalance is
    disabled in the configuration.  With a valid Smap, on the primary of a
    started cluster that has two or more active targets,
    [rebalanceCluster] increments the RMD once, metasyncs it, registers the
    listener of the new version and answers with the rebalance id, whatever
    [Rebalance.Enabled] says; and whenever the handler changes the proxy at
    all, these conditions hold. *)
Theorem rebalanceCluster_effect (p : proxyrunner) (env : rmEnv) :
  let ready := env_smapValid env && isPrimary (smap p) (si p)
               && clusterStarted p && negb (rmd_startup p)
               && (2 <=? CountActiveTargets (smap p)) && env_rmdModify env in
  (ready = true ->
   let rmd' := rmd_inc (rmd p) in
   rebalanceCluster p env
   = (put_rmd p rmd',
      [MetasyncSync [RevRMD rmd'] false; NotifsAdd (rmd_Version rmd') None],
      ReplyRebID (rmd_Version rmd')))
  /\ (ready = false ->
      fst (fst (rebalanceCluster p env)) = p
      /\ Forall (fun e => starts_rebalance e = false)
                (snd (fst (rebalanceCluster p env))))
  /\ (rebalanceEnabled p = false -> ready = true ->
      canRunRebalance p env = Some errRebalanceDisabled).
Proof.
  cbv zeta. unfold ais_rm.rebalanceCluster, ais_rm.canRunRebalance.
  destruct (env_smapValid env); cbn [negb andb];
    [|split; [discriminate|]; split; [cbn; auto | discriminate]].
  destruct (isPrimary (smap p) (si p)); cbn [negb andb];
    [|split; [discriminate|]; split; [cbn; auto | discriminate]].
  destruct (clusterStarted p); cbn [negb andb orb];
    [|split; [discriminate|]; split; [cbn; auto | discriminate]].
  destruct (rmd_startup p); cbn [negb andb orb];
    [split; [discriminate|]; split; [cbn; auto | discriminate]|].
  assert (Hlt : (CountActiveTargets (smap p) <? 2)
                = negb (2 <=? CountActiveTargets (smap p))).
  { destruct (Z.ltb_spec (CountActiveTargets (smap p)) 2),
             (Z.leb_spec 2 (CountActiveTargets (smap p))); try reflexivity; lia. }
  destruct (rebalanceEnabled p); cbn [negb]; rewrite Hlt;
    destruct (2 <=? CountActiveTargets (smap p)); cbn [negb andb];
    try (split; [discriminate|]; split;
         [intros _; cbn; split; [reflexivity | repeat constructor]
         | first [discriminate | intros _; discriminate]]);
    destruct (env_rmdModify env); cbn [negb andb];
    try (split; [discriminate|]; split;
         [intros _; cbn; split; [reflexivity | repeat constructor]
         | first [discriminate | intros _; discriminate]]).
  - split; [reflexivity|]. split; discriminate.
  - split; [reflexivity|]. split; [discriminate | reflexivity].
Qed.

Lemma ldiff_clears (fl m : Z) : Z.land (Z.ldiff fl m) m = 0.
Proof.
  apply Z.bits_inj'. intros n Hn.
  rewrite Z.land_spec, Z.ldiff_spec, Z.bits_0.
  destruct (Z.testbit fl n), (Z.testbit m n); reflexivity.
Qed.

(** X20.  Ending the maintenance of a target brings the target back into the
    rebalance: on the primary, with rebalance enabled and not skipped, when
    another active target exists, [stopMaintenance] clears the maintenance
    and decommission flags of the target in the published Smap (its other
    fields and all other targets stay as they are), increments the RMD once
    and answers with the id of the new rebalance.  The node is probed
    first: the request goes through when the first or the second health call
    succeeds, or when the second fails with status 503 (the node is
    starting up); when both fail otherwise, the request is answered with an
    error and the proxy is left as it was. *)
Theorem stopMaintenance_reactivates
        (p : proxyrunner) (env : rmEnv) (h : healthEnv) (opts : ActValRmNode)
        (node other : Snode) (key : string) :
  restaffs staffIC ->
  keyed (smap p) ->
  isPrimary (smap p) (si p) = true ->
  Tmap (smap p) !! DaemonID opts = Some node ->
  IsProxy node = false ->
  InMaintenance node = true ->
  Tmap (smap p) !! key = Some other ->
  key <> DaemonID opts ->
  InMaintenance other = false ->
  SkipRebalance opts = false ->
  rebalanceEnabled p = true ->
  env_rmdModify env = true ->
  let r := stopMaintenance staffIC p env h (Some opts) in
  let p' := fst (fst r) in
  let unreachable := h_fails1 h && h_fails2 h
                     && negb (h_status2 h =? StatusServiceUnavailable) in
  (unreachable = true ->
   p' = p /\ snd r = ReplyErr (ErrUnreachable (ID node) (h_status2 h)) 0)
  /\ (unreachable = false ->
      snd r = ReplyRebID (rmd_Version (rmd_inc (rmd p)))
      /\ rmd p' = rmd_inc (rmd p)
      /\ (exists node',
            Tmap (smap p') !! DaemonID opts = Some node'
            /\ InMaintenance node' = false
            /\ ID node' = ID node
            /\ Flags node' = Z.ldiff (Flags node) NodeFlagsMaintDecomm)
      /\ forall k, k <> DaemonID opts ->
                   Tmap (smap p') !! k = Tmap (smap p) !! k).
Proof.
  intros Hst Hkeyed Hprim Hnode Hproxy Hmaint Hother Hne Hoact Hskip Hreb Hmod.
  cbv zeta. unfold ais_rm.stopMaintenance.
  pose proof (Hkeyed _ _ Hnode) as Hid.
  assert (Hg : GetNode (smap p) (DaemonID opts) = Some node).
  { unfold GetNode, GetTarget. rewrite Hnode. reflexivity. }
  rewrite Hg.
  assert (Hpm : PresentInMaint (smap p) node = true).
  { unfold PresentInMaint. rewrite Hid, Hg. exact Hmaint. }
  rewrite Hpm. cbn [negb].
  destruct (h_fails1 h && h_fails2 h
            && negb (h_status2 h =? StatusServiceUnavailable)) eqn:Eun.
  { split; [intros _; split; reflexivity | discriminate]. }
  split; [discriminate|]. intros _.
  unfold ais_rm.cancelMaintenance, ais_rm._cancelMaintPre.
  cbn [ctx_sid ctx ctx_flags ctx_skipReb ctx_status].
  rewrite Hprim. cbn [negb].
  set (node' := mkSnode (cluster.DaemonID node) (DaemonType node) (PublicNet node)
                        (IntraControlNet node) (IntraDataNet node)
                        (Z.ldiff (Flags node) NodeFlagsMaintDecomm)).
  assert (Hclear : smapx.clearNodeFlags (smap p) (DaemonID opts) NodeFlagsMaintDecomm
                   = mkSmap (<[DaemonID opts := node']> (Tmap (smap p)))
                            (Pmap (smap p)) (Primary (smap p))
                            (Version (smap p)) (UUID (smap p))).
  { unfold smapx.clearNodeFlags. rewrite Hg, Hproxy. reflexivity. }
  rewrite Hclear.
  set (cur := mkSmap _ _ _ _ _).
  set (clone := staffIC cur).
  assert (HT : Tmap clone = <[DaemonID opts := node']> (Tmap (smap p))).
  { subst clone. rewrite (proj1 (Hst _)). reflexivity. }
  assert (Hact' : InMaintenance node' = false).
  { unfold InMaintenance, IsAnySet, BitFlags_IsAnySet. cbn [Flags node'].
    rewrite ldiff_clears. reflexivity. }
  unfold _newRebRMD. cbn [ctx_skipReb ctx ctx_sid ctx_status].
  rewrite Hskip, Hreb.
  set (c0 := mkSmapModifier (smap p) None None NodeFlagsMaintDecomm false false).
  destruct (mustRunRebalance_enabled c0 clone eq_refl) as [Hiff Hfst].
  assert (Hmust : snd (mustRunRebalance true c0 clone) = true).
  { apply Hiff. split; [|split].
    - left. exists node'. split.
      + split; [exists (DaemonID opts); rewrite HT; apply lookup_insert_eq|].
        split; [exact Hproxy | exact Hact'].
      + right. exists node. split; [|exact Hmaint].
        change (ID node') with (ID node). rewrite Hid. exact Hg.
    - exists key, other. split; [exact Hother | exact Hoact].
    - exists key, other. split; [|exact Hoact].
      rewrite HT, lookup_insert_ne by congruence. exact Hother. }
  rewrite Hmust in Hfst.
  destruct (mustRunRebalance true c0 clone) as [c1 must].
  cbn [fst snd] in *. subst must c1. rewrite Hmod.
  cbn [ctx ctx_rmd set_ctx_rmd set_mustReb option_map fst snd rmd smap
       put_smap put_rmd].
  split; [reflexivity|]. split; [reflexivity|]. split.
  - exists node'. rewrite HT, lookup_insert_eq. repeat split; auto.
  - intros k Hk. rewrite HT, lookup_insert_ne by congruence. reflexivity.
Qed.

End RmFacts.


Lemma restaffs_sample : restaffs sample.staffIC.
Proof. intros m. repeat split; auto. Qed.

Lemma keyed_sample : keyed sample.smap_t1t2.
Proof.
  intros k t.
  apply (map_Forall_lookup_1 (fun k t => cluster.ID t = k)).
  apply map_Forall_to_list. vm_compute. repeat constructor.
Qed.

Lemma unregNode_rmd_change_witness :
  let p := sample.primary sample.smap_t1t2 in
  let r := ais_rm.unregNode sample.staffIC p
             (ais_rm.mkRmEnv true true false false) sample.t2 false in
  ais.rmd (fst (fst (fst r))) = ais.rmd_inc (ais.rmd p)
  /\ ais.has_active_target (ais.smap (fst (fst (fst r)))).
Proof.
  intros p r.
  destruct (unregNode_rmd_change sample.staffIC p
              (ais_rm.mkRmEnv true true false false) sample.t2 false
              restaffs_sample keyed_sample)
    as (_ & _ & _ & _ & H1 & _ & H2).
  - vm_compute. discriminate.
  - split; [exact H2 | exact H1].
Defined.

Lemma unregNode_target_rebalance_witness :
  let p := sample.primary sample.smap_t1t2 in
  let clone := sample.staffIC (smapx.delTarget sample.smap_t1t2 "t2") in
  ais_rm.unregNode sample.staffIC p (ais_rm.mkRmEnv true true false false)
                   sample.t2 false
  = (ais.put_smap (ais.put_rmd p (ais.mkRebMD 1 [])) clone,
     [ais_rm.RproxyDelete "t2"; ais_rm.NotifsAdd 1 None;
      ais_rm.MetasyncSync [ais.RevSmap clone; ais.RevRMD (ais.mkRebMD 1 [])] true],
     0, None).
Proof.
  intros p clone.
  apply (unregNode_target_rebalance sample.staffIC p
           (ais_rm.mkRmEnv true true false false) sample.t2 sample.t2 sample.t1 "t1"
           restaffs_sample keyed_sample); try reflexivity.
  discriminate.
Defined.

Lemma httpcludel_keeps_primary_witness :
  let p := sample.primary sample.smap_t1t2 in
  let p' := fst (fst (ais_rm.httpcludel sample.staffIC p
                        (ais_rm.mkRmEnv true true false false)
                        (ais_rm.mkDelRequest ["p2"] false ""))) in
  cluster.Primary (ais.smap p') = Some sample.p1
  /\ is_Some (cluster.Pmap (ais.smap p') !! "p1").
Proof.
  intros p p'.
  apply (httpcludel_keeps_primary sample.staffIC p
           (ais_rm.mkRmEnv true true false false)
           (ais_rm.mkDelRequest ["p2"] false "") sample.p1 restaffs_sample).
  - reflexivity.
  - vm_compute. eauto.
Defined.

Lemma httpcludel_before_node_started_witness :
  let p := ais.mkProxy sample.p1 sample.smap_t1t2 (ais.mkRebMD 0 []) false false
                       false true false [] true [] in
  ais_rm.httpcludel sample.staffIC p (ais_rm.mkRmEnv true true false false)
                    (ais_rm.mkDelRequest ["t2"] true "t2")
  = (p, [ais_rm.MetasyncSync [ais.RevSmap sample.smap_t1t2] false],
     ais_rm.ReplyOK).
Proof.
  intros p.
  apply (httpcludel_before_node_started sample.staffIC p
           (ais_rm.mkRmEnv true true false false)
           (ais_rm.mkDelRequest ["t2"] true "t2") "t2" [] sample.t2 keyed_sample);
    reflexivity.
Defined.

Lemma removeAfterRebalance_effect_witness :
  let p := sample.primary sample.smap_t1t2 in
  let nl := notifs.mkListener "reb-1" {["t1"; "t2"]} ∅ ∅ true None in
  fst (ais_rm.removeAfterRebalance sample.staffIC p
         (ais_rm.mkRmEnv true true false false) nl
         (ais_rm.mkActionMsg ais_rm.ActDecommissionNode None) sample.t2)
  = p.
Proof.
  intros p nl.
  destruct (removeAfterRebalance_effect sample.staffIC p
              (ais_rm.mkRmEnv true true false false) nl
              (ais_rm.mkActionMsg ais_rm.ActDecommissionNode None) sample.t2)
    as (_ & _ & H & _).
  destruct H as [H _]; [right; reflexivity | exact H].
Defined.

Lemma rebalanceAndRmSelf_effect_witness :
  let p := sample.primary sample.smap_t1 in
  let r := ais_rm.rebalanceAndRmSelf sample.staffIC p
             (ais_rm.mkRmEnv true true false false)
             (ais_rm.mkActionMsg ais_rm.ActDecommissionNode None) sample.t1 in
  ais.rmd (fst (fst (fst r))) = ais.rmd p.
Proof.
  intros p r.
  destruct (rebalanceAndRmSelf_effect sample.staffIC p
              (ais_rm.mkRmEnv true true false false)
              (ais_rm.mkActionMsg ais_rm.ActDecommissionNode None) sample.t1)
    as [H _].
  destruct H as (H & _); [vm_compute; reflexivity | exact H].
Defined.

Lemma rebalanceCluster_effect_witness :
  let p := ais.mkProxy sample.p1 sample.smap_t1t2 (ais.mkRebMD 0 []) false false
                       false true true [] false [] in
  snd (ais_rm.rebalanceCluster p (ais_rm.mkRmEnv true true false false))
  = ais_rm.ReplyRebID 1.
Proof.
  intros p.
  destruct (rebalanceCluster_effect p (ais_rm.mkRmEnv true true false false))
    as [H _].
  rewrite H; [reflexivity | vm_compute; reflexivity].
Defined.

Lemma stopMaintenance_reactivates_witness :
  let p := sample.primary sample_smap_maint in
  let r := ais_rm.stopMaintenance sample.staffIC p
             (ais_rm.mkRmEnv true true false false)
             (ais_rm.mkHealthEnv true true 503)
             (Some (ais_rm.mkActValRmNode "t2" false)) in
  snd r = ais_rm.ReplyRebID 1
  /\ cluster.GetNodeNotMaint (ais.smap (fst (fst r))) "t2" = Some sample.t2.
Proof.
  intros p r.
  destruct (stopMaintenance_reactivates sample.staffIC p
              (ais_rm.mkRmEnv true true false false)
              (ais_rm.mkHealthEnv true true 503)
              (ais_rm.mkActValRmNode "t2" false)
              sample_t2_maint sample.t1 "t1" restaffs_sample)
    as [_ H]; try reflexivity.
  - intros k t.
    apply (map_Forall_lookup_1 (fun k t => cluster.ID t = k)).
    apply map_Forall_to_list. vm_compute. repeat constructor.
  - discriminate.
  - destruct H as (H1 & _); [reflexivity|].
    split; [exact H1 | vm_compute; reflexivity].
Defined.

(** ** Collecting the answers of a broadcast *)

Section QueryFacts.

Import cluster ais_query.

Lemma queryLoop_spec (results : list callResult) :
  forall tres,
    let r := queryLoop results tres in
    (snd (fst r) = true
     <-> exists res, In res results /\ res_status res <> StatusNotFound
                     /\ res_err res <> None)
    /\ (snd (fst r) = true -> fst (fst r) = None /\ snd r <> None)
    /\ (snd (fst r) = false ->
        exists m,
          fst (fst r) = Some m /\ snd r = None
          /\ (forall id b, m !! id = Some b ->
                tres !! id = Some b
                \/ exists res, In res results /\ ID (res_si res) = id
                               /\ res_bytes res = b
                               /\ res_status res <> StatusNotFound)
          /\ (forall res, In res results ->
                res_status res <> StatusNotFound ->
                is_Some (m !! ID (res_si res)))
          /\ (forall id, is_Some (tres !! id) -> is_Some (m !! id))).
Proof.
  induction results as [|res rest IH]; intros tres; cbn [queryLoop].
  - cbn [fst snd]. split; [split; [discriminate | intros (r & [] & _)]|].
    split; [discriminate|]. intros _. exists tres.
    repeat split; auto. intros r [].
  - destruct (Z.eqb_spec (res_status res) StatusNotFound) as [E404|E404].
    + specialize (IH tres). cbv zeta in IH. destruct IH as (I1 & I2 & I3).
      split; [|split; [exact I2|]].
      * rewrite I1. split.
        -- intros (r & Hin & H). exists r. split; [right; exact Hin | exact H].
        -- intros (r & [<-|Hin] & Hs & He); [contradiction|]. eauto.
      * intros Hf. destruct (I3 Hf) as (m & Hm & Hn & Hfrom & Hall & Hkeep).
        exists m. repeat split; auto.
        -- intros id b Hb. destruct (Hfrom id b Hb) as [H|(r & Hin & H)];
             [left; exact H | right; exists r; split; [right; exact Hin | exact H]].
        -- intros r [<-|Hin] Hs; [contradiction | auto].
    + destruct (res_err res) as [e|] eqn:Ee.
      * cbn [fst snd]. split; [|split; [intros _; split; [reflexivity | discriminate]
                                        | discriminate]].
        split; [|reflexivity]. intros _. exists res.
        split; [left; reflexivity|]. split; [exact E404 | congruence].
      * specialize (IH (<[ID (res_si res) := res_bytes res]> tres)).
        cbv zeta in IH. destruct IH as (I1 & I2 & I3).
        split; [|split; [exact I2|]].
        -- rewrite I1. split.
           ++ intros (r & Hin & H). exists r. split; [right; exact Hin | exact H].
           ++ intros (r & [<-|Hin] & Hs & He); [congruence|]. eauto.
        -- intros Hf. destruct (I3 Hf) as (m & Hm & Hn & Hfrom & Hall & Hkeep).
           exists m. repeat split; auto.
           ++ intros id b Hb. destruct (Hfrom id b Hb) as [H|(r & Hin & H)].
              ** rewrite lookup_insert in H. case_decide as Hd.
                 --- injection H as <-. right. exists res.
                     split; [left; reflexivity|]. auto.
                 --- left. exact H.
              ** right. exists r. split; [right; exact Hin | exact H].
           ++ intros r [<-|Hin] Hs; [|auto].
              apply Hkeep. rewrite lookup_insert_eq. eauto.
           ++ intros id Hid. apply Hkeep.
              rewrite lookup_insert. case_decide; [eauto | exact Hid].
Qed.

End QueryFacts.

(** X21.  [_queryResults] fails exactly when some node answered the
    broadcast with an error and a status other than 404; it then returns no
    map and the error is written to the response.  Otherwise it returns a
    map that has an entry for every node whose status is not 404, and
    nothing else: every entry holds the bytes that a node of that id
    returned with a status other than 404.  Results with status 404 are
    skipped, error or not. *)
Theorem queryResults_spec (results : list ais_query.callResult) :
  let r := ais_query._queryResults results in
  (snd (fst r) = true
   <-> exists res, In res results
                   /\ ais_query.res_status res <> ais_query.StatusNotFound
                   /\ ais_query.res_err res <> None)
  /\ (snd (fst r) = true -> fst (fst r) = None /\ snd r <> None)
  /\ (snd (fst r) = false ->
      exists m,
        fst (fst r) = Some m /\ snd r = None
        /\ (forall id b, m !! id = Some b ->
              exists res, In res results
                          /\ cluster.ID (ais_query.res_si res) = id
                          /\ ais_query.res_bytes res = b
                          /\ ais_query.res_status res <> ais_query.StatusNotFound)
        /\ (forall res, In res results ->
              ais_query.res_status res <> ais_query.StatusNotFound ->
              is_Some (m !! cluster.ID (ais_query.res_si res)))).
Proof.
  cbv zeta. unfold ais_query._queryResults.
  destruct (queryLoop_spec results ∅) as (H1 & H2 & H3). cbv zeta in *.
  split; [exact H1|]. split; [exact H2|].
  intros Hf. destruct (H3 Hf) as (m & Hm & Hn & Hfrom & Hall & _).
  exists m. repeat split; auto.
  intros id b Hb. destruct (Hfrom id b Hb) as [H|H]; [|exact H].
  rewrite lookup_empty in H. discriminate.
Qed.

Lemma queryResults_spec_witness :
  let results := [ais_query.mkCallResult 404 (Some "not found") sample.t1 "";
                  ais_query.mkCallResult 200 None sample.t2 "stats"] in
  exists m, fst (fst (ais_query._queryResults results)) = Some m
            /\ is_Some (m !! "t2").
Proof.
  intros results.
  destruct (queryResults_spec results) as (_ & _ & H).
  destruct H as (m & Hm & _ & _ & Hall); [reflexivity|].
  exists m. split; [exact Hm|].
  apply (Hall (ais_query.mkCallResult 200 None sample.t2 "stats")).
  - right. left. reflexivity.
  - discriminate.
Defined.

(** ** The channels between sweeps *)

Section ChannelsFacts.

Import cluster Keepalive ProxyKeepalive.

Variable error : Type.
Variable IsUnreachable : option error -> Z -> bool.
Variable staffIC : Smap -> Smap.

Local Abbreviation sweep := (sweep error IsUnreachable).
Local Abbreviation _pre := (_pre staffIC).
Local Abbreviation updateSmap := (updateSmap error IsUnreachable staffIC).

Lemma pre_left_primary (p : ais.proxyrunner) (toRemove : list string)
      (clone : Smap) :
  ais.isPrimary (ais.smap p) (ais.si p) = true ->
  pre_left (_pre p toRemove clone) = [].
Proof.
  intros Hprim. unfold ProxyKeepalive._pre. rewrite Hprim. cbn [negb].
  destruct (drain staffIC toRemove clone "keepalive: removing [" 0 [])
    as [[[clone' metaction] cnt] unknown].
  destruct (cnt =? 0); reflexivity.
Qed.

(** X22.  The two assertions of [openCh] hold in the sweeps of the
    primary.  A keepaliver that holds no channels, as after
    [newProxyKeepalive], or empty ones passes them for any number of
    daemons and gets empty channels with room for one id per daemon.  When
    a sweep of a node that is the primary returns, the keepaliver again
    holds no channels or empty ones, whatever the goroutines met: after a
    stop signal [closeCh] has dropped the channels, and otherwise
    [stoppedCh] is empty and [_pre] has drained [toRemoveCh]; so the next
    call of [openCh] passes its assertions too. *)
Theorem openCh_assertions_hold
        (p : ais.proxyrunner) (k : keepalive) (inProgress : bool)
        (prev : option channels)
        (isTimeToPing : string -> bool)
        (order : list Snode -> list Snode)
        (oracle : Snode -> goroutine error) :
  ais.isPrimary (ais.smap p) (ais.si p) = true ->
  no_carry_over prev ->
  (forall daemonCnt,
      exists ch0, openCh prev daemonCnt = Some ch0
                  /\ stoppedCh ch0 = 0%nat /\ toRemoveCh ch0 = []
                  /\ (daemonCnt <= ch_cap ch0)%nat)
  /\ (forall res,
        updateSmap p k inProgress prev isTimeToPing order oracle = Some res ->
        no_carry_over (sw_ch res)
        /\ (sw_stopped res = true -> sw_ch res = None)
        /\ forall daemonCnt, is_Some (openCh (sw_ch res) daemonCnt)).
Proof.
  intros Hprim Hprev. split.
  { intros n. destruct (openCh_no_carry_over prev n Hprev) as (ch0 & Ho & Hc).
    destruct (openCh_empty prev n ch0 Ho) as [Hs Hr]. eauto. }
  intros res Hres.
  assert (Hnc : no_carry_over (sw_ch res)
                /\ (sw_stopped res = true -> sw_ch res = None)).
  { revert Hres. unfold ProxyKeepalive.updateSmap. destruct inProgress.
    { intros [= <-]. cbn [sw_ch sw_stopped]. split; [exact Hprev | discriminate]. }
    destruct (openCh prev (Count (ais.smap p))) as [ch0|]; [|discriminate].
    cbv zeta.
    destruct (sweep k ch0 _) as [[k' ch]|]; [|discriminate].
    destruct (Nat.ltb_spec 0 (stoppedCh ch)) as [Hst|Hst].
    { intros [= <-]. cbn [sw_ch sw_stopped].
      split; [intros c; discriminate | reflexivity]. }
    assert (Hs0 : stoppedCh ch = 0%nat) by lia.
    destruct (Nat.eqb_spec (length (toRemoveCh ch)) 0) as [Hlen|Hlen].
    { intros [= <-]. cbn [sw_ch sw_stopped]. split; [|discriminate].
      intros c [= <-]. split; [exact Hs0|].
      destruct (toRemoveCh ch); [reflexivity | discriminate]. }
    pose proof (pre_left_primary p (toRemoveCh ch) (ais.smap p) Hprim) as Hleft.
    destruct (pre_err (_pre p (toRemoveCh ch) (ais.smap p)));
      intros [= <-]; cbn [sw_ch sw_stopped]; (split; [|discriminate]);
      intros c [= <-]; cbn [stoppedCh toRemoveCh]; auto. }
  destruct Hnc as [Hnc Hcl]. split; [exact Hnc|]. split; [exact Hcl|].
  intros n. destruct (openCh_no_carry_over (sw_ch res) n Hnc) as (ch0 & Ho & _).
  rewrite Ho. eauto.
Qed.

End ChannelsFacts.

Lemma openCh_assertions_hold_witness :
  let down := fun _ : Z => Keepalive.mkSendResult 0 (Some tt) 1000 in
  let up := fun _ : Z => Keepalive.mkSendResult 200 (@None unit) 1000 in
  let oracle := fun si : cluster.Snode =>
    if String.eqb (cluster.ID si) "t2"
    then ProxyKeepalive.mkGoroutine false down
           [ProxyKeepalive.PTick down; ProxyKeepalive.PTick down;
            ProxyKeepalive.PTick down]
    else ProxyKeepalive.mkGoroutine false up [] in
  let p := sample.primary sample.smap_t1t2 in
  exists res,
    ProxyKeepalive.updateSmap unit (fun _ _ => true) sample.staffIC p
      (Keepalive.newKeepalive 4000000000) false None (fun _ => true)
      (fun l => l) oracle = Some res
    /\ cluster.Tmap (ais.smap (ProxyKeepalive.sw_p res)) !! "t2" = None
    /\ ProxyKeepalive.sw_ch res = Some (ProxyKeepalive.mkChannels 8 0 [])
    /\ no_carry_over (ProxyKeepalive.sw_ch res).
Proof.
  intros down up oracle p.
  destruct (ProxyKeepalive.updateSmap unit (fun _ _ => true) sample.staffIC p
              (Keepalive.newKeepalive 4000000000) false None (fun _ => true)
              (fun l => l) oracle) as [res|] eqn:E;
    [|vm_compute in E; discriminate].
  exists res. split; [reflexivity|].
  destruct (openCh_assertions_hold unit (fun _ _ => true) sample.staffIC
              p (Keepalive.newKeepalive 4000000000) false None (fun _ => true)
              (fun l => l) oracle) as [_ H].
  - reflexivity.
  - intros ch; discriminate.
  - destruct (H res E) as (Hnc & _ & _).
    vm_compute in E. injection E as <-.
    split; [reflexivity|]. split; [reflexivity | exact Hnc].
Defined.

